(** * CarPal backend (backend/app.js): a shallow embedding and its properties

    The routes of the Express server of CarPal for accounts, uploads,
    listing and deleting are embedded as state-passing functions over a
    [World] made of the MySQL tables, the upload directory tree and a log of
    the effects performed, and the handlers of the landing page and of the
    dashboard as functions of the responses they get; the static files are
    left out.  The libraries the server calls (JSON, bcrypt,
    jsonwebtoken, Buffer) and the process configuration are the fields of the
    class [Platform]; the handlers are written once, over any platform.  A
    small executable platform, [mini], is used to run the handlers on
    concrete requests. *)

From Stdlib Require Import ZArith String Ascii List Bool Lia.
From stdpp Require Import gmap strings list sorting pretty.
Import ListNotations.

Set Warnings "-register-all".

Local Open Scope string_scope.
Local Open Scope Z_scope.

(** ** JavaScript strings

    A JavaScript string is embedded as the [string] of the bytes of its
    UTF-8 encoding.  The separators the server looks for (a space, a
    slash, a backquote) are ASCII and are single bytes, which are no part of
    a longer character; the white space beyond ASCII takes two or three
    bytes. *)

Module Js.

(** White space of one byte: TAB, LF, VT, FF, CR and SPACE. *)
Definition space1 (a : ascii) : bool :=
  let n := nat_of_ascii a in
  ((9 <=? n)%nat && (n <=? 13)%nat) || (n =? 32)%nat.

(** White space of two bytes: NO-BREAK SPACE, U+00A0, the bytes C2 A0. *)
Definition space2 (a b : ascii) : bool :=
  (nat_of_ascii a =? 194)%nat && (nat_of_ascii b =? 160)%nat.

(** White space of three bytes: U+1680 (E1 9A 80); U+2000 to U+200A
    (E2 80 80 to E2 80 8A); the line and paragraph separators U+2028 and
    U+2029 (E2 80 A8 and A9); U+202F (E2 80 AF); U+205F (E2 81 9F);
    U+3000 (E3 80 80); and the byte order mark U+FEFF (EF BB BF). *)
Definition space3 (a b c : ascii) : bool :=
  let x := nat_of_ascii a in
  let y := nat_of_ascii b in
  let z := nat_of_ascii c in
  ((x =? 225) && (y =? 154) && (z =? 128))%nat
  || ((x =? 226) && (y =? 128)
      && (((128 <=? z) && (z <=? 138)) || (z =? 168) || (z =? 169) || (z =? 175)))%nat
  || ((x =? 226) && (y =? 129) && (z =? 159))%nat
  || ((x =? 227) && (y =? 128) && (z =? 128))%nat
  || ((x =? 239) && (y =? 187) && (z =? 191))%nat.

(** A class of characters, by the bytes of its members of one, two and
    three bytes. *)
Record class := {
  one : ascii -> bool;
  two : ascii -> ascii -> bool;
  three : ascii -> ascii -> ascii -> bool
}.

(** The class [\s] of a regular expression, which is also what [trim]
    removes: the white space and the line terminators of ECMAScript. *)
Definition is_space : class := {| one := space1; two := space2; three := space3 |}.

(** [[\s\S]]: everything.  The matcher of JavaScript goes on by one code
    unit and the one here by one byte; the pattern of the server looks, at
    each step, for white space and three backquotes, which start at no
    byte inside a character, so that the two find the same match. *)
Definition any_char : class :=
  {| one := fun _ => true; two := fun _ _ => false; three := fun _ _ _ => false |}.

(** One character of the class at the start of the text: what follows
    it. *)
Definition step (cls : class) (s : string) : option string :=
  match s with
  | String a s1 =>
      if one cls a then Some s1
      else match s1 with
           | String b s2 =>
               if two cls a b then Some s2
               else match s2 with
                    | String c s3 => if three cls a b c then Some s3 else None
                    | EmptyString => None
                    end
           | EmptyString => None
           end
  | EmptyString => None
  end.

Fixpoint trimStart (s : string) : string :=
  match s with
  | String a s1 =>
      if space1 a then trimStart s1
      else match s1 with
           | String b s2 =>
               if space2 a b then trimStart s2
               else match s2 with
                    | String c s3 => if space3 a b c then trimStart s3 else s
                    | EmptyString => s
                    end
           | EmptyString => s
           end
  | EmptyString => s
  end.

(** [s.trimEnd()]: the bytes of the text up to where only white space is
    left. *)
Fixpoint trimEnd (s : string) : string :=
  match s with
  | String c s' =>
      match trimStart s with
      | EmptyString => EmptyString
      | _ => String c (trimEnd s')
      end
  | EmptyString => EmptyString
  end.

(** [s.trim()] *)
Definition trim (s : string) : string := trimEnd (trimStart s).

(** In UTF-8 the bytes from 128 to 191 continue a character and start
    none. *)
Definition continues (a : ascii) : bool :=
  ((128 <=? nat_of_ascii a) && (nat_of_ascii a <=? 191))%nat.

(** The text is empty or starts where a character does. *)
Definition starts_character (t : string) : Prop :=
  match t with
  | String a _ => continues a = false
  | EmptyString => True
  end.

(** [s.split(sep)] for a separator of one character. *)
Fixpoint split (sep : ascii) (s : string) : list string :=
  match s with
  | EmptyString => [EmptyString]
  | String c s' =>
      if Ascii.eqb c sep then EmptyString :: split sep s'
      else match split sep s' with
           | w :: ws => String c w :: ws
           | [] => [String c EmptyString]
           end
  end.

(** [s.startsWith(p)], giving what follows the prefix. *)
Fixpoint strip_prefix (p s : string) : option string :=
  match p, s with
  | EmptyString, _ => Some s
  | String a p', String b s' => if Ascii.eqb a b then strip_prefix p' s' else None
  | String _ _, EmptyString => None
  end.

(** Truthiness of a string that may be [undefined]: [!x] holds for
    [undefined] and for the empty string. *)
Definition truthy (x : option string) : bool :=
  match x with
  | Some (String _ _) => true
  | _ => false
  end.

(** The text has no backquote. *)
Fixpoint no_backquote (s : string) : bool :=
  match s with
  | String c s' => negb (Ascii.eqb c "`") && no_backquote s'
  | EmptyString => true
  end.

(** The text is made of white space only. *)
Definition blank (s : string) : Prop := trimStart s = EmptyString.

(** [String(n)] for an integer. *)
Definition String_ (n : Z) : string := pretty n.

(** *** Regular expressions

    The fragment of the backtracking matcher that the server uses: literal
    text, a greedy or lazy star over a character class, and one capturing
    group.  A pattern is the list of its items. *)

Inductive quantifier := Greedy | Lazy.

Inductive item :=
| Lit (s : string)
| Star (q : quantifier) (cls : class)
| GroupOpen
| GroupClose.

(** Where group 1 was opened, and what it captured once closed. *)
Record captures := { opened : string; group1 : string }.

Section Stars.
Context {R : Type}.
Variable cls : class.
Variable k : string -> option R.

(** [c*]: take as many characters as possible, give back one at a time. *)
Fixpoint star_greedy (s : string) : option R :=
  let more (rest : option R) :=
    match rest with
    | Some r => Some r
    | None => k s
    end in
  match s with
  | String a s1 =>
      if one cls a then more (star_greedy s1)
      else match s1 with
           | String b s2 =>
               if two cls a b then more (star_greedy s2)
               else match s2 with
                    | String c s3 =>
                        if three cls a b c then more (star_greedy s3) else k s
                    | EmptyString => k s
                    end
           | EmptyString => k s
           end
  | EmptyString => k s
  end.

(** [c*?]: take as few characters as possible, one more on failure. *)
Fixpoint star_lazy (s : string) : option R :=
  match k s with
  | Some r => Some r
  | None =>
      match s with
      | String a s1 =>
          if one cls a then star_lazy s1
          else match s1 with
               | String b s2 =>
                   if two cls a b then star_lazy s2
                   else match s2 with
                        | String c s3 => if three cls a b c then star_lazy s3 else None
                        | EmptyString => None
                        end
               | EmptyString => None
               end
      | EmptyString => None
      end
  end.
End Stars.

(** The text between the place where the group opened and the place [s]
    where it closes. *)
Definition captured (o s : string) : string :=
  substring 0 (String.length o - String.length s) o.

(** Match pattern [p] at the start of [s]: group 1 and the text left. *)
Fixpoint exec (p : list item) (cap : captures) (s : string) : option (string * string) :=
  match p with
  | [] => Some (group1 cap, s)
  | Lit l :: p' =>
      match strip_prefix l s with
      | Some s' => exec p' cap s'
      | None => None
      end
  | Star Greedy cls :: p' => star_greedy cls (exec p' cap) s
  | Star Lazy cls :: p' => star_lazy cls (exec p' cap) s
  | GroupOpen :: p' => exec p' {| opened := s; group1 := group1 cap |} s
  | GroupClose :: p' =>
      exec p' {| opened := opened cap; group1 := captured (opened cap) s |} s
  end.

(** [s.replace(re, '$1')] for a pattern without the [g] flag: the leftmost
    match is replaced by its group 1; without a match [s] is returned. *)
Fixpoint replace_1 (re : list item) (s : string) : string :=
  match exec re {| opened := EmptyString; group1 := EmptyString |} s with
  | Some (g, rest) => g +:+ rest
  | None =>
      match s with
      | String c s' => String c (replace_1 re s')
      | EmptyString => EmptyString
      end
  end.

End Js.

(** ** Node's [path] module, on the paths the server builds

    The segments joined here are a directory, the literal [cars], a decimal
    user id and a file name without separators, so that [path.join] amounts
    to concatenation with [/]. *)

Module path.

Fixpoint join (segs : list string) : string :=
  match segs with
  | [] => "."
  | [s] => s
  | s :: rest => s +:+ "/" +:+ join rest
  end.

(** [path.basename(p)]: the last non-empty segment of [p]. *)
Definition basename (p : string) : string :=
  List.last
    (List.filter (fun seg => negb (String.eqb seg EmptyString)) (Js.split "/" p))
    EmptyString.

End path.

(** ** JSON values

    The values [JSON.parse] produces and [JSON.stringify] consumes.  An
    object keeps its properties in order.  Numbers are the integers; the
    fractions of binary64 are not part of this embedding. *)

Inductive JSON :=
| JNull
| JBool (b : bool)
| JNum (n : Z)
| JStr (s : string)
| JArr (xs : list JSON)
| JObj (props : list (string * JSON)).

(** [v.k]: reading a property; [None] stands for [undefined], which is also
    what reading a property of a string or a number gives. *)
Definition get (k : string) (v : JSON) : option JSON :=
  match v with
  | JObj props => snd <$> List.find (fun kv => String.eqb (fst kv) k) props
  | _ => None
  end.

(** [typeof v === 'string'] *)
Definition is_string (v : JSON) : bool :=
  match v with
  | JStr _ => true
  | _ => false
  end.

(** ** The platform

    What the server takes from its libraries and from the environment of the
    process.  [JSON_parse] gives [None] where [JSON.parse] throws a
    [SyntaxError]; [jwt_verify] gives [None] where [jwt.verify] calls back
    with an error (bad signature, malformed or expired token). *)

(** The payload of a token: the object passed to [jwt.sign], with the
    [iat] and [exp] claims that [expiresIn] adds, in seconds. *)
Module Jwt.
Record Payload := {
  id : Z;
  username : option string;
  iat : Z;
  exp : Z
}.
End Jwt.

(** The bytes of a password that bcrypt reads: the first 72.  What comes
    after them takes no part in the hash. *)
Definition bcrypt_key (password : string) : string := substring 0 72 password.

Class Platform := {
  JSON_parse : string -> option JSON;
  JSON_stringify : JSON -> string;
  (** [bcrypt.hash(password, rounds)] with the salt it draws *)
  bcrypt_hash : string -> string -> string;
  (** [bcrypt.compare(password, hash)] *)
  bcrypt_compare : string -> string -> bool;
  (** [jwt.sign(payload, secret)] *)
  jwt_sign : Jwt.Payload -> string -> string;
  (** [jwt.verify(token, secret)] at a time given in seconds *)
  jwt_verify : string -> string -> Z -> option Jwt.Payload;
  (** [Buffer.toString('base64')] *)
  base64 : string -> string;
  (** [process.env.JWT_SECRET] *)
  JWT_SECRET : string;
  (** [__dirname] *)
  dirname : string
}.

(** ** A small platform

    An executable platform for running the handlers.  Its JSON functions
    follow ECMA-404 on texts whose numbers are integer literals of magnitude
    at most 2^53, whose strings are ASCII with the two-character escapes
    only, and whose objects repeat no key; on any other text [parse] answers
    [None].  Its hash and its tokens are transparent stand-ins for bcrypt
    and for jsonwebtoken; the hash reads, as bcrypt does, the first 72
    bytes of the password. *)

Module Mini.

Definition dquote : ascii := "034"%char.
Definition backslash : ascii := "092"%char.

(** Writes a text that contains double quotes with single quotes. *)
Fixpoint dq (s : string) : string :=
  match s with
  | String c s' => String (if Ascii.eqb c "'" then dquote else c) (dq s')
  | EmptyString => EmptyString
  end.

Definition is_ws (c : ascii) : bool :=
  let n := nat_of_ascii c in
  (n =? 32)%nat || (n =? 9)%nat || (n =? 10)%nat || (n =? 13)%nat.

Fixpoint skip_ws (s : string) : string :=
  match s with
  | String c s' => if is_ws c then skip_ws s' else s
  | EmptyString => EmptyString
  end.

Definition digit (c : ascii) : option Z :=
  let n := nat_of_ascii c in
  if (48 <=? n)%nat && (n <=? 57)%nat then Some (Z.of_nat n - 48) else None.

(** The digits at the start of [s]: how many, their value after [acc], and
    the rest. *)
Fixpoint digits (acc : Z) (s : string) : nat * Z * string :=
  match s with
  | String c s' =>
      match digit c with
      | Some d => let '(n, v, r) := digits (10 * acc + d) s' in (S n, v, r)
      | None => (O, acc, s)
      end
  | EmptyString => (O, acc, s)
  end.

Definition starts_fraction (s : string) : bool :=
  match s with
  | String c _ => Ascii.eqb c "." || Ascii.eqb c "e" || Ascii.eqb c "E"
  | EmptyString => false
  end.

(** A number of the grammar: an optional minus sign, then a zero or a
    digit other than zero followed by digits; with no fraction and no
    exponent after it. *)
Definition number (s : string) : option (Z * string) :=
  let '(neg, s1) :=
    match s with
    | String "-" r => (true, r)
    | _ => (false, s)
    end in
  let '(n, v, r) := digits 0 s1 in
  let leading_zero :=
    match s1 with
    | String "0" _ => (1 <? n)%nat
    | _ => false
    end in
  if (n =? 0)%nat || leading_zero || starts_fraction r || (2 ^ 53 <? v)
  then None
  else Some (if neg then - v else v, r).

Definition unescape (c : ascii) : option ascii :=
  if Ascii.eqb c dquote then Some dquote
  else if Ascii.eqb c backslash then Some backslash
  else if Ascii.eqb c "/" then Some "/"%char
  else if Ascii.eqb c "b" then Some "008"%char
  else if Ascii.eqb c "f" then Some "012"%char
  else if Ascii.eqb c "n" then Some "010"%char
  else if Ascii.eqb c "r" then Some "013"%char
  else if Ascii.eqb c "t" then Some "009"%char
  else None.

(** The characters of a string literal after its opening quote, up to the
    closing one. *)
Fixpoint chars (s : string) : option (string * string) :=
  match s with
  | EmptyString => None
  | String c r =>
      if Ascii.eqb c dquote then Some (EmptyString, r)
      else if Ascii.eqb c backslash then
        match r with
        | String e r' =>
            match unescape e, chars r' with
            | Some c', Some (t, rest) => Some (String c' t, rest)
            | _, _ => None
            end
        | EmptyString => None
        end
      else if (nat_of_ascii c <? 32)%nat || (127 <? nat_of_ascii c)%nat then None
      else
        match chars r with
        | Some (t, rest) => Some (String c t, rest)
        | None => None
        end
  end.

Definition has_key (k : string) (props : list (string * JSON)) : bool :=
  existsb (fun kv => String.eqb (fst kv) k) props.

Section Composite.
(** The parser of one value, at a smaller depth. *)
Variable value : string -> option (JSON * string).

(** The values of an array after its opening bracket, separated by
    commas, and the closing bracket. *)
Fixpoint elements (n : nat) (s : string) : option (list JSON * string) :=
  match n with
  | O => None
  | S n' =>
      match value s with
      | Some (v, r) =>
          match skip_ws r with
          | String "," r' =>
              match elements n' r' with
              | Some (vs, rest) => Some (v :: vs, rest)
              | None => None
              end
          | String "]" r' => Some ([v], r')
          | _ => None
          end
      | None => None
      end
  end.

(** The members of an object after its opening brace, each a string, a
    colon and a value, separated by commas, and the closing brace. *)
Fixpoint members (n : nat) (s : string) : option (list (string * JSON) * string) :=
  match n with
  | O => None
  | S n' =>
      match skip_ws s with
      | String q r0 =>
          if negb (Ascii.eqb q dquote) then None else
          match chars r0 with
          | Some (k, r1) =>
              match skip_ws r1 with
              | String ":" r2 =>
                  match value r2 with
                  | Some (v, r3) =>
                      match skip_ws r3 with
                      | String "," r4 =>
                          match members n' r4 with
                          | Some (kvs, rest) =>
                              if has_key k kvs then None else Some ((k, v) :: kvs, rest)
                          | None => None
                          end
                      | String "}" r4 => Some ([(k, v)], r4)
                      | _ => None
                      end
                  | None => None
                  end
              | _ => None
              end
          | None => None
          end
      | EmptyString => None
      end
  end.
End Composite.

Fixpoint value (n : nat) (s : string) : option (JSON * string) :=
  match n with
  | O => None
  | S n' =>
      match skip_ws s with
      | EmptyString => None
      | String c r as s1 =>
          if Ascii.eqb c "{" then
            match skip_ws r with
            | String "}" r' => Some (JObj [], r')
            | _ =>
                match members (value n') n' r with
                | Some (kvs, rest) => Some (JObj kvs, rest)
                | None => None
                end
            end
          else if Ascii.eqb c "[" then
            match skip_ws r with
            | String "]" r' => Some (JArr [], r')
            | _ =>
                match elements (value n') n' r with
                | Some (vs, rest) => Some (JArr vs, rest)
                | None => None
                end
            end
          else if Ascii.eqb c dquote then
            match chars r with
            | Some (t, rest) => Some (JStr t, rest)
            | None => None
            end
          else
            match Js.strip_prefix "true" s1, Js.strip_prefix "false" s1,
                  Js.strip_prefix "null" s1 with
            | Some rest, _, _ => Some (JBool true, rest)
            | _, Some rest, _ => Some (JBool false, rest)
            | _, _, Some rest => Some (JNull, rest)
            | _, _, _ =>
                match number s1 with
                | Some (v, rest) => Some (JNum v, rest)
                | None => None
                end
            end
      end
  end.

(** [JSON.parse(text)]: one value, and nothing but white space after it. *)
Definition parse (text : string) : option JSON :=
  match value (S (String.length text)) text with
  | Some (v, rest) =>
      match skip_ws rest with
      | EmptyString => Some v
      | _ => None
      end
  | None => None
  end.

Definition hex_digit (n : nat) : ascii :=
  ascii_of_nat (if (n <? 10)%nat then 48 + n else 87 + n).

Definition escape (c : ascii) : string :=
  let n := nat_of_ascii c in
  if Ascii.eqb c dquote then String backslash (String dquote EmptyString)
  else if Ascii.eqb c backslash then String backslash (String backslash EmptyString)
  else if (n =? 8)%nat then String backslash "b"
  else if (n =? 12)%nat then String backslash "f"
  else if (n =? 10)%nat then String backslash "n"
  else if (n =? 13)%nat then String backslash "r"
  else if (n =? 9)%nat then String backslash "t"
  else if (n <? 32)%nat then
    String backslash
      ("u00" +:+ String (hex_digit (n / 16)) (String (hex_digit (n mod 16)) EmptyString))
  else String c EmptyString.

Fixpoint escaped (s : string) : string :=
  match s with
  | String c s' => escape c +:+ escaped s'
  | EmptyString => EmptyString
  end.

Definition quote (s : string) : string :=
  String dquote (escaped s +:+ String dquote EmptyString).

Fixpoint commas (parts : list string) : string :=
  match parts with
  | [] => EmptyString
  | [x] => x
  | x :: rest => x +:+ "," +:+ commas rest
  end.

(** [JSON.stringify(v)] *)
Fixpoint stringify (v : JSON) : string :=
  match v with
  | JNull => "null"
  | JBool true => "true"
  | JBool false => "false"
  | JNum n => Js.String_ n
  | JStr s => quote s
  | JArr xs => "[" +:+ commas (List.map stringify xs) +:+ "]"
  | JObj props =>
      "{" +:+ commas (List.map (fun kv => quote (fst kv) +:+ ":" +:+ stringify (snd kv)) props)
          +:+ "}"
  end.

(** An integer in decimal at the start of [s]. *)
Definition integer (s : string) : option (Z * string) :=
  let '(neg, s1) :=
    match s with
    | String "-" r => (true, r)
    | _ => (false, s)
    end in
  let '(n, v, r) := digits 0 s1 in
  if (n =? 0)%nat then None else Some (if neg then - v else v, r).

(** An integer followed by a dot. *)
Definition field (s : string) : option (Z * string) :=
  match integer s with
  | Some (v, String "." r) => Some (v, r)
  | _ => None
  end.

(** A token spells its claims and the key that signed it.  A [username]
    that is [undefined] is left out, as [jwt.sign] does. *)
Definition sign (p : Jwt.Payload) (secret : string) : string :=
  "mini." +:+ Js.String_ (Jwt.id p) +:+ "." +:+ Js.String_ (Jwt.iat p) +:+ "."
          +:+ Js.String_ (Jwt.exp p) +:+ "." +:+ secret.

(** A token verifies under the key that signed it, before its expiry. *)
Definition verify (token secret : string) (now : Z) : option Jwt.Payload :=
  match Js.strip_prefix "mini." token with
  | Some s0 =>
      match field s0 with
      | Some (i, s1) =>
          match field s1 with
          | Some (a, s2) =>
              match field s2 with
              | Some (e, key) =>
                  if String.eqb key secret && (now <? e)
                  then Some {| Jwt.id := i; Jwt.username := None; Jwt.iat := a; Jwt.exp := e |}
                  else None
              | None => None
              end
          | None => None
          end
      | None => None
      end
  | None => None
  end.

(** The hash keeps the bytes of the password that bcrypt reads behind a
    tag, and ignores the salt. *)
Definition hash (password salt : string) : string := "$mini$" +:+ bcrypt_key password.

Definition compare (password hashed : string) : bool :=
  String.eqb hashed ("$mini$" +:+ bcrypt_key password).

Definition alphabet : string :=
  "ABCDEFGHIJKLMNOPQRSTUVWXYZabcdefghijklmnopqrstuvwxyz0123456789+/".

Definition sextet (n : N) : ascii :=
  match String.get (N.to_nat (n mod 64)) alphabet with
  | Some c => c
  | None => "="%char
  end.

Fixpoint base64 (s : string) : string :=
  match s with
  | EmptyString => EmptyString
  | String a EmptyString =>
      let n := (N_of_ascii a * 65536)%N in
      String (sextet (n / 262144)) (String (sextet (n / 4096)) "==")
  | String a (String b EmptyString) =>
      let n := (N_of_ascii a * 65536 + N_of_ascii b * 256)%N in
      String (sextet (n / 262144)) (String (sextet (n / 4096)) (String (sextet (n / 64)) "="))
  | String a (String b (String c r)) =>
      let n := (N_of_ascii a * 65536 + N_of_ascii b * 256 + N_of_ascii c)%N in
      String (sextet (n / 262144)) (String (sextet (n / 4096))
        (String (sextet (n / 64)) (String (sextet n) (base64 r))))
  end.

End Mini.

Definition mini : Platform := {|
  JSON_parse := Mini.parse;
  JSON_stringify := Mini.stringify;
  bcrypt_hash := Mini.hash;
  bcrypt_compare := Mini.compare;
  jwt_sign := Mini.sign;
  jwt_verify := Mini.verify;
  base64 := Mini.base64;
  JWT_SECRET := "s3cret";
  dirname := "/srv/backend"
|}.

(** ** The MySQL tables

    The two tables of the setup script.  [AUTO_INCREMENT] is the counter
    that numbers the next row; timestamps are in seconds. *)

Module users.
Record row := {
  id : Z;
  email : string;
  password : string;
  created_at : Z
}.
End users.

Module cars.
Record row := {
  id : Z;
  filename : string;
  url : string;
  user_id : Z;
  car_info : string;
  uploaded_at : Z
}.
End cars.

Record Database := {
  users : list users.row;
  cars : list cars.row;
  users_AUTO_INCREMENT : Z;
  cars_AUTO_INCREMENT : Z
}.

(** [err.code] of a failed statement: the violated [UNIQUE] key of
    [users.email], or anything else. *)
Inductive SqlError := ER_DUP_ENTRY | ER_OTHER.

(** What a statement does to the tables: an error, or its result and the
    tables after it. *)
Definition Statement (A : Type) : Type := Database -> SqlError + A * Database.

Module Sql.

(** [INSERT INTO users (email, password) VALUES (?, ?)] *)
Definition insert_user (email password : string) (now : Z) : Statement unit :=
  fun d =>
    if existsb (fun u => String.eqb (users.email u) email) (users d)
    then inl ER_DUP_ENTRY
    else inr (tt, {| users := users d ++
                        [{| users.id := users_AUTO_INCREMENT d; users.email := email;
                            users.password := password; users.created_at := now |}];
                     cars := cars d;
                     users_AUTO_INCREMENT := users_AUTO_INCREMENT d + 1;
                     cars_AUTO_INCREMENT := cars_AUTO_INCREMENT d |}).

(** [SELECT * FROM users WHERE email = ?] *)
Definition select_user (email : string) : Statement (list users.row) :=
  fun d => inr (List.filter (fun u => String.eqb (users.email u) email) (users d), d).

(** [INSERT INTO cars (filename, url, user_id, car_info) VALUES (?, ?, ?, ?)] *)
Definition insert_car (filename url : string) (user_id : Z) (car_info : string) (now : Z)
  : Statement unit :=
  fun d =>
    inr (tt, {| users := users d;
                cars := cars d ++
                        [{| cars.id := cars_AUTO_INCREMENT d; cars.filename := filename;
                            cars.url := url; cars.user_id := user_id;
                            cars.car_info := car_info; cars.uploaded_at := now |}];
                users_AUTO_INCREMENT := users_AUTO_INCREMENT d;
                cars_AUTO_INCREMENT := cars_AUTO_INCREMENT d + 1 |}).

Definition owned (id user_id : Z) (c : cars.row) : bool :=
  (cars.id c =? id) && (cars.user_id c =? user_id).

(** [SELECT * FROM cars WHERE id = ? AND user_id = ?] *)
Definition select_car (id user_id : Z) : Statement (list cars.row) :=
  fun d => inr (List.filter (owned id user_id) (cars d), d).

(** [DELETE FROM cars WHERE id = ? AND user_id = ?] *)
Definition delete_car (id user_id : Z) : Statement unit :=
  fun d =>
    inr (tt, {| users := users d;
                cars := List.filter (fun c => negb (owned id user_id c)) (cars d);
                users_AUTO_INCREMENT := users_AUTO_INCREMENT d;
                cars_AUTO_INCREMENT := cars_AUTO_INCREMENT d |}).

(** [uploaded_at DESC]: a row comes before the rows uploaded no later. *)
Definition newer_first (a b : cars.row) : Prop := cars.uploaded_at b <= cars.uploaded_at a.

#[export] Instance newer_first_dec a b : Decision (newer_first a b) :=
  Z_le_dec (cars.uploaded_at b) (cars.uploaded_at a).

(** [SELECT * FROM cars WHERE user_id = ? ORDER BY uploaded_at DESC] *)
Definition select_cars_of (user_id : Z) : Statement (list cars.row) :=
  fun d =>
    inr (merge_sort newer_first (List.filter (fun c => cars.user_id c =? user_id) (cars d)), d).

End Sql.

(** ** The world of the server *)

(** The effects a request performs, in the order it performs them. *)
Inductive Effect :=
| mkdirSync (p : string)
| writeFile (p : string)
| readFileSync (p : string)
| unlink (p : string)
| query (n : nat)
| generateContent
| console (msg : string).

Record World := {
  db : Database;
  (** the files under the upload root, by path *)
  files : gmap string string;
  (** the directories under the upload root *)
  folders : gset string;
  log : list Effect
}.

(** What the outside gives one request: the clock in milliseconds, the salt
    bcrypt draws, which of the request's statements MySQL fails for a reason
    outside the tables (a lost connection, a column too short, a foreign
    key), and what Gemini answers for an image, [None] when the call or the
    reading of its text throws. *)
Record Env := {
  Date_now : Z;
  salt : string;
  db_fault : nat -> bool;
  gemini : string -> option string
}.

(** The file part of a multipart request. *)
Record Upload := {
  originalname : string;
  buffer : string
}.

(** A request, as the pages of CarPal send them: the [Authorization]
    header; the [email] and the [password] of a JSON body, which are
    strings, or [undefined] when the body leaves them out; the [:id] of
    the route as MySQL reads it against an [INT] column; the file part of
    a multipart body, which there is at most one of, under the name
    [image]; and what the middleware attaches.  A body that carries a
    number, an array or an object for [email] or [password], and a body
    with a file part under another name or with several, are not among
    these requests: bcrypt rejects the former and multer refuses the
    latter, and the handlers do not catch either. *)
Record Request := {
  authorization : option string;
  body_email : option string;
  body_password : option string;
  params_id : Z;
  image : option Upload;
  user : option Jwt.Payload;
  file_path : option string
}.

Definition set_user (req : Request) (u : Jwt.Payload) : Request :=
  {| authorization := authorization req; body_email := body_email req;
     body_password := body_password req; params_id := params_id req;
     image := image req; user := Some u; file_path := file_path req |}.

Definition set_file (req : Request) (p : option string) : Request :=
  {| authorization := authorization req; body_email := body_email req;
     body_password := body_password req; params_id := params_id req;
     image := image req; user := user req; file_path := p |}.

Inductive Body :=
| text (s : string)
| json (v : JSON)
| records (rs : list cars.row).

Record Response := {
  status : Z;
  body : Body
}.

(** A step of a request either goes on with a value, has sent the response,
    or has thrown. *)
Inductive Outcome (A : Type) :=
| next (a : A)
| sent (r : Response)
| thrown (e : string).
Arguments next {A} a.
Arguments sent {A} r.
Arguments thrown {A} e.

Definition IO (A : Type) : Type := World -> Outcome A * World.

Definition ret {A} (a : A) : IO A := fun w => (next a, w).

Definition bind {A B} (m : IO A) (k : A -> IO B) : IO B :=
  fun w =>
    match m w with
    | (next a, w') => k a w'
    | (sent r, w') => (sent r, w')
    | (thrown e, w') => (thrown e, w')
    end.

Declare Scope io_scope.
Delimit Scope io_scope with io.
Notation "x <- m ;; k" := (bind m (fun x => k))
  (at level 100, m at next level, right associativity) : io_scope.
Notation "m ;; k" := (bind m (fun _ => k))
  (at level 100, right associativity) : io_scope.
Local Open Scope io_scope.

Definition throw {A} (e : string) : IO A := fun w => (thrown e, w).

(** [try { body } catch (err) { handler }] *)
Definition try_catch {A} (body : IO A) (handler : string -> IO A) : IO A :=
  fun w =>
    match body w with
    | (thrown e, w') => handler e w'
    | r => r
    end.

(** [res.status(code).send(s)] and [res.status(code).json(v)] *)
Definition send {A} (code : Z) (b : Body) : IO A :=
  fun w => (sent {| status := code; body := b |}, w).

(** [res.sendStatus(code)]: the body is the reason phrase. *)
Definition sendStatus {A} (code : Z) : IO A :=
  send code (text (if code =? 401 then "Unauthorized"
                   else if code =? 403 then "Forbidden"
                   else Js.String_ code)).

Definition effect (e : Effect) : IO unit :=
  fun w => (next tt, {| db := db w; files := files w; folders := folders w;
                        log := log w ++ [e] |}).

Module fs.

Definition existsSync (p : string) : IO bool :=
  fun w => (next (bool_decide (p ∈ folders w) || bool_decide (is_Some (files w !! p))), w).

(** [fs.mkdirSync(p, { recursive: true })] *)
Definition mkdir (p : string) : IO unit :=
  effect (mkdirSync p);;
  fun w => (next tt, {| db := db w; files := files w; folders := {[p]} ∪ folders w;
                        log := log w |}).

Definition write (p content : string) : IO unit :=
  effect (writeFile p);;
  fun w => (next tt, {| db := db w; files := <[p := content]> (files w);
                        folders := folders w; log := log w |}).

(** [fs.readFileSync(p)]: throws when there is no such file. *)
Definition read (p : string) : IO string :=
  effect (readFileSync p);;
  fun w =>
    match files w !! p with
    | Some content => (next content, w)
    | None => (thrown "ENOENT", w)
    end.

(** [fs.unlink(p, cb)]: the callback gets the error when there is no such
    file. *)
Definition remove (p : string) : IO bool :=
  effect (unlink p);;
  fun w =>
    match files w !! p with
    | Some _ => (next true, {| db := db w; files := delete p (files w);
                               folders := folders w; log := log w |})
    | None => (next false, w)
    end.

End fs.

Definition console_error (msg : string) : IO unit := effect (console msg).

(** ** The server *)

(** The pattern that cleans up the markdown around the answer:
    three backquotes and [json], [\s*], the group [([\s\S]*?)], [\s*] and
    three backquotes. *)
Definition fence : list Js.item :=
  [Js.Lit "```json"; Js.Star Js.Greedy Js.is_space; Js.GroupOpen;
   Js.Star Js.Lazy Js.any_char; Js.GroupClose; Js.Star Js.Greedy Js.is_space;
   Js.Lit "```"].

(** A truthy string. *)
Definition value_of (x : option string) : string :=
  match x with
  | Some s => s
  | None => EmptyString
  end.

Section Server.
Context {P : Platform}.
Variable env : Env.

(** The clock in seconds: [CURRENT_TIMESTAMP], and the time of a token. *)
Definition seconds : Z := Date_now env / 1000.

(** [db.query(sql, params, callback)], the [n]-th statement of the
    request: the callback gets the error or the result. *)
Definition db_query {A} (n : nat) (stmt : Statement A) : IO (SqlError + A) :=
  effect (query n);;
  fun w =>
    if db_fault env n then (next (inl ER_OTHER), w)
    else
      match stmt (db w) with
      | inl e => (next (inl e), w)
      | inr (a, d) =>
          (next (inr a),
           {| db := d; files := files w; folders := folders w; log := log w |})
      end.

(** [await db.promise().query(sql, params)]: an error is thrown. *)
Definition db_promise_query {A} (n : nat) (stmt : Statement A) : IO A :=
  r <- db_query n stmt;;
  match r with
  | inl ER_DUP_ENTRY => throw "ER_DUP_ENTRY"
  | inl ER_OTHER => throw "ER_OTHER"
  | inr a => ret a
  end.

(** [req.user.id]; a [TypeError] when no user is attached. *)
Definition req_user_id (req : Request) : IO Z :=
  match user req with
  | Some u => ret (Jwt.id u)
  | None => throw "TypeError"
  end.

(** Middleware to authenticate the token and attach the user. *)
Definition authenticateToken (req : Request) : IO Request :=
  let authHeader := authorization req in
  let token := authHeader ≫= (fun h => Js.split " " h !! 1%nat) in
  if negb (Js.truthy token) then sendStatus 401
  else
    match jwt_verify (value_of token) JWT_SECRET seconds with
    | None => sendStatus 403
    | Some u => ret (set_user req u)
    end.

(** [storage.destination]: the folder of the user, created when missing. *)
Definition storage_destination (req : Request) : IO string :=
  uid <- req_user_id req;;
  let userFolder := path.join [dirname; "cars"; Js.String_ uid] in
  there <- fs.existsSync userFolder;;
  (if negb there then fs.mkdir userFolder else ret tt);;
  ret userFolder.

(** [storage.filename]: the time and the original name. *)
Definition storage_filename (f : Upload) : string :=
  Js.String_ (Date_now env) +:+ "-" +:+ originalname f.

(** [upload.single('image')]: stores the file part, named [image], and
    attaches its path as [req.file.path]; for a body without a file part
    [req.file] is [undefined]. *)
Definition upload_single (req : Request) : IO Request :=
  match image req with
  | None => ret (set_file req None)
  | Some f =>
      dest <- storage_destination req;;
      let p := path.join [dest; storage_filename f] in
      fs.write p (buffer f);;
      ret (set_file req (Some p))
  end.

(** [POST /signup] *)
Definition signup (req : Request) : IO Empty_set :=
  let email := body_email req in
  let password := body_password req in
  if negb (Js.truthy email) || negb (Js.truthy password)
  then send 400 (json (JObj [("error", JStr "Email and password required")]))
  else
    let hashedPassword := bcrypt_hash (value_of password) (salt env) in
    r <- db_query 0 (Sql.insert_user (value_of email) hashedPassword seconds);;
    match r with
    | inl ER_DUP_ENTRY => send 409 (json (JObj [("error", JStr "Email already exists")]))
    | inl _ => send 500 (json (JObj [("error", JStr "Database error")]))
    | inr _ => send 201 (json (JObj [("message", JStr "User created")]))
    end.

(** [POST /login].  The rows of [users] have no [username] column, so the
    [username] of the payload is [undefined]. *)
Definition login (req : Request) : IO Empty_set :=
  let email := body_email req in
  let password := body_password req in
  if negb (Js.truthy email) || negb (Js.truthy password)
  then send 400 (text "Email and password required")
  else
    r <- db_query 0 (Sql.select_user (value_of email));;
    match r with
    | inl _ => send 500 (text "Database error")
    | inr [] => send 400 (text "Invalid credentials")
    | inr (u :: _) =>
        let valid := bcrypt_compare (value_of password) (users.password u) in
        if negb valid then send 400 (text "Invalid credentials")
        else
          let token :=
            jwt_sign {| Jwt.id := users.id u; Jwt.username := None;
                        Jwt.iat := seconds; Jwt.exp := seconds + 3600 |} JWT_SECRET in
          send 200 (json (JObj [("token", JStr token)]))
    end.

(** [model.generateContent(...)], then the text of its response. *)
Definition generate (imageData : string) : IO string :=
  effect generateContent;;
  match gemini env imageData with
  | Some answer => ret answer
  | None => throw "GoogleGenerativeAI Error"
  end.

(** The handler of [POST /upload], after the middleware. *)
Definition upload (req : Request) : IO Empty_set :=
  match file_path req with
  | None => send 400 (text "No file uploaded")
  | Some filepath =>
      bytes <- fs.read filepath;;
      let imageData := base64 bytes in
      try_catch
        (carInfoTextRaw <- generate imageData;;
         let carInfoText := Js.trim (Js.replace_1 fence carInfoTextRaw) in
         carInfoJson <-
           match JSON_parse carInfoText with
           | Some v => ret (JSON_stringify v)
           | None =>
               console_error "Failed to parse Gemini JSON response:";;
               ret (JSON_stringify (JObj [("description", JStr carInfoTextRaw)]))
           end;;
         let filename := path.basename filepath in
         uid <- req_user_id req;;
         let url := "/cars/" +:+ Js.String_ uid +:+ "/" +:+ filename in
         db_promise_query 0 (Sql.insert_car filename url uid carInfoJson seconds);;
         send 200 (json (JObj [("message", JStr "Uploaded & analyzed");
                               ("url", JStr url);
                               ("carInfo", JStr carInfoJson)])))
        (fun err =>
           console_error "Gemini error:";;
           send 500 (text "Gemini image analysis failed"))
  end.

(** The handler of [DELETE /images/:id], after the middleware. *)
Definition delete_image (req : Request) : IO Empty_set :=
  let imageId := params_id req in
  userId <- req_user_id req;;
  try_catch
    (rows <- db_promise_query 0 (Sql.select_car imageId userId);;
     match rows with
     | [] => send 404 (text "Image not found or not owned by user")
     | row :: _ =>
         let filePath := path.join [dirname; "cars"; Js.String_ userId; cars.filename row] in
         removed <- fs.remove filePath;;
         (if negb removed then console_error "Failed to delete image file:" else ret tt);;
         db_promise_query 1 (Sql.delete_car imageId userId);;
         send 200 (text "Image deleted successfully")
     end)
    (fun err =>
       console_error "Error deleting image:";;
       send 500 (text "Server error while deleting image")).

(** The handler of [GET /images], after the middleware. *)
Definition list_images (req : Request) : IO Empty_set :=
  uid <- req_user_id req;;
  r <- db_query 0 (Sql.select_cars_of uid);;
  match r with
  | inl _ =>
      console_error "Fetch error:";;
      send 500 (text "DB error")
  | inr results => send 200 (records results)
  end.

(** The routes, with their middleware in order. *)
Definition post_upload (req : Request) : IO Empty_set :=
  req1 <- authenticateToken req;;
  req2 <- upload_single req1;;
  upload req2.

Definition delete_images (req : Request) : IO Empty_set :=
  req1 <- authenticateToken req;;
  delete_image req1.

Definition get_images (req : Request) : IO Empty_set :=
  req1 <- authenticateToken req;;
  list_images req1.

(** The endpoints behind [authenticateToken]. *)
Definition authenticated_endpoints : list (Request -> IO Empty_set) :=
  [post_upload; delete_images; get_images].

(** *** Notions used to state the properties *)

(** The token of a request, as [authenticateToken] extracts it. *)
Definition token_of (req : Request) : option string :=
  authorization req ≫= (fun h => Js.split " " h !! 1%nat).

(** The identity of a request: the payload of its token when the request
    has one and it verifies. *)
Definition verified (req : Request) : option Jwt.Payload :=
  if Js.truthy (token_of req)
  then jwt_verify (value_of (token_of req)) JWT_SECRET seconds
  else None.

(** Where multer stores the image [f] of user [u]. *)
Definition upload_path (u : Jwt.Payload) (f : Upload) : string :=
  path.join [path.join [dirname; "cars"; Js.String_ (Jwt.id u)]; storage_filename f].

(** The public URL of a stored image. *)
Definition upload_url (u : Jwt.Payload) (f : Upload) : string :=
  "/cars/" +:+ Js.String_ (Jwt.id u) +:+ "/" +:+ path.basename (upload_path u f).

(** The row that an upload by [u] of [f], annotated [info], adds to
    [cars]. *)
Definition uploaded_row (d : Database) (u : Jwt.Payload) (f : Upload) (info : string)
  : cars.row :=
  {| cars.id := cars_AUTO_INCREMENT d;
     cars.filename := path.basename (upload_path u f);
     cars.url := upload_url u f;
     cars.user_id := Jwt.id u;
     cars.car_info := info;
     cars.uploaded_at := seconds |}.

(** The annotation of an answer of Gemini, as the handler of the upload
    computes it: the JSON of the answer, written anew, or else the answer
    wrapped as a description. *)
Definition annotation (raw : string) : string :=
  match JSON_parse (Js.trim (Js.replace_1 fence raw)) with
  | Some v => JSON_stringify v
  | None => JSON_stringify (JObj [("description", JStr raw)])
  end.

(** The body of the response to a successful upload. *)
Definition uploaded_body (u : Jwt.Payload) (f : Upload) (info : string) : Body :=
  json (JObj [("message", JStr "Uploaded & analyzed");
              ("url", JStr (upload_url u f));
              ("carInfo", JStr info)]).

End Server.

(** Nothing of a request is left: [cars] has the rows it had and the disk
    has the files it had. *)
Definition nothing_persisted (w w' : World) : Prop :=
  cars (db w') = cars (db w) /\ files w' = files w.

(** [UNIQUE] on [users.email]: no two rows have the same email. *)
Definition unique_emails (d : Database) : Prop := NoDup (users.email <$> users d).

(** bcrypt, on the bytes that it reads: a password compares equal to a
    hash exactly when its first 72 bytes are those of the password that
    was hashed. *)
Definition bcrypt_72 `{Platform} : Prop :=
  forall p p' s,
    bcrypt_compare p' (bcrypt_hash p s) = true <-> bcrypt_key p' = bcrypt_key p.

(** The least of it: a password compares equal to its own hash. *)
Definition bcrypt_accepts_own `{Platform} : Prop :=
  forall p s, bcrypt_compare p (bcrypt_hash p s) = true.

(** What holds of the tables of a running server: the keys are unique and
    below their counters, and every row of [users] was written by a signup,
    with an email and with the hash of a password that are not empty. *)
Record db_inv `{Platform} (d : Database) : Prop := {
  inv_emails : unique_emails d;
  inv_user_ids : NoDup (users.id <$> users d);
  inv_user_next : forall u, u ∈ users d -> users.id u < users_AUTO_INCREMENT d;
  inv_car_ids : NoDup (cars.id <$> cars d);
  inv_car_next : forall c, c ∈ cars d -> cars.id c < cars_AUTO_INCREMENT d;
  inv_signed_up :
    forall u, u ∈ users d ->
      users.email u <> EmptyString
      /\ exists p s, p <> EmptyString /\ users.password u = bcrypt_hash p s
}.

(** A computation keeps the invariant of the tables. *)
Definition keeps `{Platform} {A} (m : IO A) : Prop :=
  forall w o w', m w = (o, w') -> db_inv (db w) -> db_inv (db w').

(** The routes of the server that change or read the tables. *)
Definition routes `{Platform} : list (Env -> Request -> IO Empty_set) :=
  [signup; login; post_upload; delete_images; get_images].

(** The tables as the setup script creates them, and an empty disk. *)
Definition initial : World :=
  {| db := {| users := []; cars := [];
              users_AUTO_INCREMENT := 1; cars_AUTO_INCREMENT := 1 |};
     files := ∅; folders := ∅; log := [] |}.

(** The worlds the server can be in: after any requests, served one after
    the other in any environment. *)
Inductive reachable `{Platform} : World -> Prop :=
| reachable_initial : reachable initial
| reachable_request w h env req o w' :
    reachable w -> h ∈ routes -> h env req w = (o, w') -> reachable w'.

(** The client, MainPage.jsx: [typeof car_info === 'string' ?
    JSON.parse(car_info) : car_info], and [null] when parsing throws. *)
Definition featured_info `{Platform} (car_info : JSON) : JSON :=
  match car_info with
  | JStr s =>
      match JSON_parse s with
      | Some v => v
      | None => JNull
      end
  | v => v
  end.

(** ** Sample data, on the small platform *)

Module Sample.

#[local] Existing Instance mini.

Definition alice : users.row :=
  {| users.id := 1; users.email := "a@b.com"; users.password := "$mini$pw123";
     users.created_at := 1722990000 |}.

Definition bob : users.row :=
  {| users.id := 2; users.email := "bob@b.com"; users.password := "$mini$hunter2";
     users.created_at := 1722990001 |}.

(** The tokens of Alice and of Bob, valid until 1723003600. *)
Definition alice_token : string := "mini.1.1723000000.1723003600.s3cret".
Definition bob_token : string := "mini.2.1723000000.1723003600.s3cret".

Definition alice_id : Jwt.Payload :=
  {| Jwt.id := 1; Jwt.username := None; Jwt.iat := 1723000000; Jwt.exp := 1723003600 |}.
Definition bob_id : Jwt.Payload :=
  {| Jwt.id := 2; Jwt.username := None; Jwt.iat := 1723000000; Jwt.exp := 1723003600 |}.

Definition car (id : Z) (name : string) (owner at_ : Z) : cars.row :=
  {| cars.id := id; cars.filename := name;
     cars.url := "/cars/" +:+ Js.String_ owner +:+ "/" +:+ name;
     cars.user_id := owner; cars.car_info := "{}"; cars.uploaded_at := at_ |}.

(** Two users and no upload yet. *)
Definition world0 : World :=
  {| db := {| users := [alice; bob]; cars := [];
              users_AUTO_INCREMENT := 3; cars_AUTO_INCREMENT := 1 |};
     files := ∅; folders := ∅; log := [] |}.

(** Alice has two images and Bob has one. *)
Definition world1 : World :=
  {| db := {| users := [alice; bob];
              cars := [car 1 "100-a.jpg" 1 100; car 2 "200-b.jpg" 2 200;
                       car 3 "300-c.jpg" 1 300];
              users_AUTO_INCREMENT := 3; cars_AUTO_INCREMENT := 4 |};
     files := {[ "/srv/backend/cars/1/100-a.jpg" := "A";
                 "/srv/backend/cars/2/200-b.jpg" := "B";
                 "/srv/backend/cars/1/300-c.jpg" := "C" ]};
     folders := {[ "/srv/backend/cars/1"; "/srv/backend/cars/2" ]};
     log := [] |}.

(** A request at 1723000000123 ms, with the answer of Gemini and whether
    MySQL is down. *)
Definition env (answer : option string) (down : bool) : Env :=
  {| Date_now := 1723000000123; salt := "salt";
     db_fault := fun _ => down; gemini := fun _ => answer |}.

Definition request : Request :=
  {| authorization := None; body_email := None; body_password := None;
     params_id := 0; image := None; user := None; file_path := None |}.

Definition credentials (email password : option string) : Request :=
  {| authorization := None; body_email := email; body_password := password;
     params_id := 0; image := None; user := None; file_path := None |}.

Definition bearer (token : string) (id : Z) (f : option Upload) : Request :=
  {| authorization := Some ("Bearer " +:+ token); body_email := None;
     body_password := None; params_id := id; image := f; user := None;
     file_path := None |}.

Definition car_jpg : Upload := {| originalname := "car.jpg"; buffer := "JPEGDATA" |}.

(** The upload of the example scenario, by Alice, and where it is stored. *)
Definition upload_request : Request := bearer alice_token 0 (Some car_jpg).

Definition stored_path : string := "/srv/backend/cars/1/1723000000123-car.jpg".

(** The answer of the example scenario. *)
Definition toyota_answer : string :=
  Mini.dq "```json {'make':'Toyota','model':'Corolla','year':2020} ```".

Definition toyota : JSON :=
  JObj [("make", JStr "Toyota"); ("model", JStr "Corolla"); ("year", JNum 2020)].

(** The row of the example scenario. *)
Definition toyota_row : cars.row :=
  {| cars.id := 1; cars.filename := "1723000000123-car.jpg";
     cars.url := "/cars/1/1723000000123-car.jpg"; cars.user_id := 1;
     cars.car_info := Mini.dq "{'make':'Toyota','model':'Corolla','year':2020}";
     cars.uploaded_at := 1723000000 |}.

(** The worlds of the example scenario. *)
Definition ok : Env := env (Some toyota_answer) false.

Definition signed_up : World :=
  snd (signup ok (credentials (Some "a@b.com") (Some "pw123")) initial).

Definition uploaded : World := snd (post_upload ok upload_request signed_up).

Definition deleted : World := snd (delete_images ok (bearer alice_token 1 None) uploaded).


(** NO-BREAK SPACE, and the object of a year between two of them. *)
Definition nbsp : string := String "194"%char (String "160"%char EmptyString).

Definition spaced_answer : string := nbsp +:+ Mini.dq "{'year':2020}" +:+ nbsp.






(** A token of Alice signed with another key. *)
Definition forged_token : string := "mini.1.1723000000.1723003600.guess".

End Sample.

(** ** The rest of the server

    The route of the featured car, and the notions used to state what the
    routes do to the tables and to the files. *)

(** The body of an answer of [GET /featured-car]: the row, as mysql2 gives
    it, or an object with an [error]. *)
Inductive Featured :=
| featured_row (r : cars.row)
| featured_error (msg : string).

(** [SELECT * FROM cars ORDER BY RAND() LIMIT 1]: one row when there is any,
    which one being up to the draw of [RAND()]. *)
Definition select_random (draw : nat) : Statement (list cars.row) :=
  fun d =>
    inr (match cars d !! (draw mod List.length (cars d))%nat with
         | Some r => [r]
         | None => []
         end, d).

Section Featured.
Context {P : Platform}.
Variable env : Env.

(** [GET /featured-car]: gives the status and the body that it sends. *)
Definition featured_car (draw : nat) : IO (Z * Featured) :=
  try_catch
    (rows <- db_promise_query env 0 (select_random draw);;
     match rows with
     | [] => ret (404, featured_error "No cars found")
     | row :: _ => ret (200, featured_row row)
     end)
    (fun err =>
       console_error "Error fetching featured car:";;
       ret (500, featured_error "Server error")).

End Featured.

(** The text has no path separator. *)
Fixpoint no_slash (s : string) : bool :=
  match s with
  | String c s' => negb (Ascii.eqb c "/") && no_slash s'
  | EmptyString => true
  end.

(** Every row of [cars] has the URL under which the static route serves
    its file, and a file name without separator. *)
Definition rows_served (d : Database) : Prop :=
  forall c, c ∈ cars d ->
    cars.url c = "/cars/" +:+ Js.String_ (cars.user_id c) +:+ "/" +:+ cars.filename c
    /\ no_slash (cars.filename c) = true.

(** The path under which the delete handler looks for the file of a row. *)
Definition file_of `{Platform} (c : cars.row) : string :=
  path.join [dirname; "cars"; Js.String_ (cars.user_id c); cars.filename c].

(** A path in the folder of the user with id [uid]. *)
Definition in_folder_of `{Platform} (uid : Z) (q : string) : Prop :=
  exists name, q = path.join [dirname; "cars"; Js.String_ uid; name].

(** The text has no space. *)
Fixpoint no_space (s : string) : bool :=
  match s with
  | String c s' => negb (Ascii.eqb c " ") && no_space s'
  | EmptyString => true
  end.

(** Every file on the disk lies in the folder of a user, and the folder
    exists. *)
Definition files_in_folders `{Platform} (w : World) : Prop :=
  forall q, is_Some (files w !! q) ->
    exists uid name,
      q = path.join [dirname; "cars"; Js.String_ uid; name]
      /\ path.join [dirname; "cars"; Js.String_ uid] ∈ folders w.

(** ** The pages

    What the landing page (MainPage.jsx) and the dashboard do with the
    answers of the server.  A handler gets what its [fetch] resolved to,
    the response of the route, or [None] when [fetch] rejected, the server
    being out of reach; it gives the state of the page after it and what
    the user sees of it. *)

Module Page.

(** What [response.json()] resolves to: a JSON value, or a row or a list
    of rows of [cars], as mysql2 handed them to [res.json]. *)
Inductive Data :=
| value (v : JSON)
| row (r : cars.row)
| rows (rs : list cars.row).

(** What the user sees, and what the browser keeps. *)
Inductive UI :=
| alert (message : string)
| setItem (key value : string)
| removeItem (key : string)
| navigate (href : string)
| logged (label : string).

(** [response.ok] *)
Definition ok (r : Response) : bool := (200 <=? status r) && (status r <=? 299).

(** [await response.json()]: the text that [res.send] wrote is parsed, and
    what [res.json] wrote is read back; [None] where the promise rejects. *)
Definition response_json `{Platform} (r : Response) : option Data :=
  match body r with
  | text s => value <$> JSON_parse s
  | json v => Some (value v)
  | records rs => Some (rows rs)
  end.

(** [x, y, ...] joined by commas, as [Array.prototype.join] does. *)
Fixpoint joined (parts : list string) : string :=
  match parts with
  | [] => EmptyString
  | [p] => p
  | p :: rest => p +:+ "," +:+ joined rest
  end.

(** [String(v)], which is also what a template literal and [alert] make
    of a value. *)
Fixpoint String_of (v : JSON) : string :=
  match v with
  | JNull => "null"
  | JBool true => "true"
  | JBool false => "false"
  | JNum n => Js.String_ n
  | JStr s => s
  | JArr xs =>
      joined (List.map (fun x => match x with
                                 | JNull => EmptyString
                                 | _ => String_of x
                                 end) xs)
  | JObj _ => "[object Object]"
  end.

(** The same for a value that may be [undefined]. *)
Definition template (x : option JSON) : string :=
  match x with
  | Some v => String_of v
  | None => "undefined"
  end.

(** Truthiness of a value that may be [undefined]. *)
Definition truthy (x : option JSON) : bool :=
  match x with
  | None | Some JNull => false
  | Some (JBool b) => b
  | Some (JNum n) => negb (n =? 0)
  | Some (JStr s) => negb (String.eqb s EmptyString)
  | Some (JArr _) | Some (JObj _) => true
  end.

(** [data?.error] and [data.token]: a row and a list of rows have neither
    property. *)
Definition error_of (data : Data) : option JSON :=
  match data with
  | value v => get "error" v
  | _ => None
  end.

Definition token_of (data : Data) : option JSON :=
  match data with
  | value v => get "token" v
  | _ => None
  end.

(** *** The landing page *)

Record MainPage := {
  isLogin : bool;
  email : string;
  password : string;
  featuredCar : option Data
}.

(** The page as it mounts. *)
Definition mounted : MainPage :=
  {| isLogin := true; email := EmptyString; password := EmptyString; featuredCar := None |}.

Definition toggleForm (st : MainPage) : MainPage :=
  {| isLogin := negb (isLogin st); email := EmptyString; password := EmptyString;
     featuredCar := featuredCar st |}.

(** The request of [handleSubmit], and the route it goes to. *)
Definition submit_request (st : MainPage) : Request :=
  {| authorization := None; body_email := Some (email st);
     body_password := Some (password st); params_id := 0; image := None;
     user := None; file_path := None |}.

Definition endpoint `{Platform} (st : MainPage) : Env -> Request -> IO Empty_set :=
  if isLogin st then login else signup.

(** [handleSubmit], from the response on.  Reading [data.token] of [null]
    throws, as a body that is not JSON does. *)
Definition handleSubmit `{Platform} (st : MainPage) (fetched : option Response)
  : MainPage * list UI :=
  let caught := (st, [alert "Unable to reach server."; logged EmptyString]) in
  match fetched with
  | None => caught
  | Some response =>
      match response_json response with
      | None => caught
      | Some data =>
          if negb (ok response)
          then (st, [alert (if truthy (error_of data) then template (error_of data)
                            else "Something went wrong")])
          else if isLogin st
          then match data with
               | value JNull => caught
               | _ => (st, [setItem "token" (template (token_of data));
                            navigate "/dashboard"])
               end
          else (toggleForm st, [alert "Signup successful! You can now log in."])
      end
  end.

(** What [res.json()] makes of the answer of [GET /featured-car]. *)
Definition featured_data (b : Featured) : Data :=
  match b with
  | featured_row r => row r
  | featured_error msg => value (JObj [("error", JStr msg)])
  end.

(** The effect that loads the featured car: the data go into the state
    whatever the status of the response. *)
Definition load_featured (st : MainPage) (fetched : option (Z * Featured))
  : MainPage * list UI :=
  match fetched with
  | Some (_, b) =>
      ({| isLogin := isLogin st; email := email st; password := password st;
          featuredCar := Some (featured_data b) |}, [])
  | None => (st, [logged "Failed to load featured car:"])
  end.

(** The box of the featured car: the address of its image, and the
    make, the model and the year that it shows, when it shows them. *)
Record Box := {
  src : string;
  alt : option JSON;
  info : option (option JSON * option JSON * option JSON)
}.

(** [featuredCar.url], [featuredCar.filename] and [featuredCar.car_info];
    the last is the JSON text of the column, which mysql2 may also hand
    over parsed, and the page parses the text. *)
Definition url_of (data : Data) : option JSON :=
  match data with
  | value v => get "url" v
  | row r => Some (JStr (cars.url r))
  | rows _ => None
  end.

Definition filename_of (data : Data) : option JSON :=
  match data with
  | value v => get "filename" v
  | row r => Some (JStr (cars.filename r))
  | rows _ => None
  end.

Definition car_info_of (data : Data) : option JSON :=
  match data with
  | value v => get "car_info" v
  | row r => Some (JStr (cars.car_info r))
  | rows _ => None
  end.

(** [featuredCar && ...]: a value that is not truthy renders no box; a row
    and a list are objects. *)
Definition shown (data : Data) : bool :=
  match data with
  | value v => truthy (Some v)
  | _ => true
  end.

Definition featured_box `{Platform} (st : MainPage) : option Box :=
  match featuredCar st with
  | None => None
  | Some data =>
      if shown data
      then Some {| src := "http://localhost:3000" +:+ template (url_of data);
                   alt := filename_of data;
                   info :=
                     if truthy (car_info_of data)
                     then match car_info_of data with
                          | Some car_info =>
                              let parsed := featured_info car_info in
                              if truthy (Some parsed)
                              then Some (get "make" parsed, get "model" parsed,
                                         get "year" parsed)
                              else None
                          | None => None
                          end
                     else None |}
      else None
  end.

(** *** The dashboard *)

(** The state of the dashboard that the token, the gallery and the modal
    take part in. *)
Record Dashboard := {
  uploadedImages : Data;
  clickedImage : option string;
  loading : bool
}.

Definition opened : Dashboard :=
  {| uploadedImages := rows []; clickedImage := None; loading := true |}.

Definition handleLogout : list UI := [removeItem "token"; navigate "/"].

(** The effect that checks the token, [localStorage.getItem('token')]. *)
Definition check_token (token : option string) (st : Dashboard) : Dashboard * list UI :=
  if negb (Js.truthy token) then (st, [navigate "/"])
  else ({| uploadedImages := uploadedImages st; clickedImage := clickedImage st;
           loading := false |}, []).

(** The requests of the dashboard. *)
Definition images_request (token : string) : Request :=
  {| authorization := Some ("Bearer " +:+ token); body_email := None;
     body_password := None; params_id := 0; image := None; user := None;
     file_path := None |}.

Definition delete_request (token : string) (imageId : Z) : Request :=
  {| authorization := Some ("Bearer " +:+ token); body_email := None;
     body_password := None; params_id := imageId; image := None; user := None;
     file_path := None |}.

(** The effect that loads the gallery, from the response on: the data go
    into the state whatever the status of the response. *)
Definition load_images `{Platform} (st : Dashboard) (fetched : option Response)
  : Dashboard * list UI :=
  match fetched ≫= response_json with
  | Some data =>
      ({| uploadedImages := data; clickedImage := clickedImage st;
          loading := loading st |}, [])
  | None => (st, [logged "Error loading images:"])
  end.

(** [prev.filter(img => img.id !== imageId)] on an array of JSON values:
    reading the [id] of [null] throws. *)
Fixpoint others (imageId : Z) (xs : list JSON) : option (list JSON) :=
  match xs with
  | [] => Some []
  | JNull :: _ => None
  | x :: xs' =>
      match others imageId xs' with
      | Some ys =>
          Some (match get "id" x with
                | Some (JNum n) => if n =? imageId then ys else x :: ys
                | _ => x :: ys
                end)
      | None => None
      end
  end.

(** The same on the gallery; [None] where [prev.filter] throws, the
    gallery not being an array. *)
Definition without (imageId : Z) (gallery : Data) : option Data :=
  match gallery with
  | rows rs => Some (rows (List.filter (fun img => negb (cars.id img =? imageId)) rs))
  | value (JArr xs) => (fun ys => value (JArr ys)) <$> others imageId xs
  | _ => None
  end.

(** [handleDelete], from the response on, for a token that is there; the
    state is [None] when the update of the gallery throws. *)
Definition handleDelete (imageId : Z) (st : Dashboard) (fetched : option Response)
  : option Dashboard * list UI :=
  match fetched with
  | None => (Some st, [logged "Delete error:"; alert "Error deleting image"])
  | Some response =>
      if ok response
      then ((fun g => {| uploadedImages := g; clickedImage := None;
                         loading := loading st |}) <$> without imageId (uploadedImages st),
            [alert "Image deleted"])
      else (Some st, [logged "Failed to delete image:"])
  end.

End Page.

(** ** More sample data *)

Module Cases.
Import Sample.

(** A request at the same time, for which MySQL takes the first statement
    and fails the second. *)
Definition second_fails : Env :=
  {| Date_now := 1723000000123; salt := "salt";
     db_fault := fun n => Nat.eqb n 1; gemini := fun _ => None |}.

(** A request with the header [h]. *)
Definition with_header (h : string) : Request :=
  {| authorization := Some h; body_email := None; body_password := None;
     params_id := 0; image := None; user := None; file_path := None |}.

(** Another image under the name of [car_jpg]. *)
Definition repainted : Upload := {| originalname := "car.jpg"; buffer := "JPEGDATA2" |}.

(** The landing page, filled in. *)
Definition form (login_ : bool) (e p : string) : Page.MainPage :=
  {| Page.isLogin := login_; Page.email := e; Page.password := p;
     Page.featuredCar := None |}.

(** The dashboard of Alice in [world1], with her two images. *)
Definition gallery : Page.Dashboard :=
  {| Page.uploadedImages := Page.rows [car 3 "300-c.jpg" 1 300; car 1 "100-a.jpg" 1 100];
     Page.clickedImage := Some "http://localhost:3000/cars/1/100-a.jpg";
     Page.loading := false |}.

End Cases.

(** ** Properties of the string functions *)

Module JsFacts.
Import Js.

#[local] Arguments String.append : simpl nomatch.

Lemma app_nil_r (s : string) : s +:+ EmptyString = s.
Proof. induction s as [|c s IH]; simpl; [done | by rewrite IH]. Qed.

Lemma app_assoc (a b c : string) : (a +:+ b) +:+ c = a +:+ b +:+ c.
Proof. induction a as [|x a IH]; simpl; [done | by rewrite IH]. Qed.

Lemma length_app (a b : string) :
  String.length (a +:+ b) = (String.length a + String.length b)%nat.
Proof. induction a as [|x a IH]; simpl; [done | by rewrite IH]. Qed.



(** *** The bytes of white space *)

Lemma space1_starts a : space1 a = true -> continues a = false.
Proof.
  unfold space1, continues. intros H. apply andb_false_iff. left.
  apply Nat.leb_gt. apply orb_prop in H as [H|H].
  - apply andb_prop in H as [_ H]. apply Nat.leb_le in H. lia.
  - apply Nat.eqb_eq in H. lia.
Qed.

Lemma space2_bytes a b :
  space2 a b = true -> nat_of_ascii a = 194%nat /\ nat_of_ascii b = 160%nat.
Proof. unfold space2. by intros [?%Nat.eqb_eq ?%Nat.eqb_eq]%andb_prop. Qed.

Lemma space3_bytes a b c :
  space3 a b c = true ->
  (192 <= nat_of_ascii a)%nat
  /\ (128 <= nat_of_ascii b <= 191)%nat /\ (128 <= nat_of_ascii c <= 191)%nat.
Proof.
  unfold space3. cbv zeta.
  repeat first [rewrite orb_true_iff | rewrite andb_true_iff].
  rewrite !Nat.eqb_eq, !Nat.leb_le. lia.
Qed.

Lemma space2_starts a b : space2 a b = true -> continues a = false /\ continues b = true.
Proof.
  intros [Ha Hb]%space2_bytes. unfold continues. rewrite Ha, Hb. done.
Qed.

Lemma space3_starts a b c :
  space3 a b c = true ->
  continues a = false /\ continues b = true /\ continues c = true.
Proof.
  intros (Ha & Hb & Hc)%space3_bytes. unfold continues. split; [|split].
  - apply andb_false_iff. right. apply Nat.leb_gt. lia.
  - apply andb_true_iff. split; apply Nat.leb_le; lia.
  - apply andb_true_iff. split; apply Nat.leb_le; lia.
Qed.

Lemma continues_backquote : continues "`" = false.
Proof. done. Qed.





(** *** One character *)

(** What [step] takes is at the start of the text, whatever follows. *)
Lemma step_app cls s s' t :
  step cls s = Some s' -> step cls (s +:+ t) = Some (s' +:+ t).
Proof.
  destruct s as [|a [|b [|c s3]]]; cbn [step append]; try done.
  - destruct (one cls a); [by intros [= <-]|done].
  - destruct (one cls a); [by intros [= <-]|].
    destruct (two cls a b); [by intros [= <-]|done].
  - destruct (one cls a); [by intros [= <-]|].
    destruct (two cls a b); [by intros [= <-]|].
    destruct (three cls a b c); [by intros [= <-]|done].
Qed.

Lemma step_shorter cls s s' :
  step cls s = Some s' -> (String.length s' < String.length s)%nat.
Proof.
  destruct s as [|a [|b [|c s3]]]; cbn [step]; try done.
  - destruct (one cls a); [intros [= <-]; simpl; lia|done].
  - destruct (one cls a); [intros [= <-]; simpl; lia|].
    destruct (two cls a b); [intros [= <-]; simpl; lia|done].
  - destruct (one cls a); [intros [= <-]; simpl; lia|].
    destruct (two cls a b); [intros [= <-]; simpl; lia|].
    destruct (three cls a b c); [intros [= <-]; simpl; lia|done].
Qed.

(** Induction along the characters of a class. *)
Lemma step_ind cls (Q : string -> Prop) :
  (forall s, (forall s', step cls s = Some s' -> Q s') -> Q s) -> forall s, Q s.
Proof.
  intros H s. remember (String.length s) as n eqn:Hn. revert s Hn.
  induction n as [n IH] using lt_wf_ind. intros s ->.
  apply H. intros s' Hs. apply (IH (String.length s')); [|done].
  by eapply step_shorter.
Qed.



(** The first byte of white space continues no character. *)
Lemma step_starts a s s' :
  step is_space (String a s) = Some s' -> continues a = false.
Proof.
  destruct s as [|b [|c s3]]; cbn [step is_space one two three].
  - destruct (space1 a) eqn:E1; [|done]. intros _. by apply space1_starts.
  - destruct (space1 a) eqn:E1; [intros _; by apply space1_starts|].
    destruct (space2 a b) eqn:E2; [|done]. intros _. by apply (space2_starts a b).
  - destruct (space1 a) eqn:E1; [intros _; by apply space1_starts|].
    destruct (space2 a b) eqn:E2; [intros _; by apply (space2_starts a b)|].
    destruct (space3 a b c) eqn:E3; [|done]. intros _. by apply (space3_starts a b c).
Qed.

(** A text that starts with no white space starts with none when it is
    followed by a text whose first byte continues no character. *)
Lemma step_none_app x t :
  step is_space x = None -> x <> EmptyString -> starts_character t ->
  step is_space (x +:+ t) = None.
Proof.
  intros Hx Hne Ht.
  destruct x as [|a [|b [|c x3]]]; [done|..]; revert Hx;
    cbn [step is_space one two three append].
  - destruct (space1 a); [done|]. intros _.
    destruct t as [|d [|e t2]]; [done|..]; cbn [starts_character] in Ht.
    + destruct (space2 a d) eqn:E2; [|done].
      destruct (space2_starts a d E2) as [_ Hd]. congruence.
    + destruct (space2 a d) eqn:E2.
      { destruct (space2_starts a d E2) as [_ Hd]. congruence. }
      destruct (space3 a d e) eqn:E3; [|done].
      destruct (space3_starts a d e E3) as (_ & Hd & _). congruence.
  - destruct (space1 a); [done|]. destruct (space2 a b); [done|]. intros _.
    destruct t as [|d t1]; [done|]. cbn [starts_character] in Ht.
    destruct (space3 a b d) eqn:E3; [|done].
    destruct (space3_starts a b d E3) as (_ & _ & Hd). congruence.
  - destruct (space1 a); [done|]. destruct (space2 a b); [done|].
    by destruct (space3 a b c).
Qed.

(** *** Trimming *)

Lemma trimStart_unfold s :
  trimStart s = match step is_space s with
                | Some s' => trimStart s'
                | None => s
                end.
Proof.
  destruct s as [|a [|b [|c s3]]]; cbn [trimStart step is_space one two three]; try done.
  - by destruct (space1 a).
  - destruct (space1 a); [done|]. by destruct (space2 a b).
  - destruct (space1 a); [done|]. destruct (space2 a b); [done|].
    by destruct (space3 a b c).
Qed.

Lemma blank_step s s' : step is_space s = Some s' -> blank s <-> blank s'.
Proof. intros H. unfold blank. by rewrite (trimStart_unfold s), H. Qed.

Lemma trimStart_fixed s : step is_space s = None -> trimStart s = s.
Proof. intros H. by rewrite trimStart_unfold, H. Qed.

(** White space starts where a character does. *)
Lemma blank_starts t : blank t -> starts_character t.
Proof.
  destruct t as [|a t]; [done|]. intros H. cbn [starts_character].
  destruct (step is_space (String a t)) as [t'|] eqn:E.
  - by eapply step_starts.
  - unfold blank in H. by rewrite trimStart_fixed in H.
Qed.

(** What is left of a text after its white space starts with none. *)
Lemma trimStart_head s : step is_space (trimStart s) = None.
Proof.
  induction s as [s IH] using (step_ind is_space).
  rewrite trimStart_unfold. destruct (step is_space s) as [s'|] eqn:E; [by apply IH|done].
Qed.

Lemma trimStart_idem s : trimStart (trimStart s) = trimStart s.
Proof. apply trimStart_fixed, trimStart_head. Qed.

Lemma trimStart_blank_app pre s : blank pre -> trimStart (pre +:+ s) = trimStart s.
Proof.
  induction pre as [pre IH] using (step_ind is_space). intros Hb.
  destruct (step is_space pre) as [pre'|] eqn:E.
  - rewrite trimStart_unfold, (step_app _ _ _ s E). apply IH; [done|].
    by apply (blank_step pre pre').
  - unfold blank in Hb. rewrite trimStart_fixed in Hb by done. by subst pre.
Qed.

(** The white space in front of a text that is not blank is its own. *)
Lemma trimStart_app x t :
  starts_character t -> ~ blank x -> trimStart (x +:+ t) = trimStart x +:+ t.
Proof.
  intros Ht. induction x as [x IH] using (step_ind is_space). intros Hx.
  destruct (step is_space x) as [x'|] eqn:E.
  - rewrite (trimStart_unfold (x +:+ t)), (step_app _ _ _ t E).
    rewrite (trimStart_unfold x), E. apply IH; [done|].
    intros Hb. apply Hx. by apply (blank_step x x').
  - rewrite (trimStart_fixed x E). apply trimStart_fixed.
    apply step_none_app; [done| |done]. intros ->. by apply Hx.
Qed.

Lemma blank_app a b : blank a -> blank b -> blank (a +:+ b).
Proof. intros Ha Hb. unfold blank. by rewrite trimStart_blank_app. Qed.

Lemma blank_app_inv x t : blank t -> blank (x +:+ t) -> blank x.
Proof.
  intros Ht H. destruct (decide (trimStart x = EmptyString)) as [|Hx]; [done|].
  unfold blank in H. rewrite trimStart_app in H by auto using blank_starts.
  destruct (trimStart x); [done|]. done.
Qed.

Lemma blank_trimEnd s : blank s <-> trimEnd s = EmptyString.
Proof.
  destruct s as [|c s]; [done|]. unfold blank. cbn [trimEnd].
  by destruct (trimStart (String c s)).
Qed.

Lemma trimEnd_cons c s :
  ~ blank (String c s) -> trimEnd (String c s) = String c (trimEnd s).
Proof.
  intros H. unfold blank in H. cbn [trimEnd]. by destruct (trimStart (String c s)).
Qed.

(** A text is what [trimEnd] keeps of it and the white space after that. *)
Lemma trimEnd_split s : exists z, blank z /\ s = trimEnd s +:+ z.
Proof.
  induction s as [|c s (z & Hz & IH)]; [by exists EmptyString|].
  destruct (decide (trimStart (String c s) = EmptyString)) as [Hb|Hb].
  - exists (String c s). split; [done|]. by rewrite (proj1 (blank_trimEnd _) Hb).
  - exists z. split; [done|]. rewrite trimEnd_cons by done.
    cbn [append]. by rewrite <- IH.
Qed.

Lemma trimEnd_app_blank s tail : blank tail -> trimEnd (s +:+ tail) = trimEnd s.
Proof.
  intros H. induction s as [|c s IH]; cbn [append].
  - by apply blank_trimEnd.
  - destruct (decide (blank (String c s))) as [Hb|Hb].
    + rewrite (proj1 (blank_trimEnd _) Hb). apply blank_trimEnd.
      by apply (blank_app (String c s) tail).
    + rewrite (trimEnd_cons c s) by done.
      rewrite (trimEnd_cons c (s +:+ tail)); [by rewrite IH|].
      intros Hb'. apply Hb. by apply (blank_app_inv (String c s) tail).
Qed.

Lemma trimEnd_idem s : trimEnd (trimEnd s) = trimEnd s.
Proof.
  destruct (trimEnd_split s) as (z & Hz & E).
  rewrite E at 2. by rewrite trimEnd_app_blank.
Qed.

(** A trimmed text starts with no white space. *)
Lemma trim_head s : step is_space (trim s) = None.
Proof.
  unfold trim. destruct (trimEnd_split (trimStart s)) as (z & Hz & E).
  destruct (step is_space (trimEnd (trimStart s))) as [y|] eqn:Hy; [|done].
  pose proof (step_app _ _ _ z Hy) as H. rewrite <- E, trimStart_head in H. done.
Qed.

(** White space around a trimmed text is trimmed away. *)
Lemma trim_surround pre s tail :
  blank pre -> blank tail -> trim (pre +:+ trim s +:+ tail) = trim s.
Proof.
  intros Hpre Htail.
  change (trim (pre +:+ trim s +:+ tail))
    with (trimEnd (trimStart (pre +:+ trim s +:+ tail))).
  rewrite trimStart_blank_app by done.
  destruct (decide (trim s = EmptyString)) as [E|E].
  - rewrite E. cbn [append]. by rewrite Htail.
  - rewrite trimStart_app; [|by apply blank_starts|].
    + rewrite (trimStart_fixed _ (trim_head s)), trimEnd_app_blank by done.
      apply trimEnd_idem.
    + unfold blank. by rewrite (trimStart_fixed _ (trim_head s)).
Qed.

Lemma trim_idem s : trim (trim s) = trim s.
Proof.
  pose proof (trim_surround EmptyString s EmptyString eq_refl eq_refl) as H.
  cbn [append] in H. by rewrite app_nil_r in H.
Qed.




Lemma starts_backquote s : starts_character (String "`" s).
Proof. done. Qed.

(** *** The pattern of the code fence *)

Lemma star_greedy_unfold {R} cls (k : string -> option R) s :
  star_greedy cls k s =
  match step cls s with
  | Some s' =>
      match star_greedy cls k s' with
      | Some r => Some r
      | None => k s
      end
  | None => k s
  end.
Proof.
  destruct s as [|a [|b [|c s3]]]; cbn [star_greedy step]; try done.
  - by destruct (one cls a).
  - destruct (one cls a); [done|]. by destruct (two cls a b).
  - destruct (one cls a); [done|]. destruct (two cls a b); [done|].
    by destruct (three cls a b c).
Qed.

Lemma star_lazy_unfold {R} cls (k : string -> option R) s :
  star_lazy cls k s =
  match k s with
  | Some r => Some r
  | None =>
      match step cls s with
      | Some s' => star_lazy cls k s'
      | None => None
      end
  end.
Proof.
  destruct s as [|a [|b [|c s3]]]; cbn [star_lazy step]; try done.
  - destruct (k _); [done|]. by destruct (one cls a).
  - destruct (k _); [done|]. destruct (one cls a); [done|]. by destruct (two cls a b).
  - destruct (k _); [done|]. destruct (one cls a); [done|].
    destruct (two cls a b); [done|]. by destruct (three cls a b c).
Qed.

Lemma exec_greedy cls p cap s :
  exec (Star Greedy cls :: p) cap s = star_greedy cls (exec p cap) s.
Proof. done. Qed.

Lemma exec_lazy cls p cap s :
  exec (Star Lazy cls :: p) cap s = star_lazy cls (exec p cap) s.
Proof. done. Qed.

Lemma exec_open p cap s :
  exec (GroupOpen :: p) cap s = exec p {| opened := s; group1 := group1 cap |} s.
Proof. done. Qed.

Lemma exec_close p cap s :
  exec (GroupClose :: p) cap s
  = exec p {| opened := opened cap; group1 := captured (opened cap) s |} s.
Proof. done. Qed.

Lemma exec_lit l p cap s :
  exec (Lit l :: p) cap s
  = match strip_prefix l s with
    | Some s' => exec p cap s'
    | None => None
    end.
Proof. done. Qed.



Section Closing.
(** What follows the body: the closing fence and the rest of the text. *)
Variable tail : string.
Let rest : string := "```" +:+ tail.





End Closing.


Lemma exec_fence_none c s cap :
  Ascii.eqb c "`" = false -> exec fence cap (String c s) = None.
Proof.
  intros H. unfold fence. rewrite exec_lit. cbn [strip_prefix].
  by rewrite Ascii.eqb_sym, H.
Qed.


(** A text without backquotes has no fence to strip. *)
Lemma replace_plain s : no_backquote s = true -> replace_1 fence s = s.
Proof.
  induction s as [|c s IH]; [done|].
  intros [Hc Hs]%andb_prop. apply negb_true_iff in Hc.
  cbn [replace_1]. rewrite exec_fence_none by done. by rewrite IH.
Qed.

End JsFacts.

(** ** Paths *)

Module PathFacts.

#[local] Arguments String.append : simpl nomatch.

Lemma split_cons sep s : exists w ws, Js.split sep s = w :: ws.
Proof.
  induction s as [|c s (w & ws & IH)]; simpl; [by eexists _, _|].
  destruct (Ascii.eqb c sep); [by eexists _, _|]. rewrite IH. by eexists _, _.
Qed.

(** Splitting at a separator splits the two sides. *)
Lemma split_app sep a b :
  Js.split sep (a +:+ String sep b) = (Js.split sep a ++ Js.split sep b)%list.
Proof.
  induction a as [|c a IH]; simpl.
  - by rewrite Ascii.eqb_refl.
  - destruct (Ascii.eqb c sep); [by rewrite IH|].
    rewrite IH. by destruct (split_cons sep a) as (w & ws & ->).
Qed.

Lemma split_no_slash s : no_slash s = true -> Js.split "/" s = [s].
Proof.
  induction s as [|c s IH]; [done|]. simpl.
  intros [Hc Hs]%andb_prop. apply negb_true_iff in Hc. by rewrite Hc, IH.
Qed.

Lemma split_no_space s : no_space s = true -> Js.split " " s = [s].
Proof.
  induction s as [|c s IH]; [done|]. simpl.
  intros [Hc Hs]%andb_prop. apply negb_true_iff in Hc. by rewrite Hc, IH.
Qed.

(** The words of a header of two words. *)
Lemma split_two_words a b :
  no_space a = true -> no_space b = true -> Js.split " " (a +:+ " " +:+ b) = [a; b].
Proof.
  intros Ha Hb. change (a +:+ " " +:+ b) with (a +:+ String " " b).
  by rewrite split_app, !split_no_space.
Qed.

Lemma no_slash_app a b : no_slash (a +:+ b) = no_slash a && no_slash b.
Proof. induction a as [|c a IH]; simpl; [done|]. by rewrite IH, andb_assoc. Qed.

(** The base name of a path that ends in a name is the name. *)
Lemma basename_join d n :
  no_slash n = true -> n <> EmptyString -> path.basename (path.join [d; n]) = n.
Proof.
  intros Hn Hne. unfold path.basename. cbn [path.join].
  change (d +:+ "/" +:+ n) with (d +:+ String "/" n).
  rewrite split_app, List.filter_app, (split_no_slash n) by done. simpl.
  destruct (String.eqb_spec n EmptyString); [done|]. simpl. apply List.last_last.
Qed.

(** The segments of a base name: it has no separator. *)
Lemma basename_no_slash p : no_slash (path.basename p) = true.
Proof.
  unfold path.basename.
  assert (forall l, Forall (fun s => no_slash s = true) l ->
                    no_slash (List.last l EmptyString) = true) as Hlast.
  { induction l as [|x [|y l] IH]; [done|by intros [? _]%Forall_cons|].
    intros [_ H]%Forall_cons. by apply IH. }
  apply Hlast. apply Forall_forall. intros s Hs.
  apply list_elem_of_In, filter_In in Hs as [Hs _]. revert s Hs.
  induction p as [|c p IH]; simpl.
  - by intros s [<-|[]].
  - destruct (Ascii.eqb c "/") eqn:Hc.
    + intros s [<-|Hs]; [done | by apply IH].
    + destruct (split_cons "/" p) as (w & ws & E). rewrite E in *.
      intros s [<-|Hs]; simpl.
      * rewrite Hc. simpl. apply IH. by left.
      * apply IH. by right.
Qed.

Lemma pretty_N_go_no_slash x s : no_slash s = true -> no_slash (pretty_N_go x s) = true.
Proof.
  revert s. induction (N.lt_wf_0 x) as [x _ IH]; intros s Hs.
  destruct (decide (x = 0)%N) as [->|]; [by rewrite pretty_N_go_0|].
  rewrite pretty_N_go_step by lia. apply IH; [apply N.div_lt; lia|].
  simpl. rewrite Hs. unfold pretty_N_char. by repeat case_match.
Qed.

(** The decimal of an integer has no separator. *)
Lemma String_no_slash z : no_slash (Js.String_ z) = true.
Proof.
  assert (forall p : positive, no_slash (pretty p) = true) as Hp.
  { intros p. unfold pretty, pretty_positive, pretty, pretty_N.
    case_decide; [done|]. by apply pretty_N_go_no_slash. }
  unfold Js.String_, pretty, pretty_Z. destruct z; [done|apply Hp|].
  rewrite no_slash_app. by rewrite Hp.
Qed.

(** Two paths with the same start agree on their first segment. *)
Lemma first_segment a b x y :
  no_slash a = true -> no_slash b = true ->
  a +:+ "/" +:+ x = b +:+ "/" +:+ y -> a = b.
Proof.
  revert b. induction a as [|c a IH]; intros [|d b]; simpl.
  - done.
  - intros _ [Hd _]%andb_prop [= <- _]. done.
  - intros [Hc _]%andb_prop _ [= -> _]. done.
  - intros [_ Ha]%andb_prop [_ Hb]%andb_prop [= -> E]. f_equal. by eapply IH.
Qed.

(** The folders of two users have no path in common. *)
Lemma folders_apart `{Platform} a b n m :
  path.join [dirname; "cars"; Js.String_ a; n]
  = path.join [dirname; "cars"; Js.String_ b; m] -> a = b.
Proof.
  cbn [path.join]. intros E%String.app_inj.
  injection E as E.
  apply (first_segment _ _ n m) in E; auto using String_no_slash.
  by apply (inj pretty).
Qed.

(** The folder of a user is not a path in the folder of a user. *)
Lemma folder_not_file `{Platform} a b n :
  path.join [dirname; "cars"; Js.String_ a]
  <> path.join [dirname; "cars"; Js.String_ b; n].
Proof.
  cbn [path.join]. intros E%String.app_inj. injection E as E.
  assert (no_slash (Js.String_ a) = true) as Ha by apply String_no_slash.
  rewrite E, no_slash_app in Ha. apply andb_prop in Ha as [_ Ha]. done.
Qed.

Lemma join_folder d a n : path.join [path.join [d; "cars"; a]; n] = path.join [d; "cars"; a; n].
Proof. cbn [path.join]. by rewrite !JsFacts.app_assoc. Qed.

End PathFacts.

(** ** A fence that is not closed *)

Module FenceFacts.
Import Js.

#[local] Arguments String.append : simpl nomatch.

Lemma lit_fails cap s : no_backquote s = true -> exec [Lit "```"] cap s = None.
Proof.
  intros Hs. rewrite JsFacts.exec_lit. destruct s as [|c s]; [done|].
  apply andb_prop in Hs as [Hc _]. apply negb_true_iff in Hc.
  cbn [strip_prefix]. by rewrite Ascii.eqb_sym, Hc.
Qed.

(** What is left of a text without backquotes has none. *)
Lemma no_backquote_step cls s s' :
  step cls s = Some s' -> no_backquote s = true -> no_backquote s' = true.
Proof.
  destruct s as [|a [|b [|c s3]]]; cbn [step no_backquote]; try done.
  - destruct (one cls a); [|done]. by intros [= <-].
  - destruct (one cls a); [intros [= <-]; by intros [_ ?]%andb_prop|].
    destruct (two cls a b); [|done]. by intros [= <-].
  - destruct (one cls a); [intros [= <-]; by intros [_ ?]%andb_prop|].
    destruct (two cls a b).
    { intros [= <-]. by intros [_ [_ ?]%andb_prop]%andb_prop. }
    destruct (three cls a b c); [|done]. intros [= <-].
    by intros [_ [_ [_ ?]%andb_prop]%andb_prop]%andb_prop.
Qed.

Lemma star_fails {R} cls (k : string -> option R) s :
  (forall t, no_backquote t = true -> k t = None) ->
  no_backquote s = true ->
  star_greedy cls k s = None /\ star_lazy cls k s = None.
Proof.
  intros Hk. induction s as [s IH] using (JsFacts.step_ind cls). intros Hs.
  rewrite JsFacts.star_greedy_unfold, JsFacts.star_lazy_unfold, (Hk s Hs).
  destruct (step cls s) as [s'|] eqn:E; [|done].
  destruct (IH s' eq_refl) as [-> ->]; [|done]. by eapply no_backquote_step.
Qed.

Lemma greedy_fails {R} (k : string -> option R) s :
  (forall t, no_backquote t = true -> k t = None) ->
  no_backquote s = true -> star_greedy is_space k s = None.
Proof. intros Hk Hs. by apply star_fails. Qed.

Lemma lazy_fails {R} (k : string -> option R) s :
  (forall t, no_backquote t = true -> k t = None) ->
  no_backquote s = true -> star_lazy any_char k s = None.
Proof. intros Hk Hs. by apply star_fails. Qed.

(** After an opening fence, the pattern finds no match in a text without
    backquotes. *)
Lemma exec_unclosed body cap :
  no_backquote body = true -> exec fence cap ("```json" +:+ body) = None.
Proof.
  intros Hb. unfold fence. rewrite JsFacts.exec_lit.
  change (strip_prefix "```json" ("```json" +:+ body)) with (Some body).
  cbv iota. rewrite JsFacts.exec_greedy. apply greedy_fails; [|done].
  intros t Ht. rewrite JsFacts.exec_open, JsFacts.exec_lazy. apply lazy_fails; [|done].
  intros t' Ht'. rewrite JsFacts.exec_close, JsFacts.exec_greedy.
  apply greedy_fails; [|done]. intros t'' Ht''. by apply lit_fails.
Qed.

(** X1.  An opening fence that is never closed is not stripped: a text
    with the opening fence and no backquote before or after it comes out
    of the replacement as it went in. *)
Theorem fence_unclosed_unchanged pre body :
  no_backquote pre = true -> no_backquote body = true ->
  replace_1 fence (pre +:+ "```json" +:+ body) = pre +:+ "```json" +:+ body.
Proof.
  intros Hpre Hb. induction pre as [|c pre IH].
  - change (EmptyString +:+ ?x) with x.
    change ("```json" +:+ body)
      with (String "`" (String "`" (String "`" ("json" +:+ body)))).
    cbn [replace_1].
    change (String "`" (String "`" (String "`" ("json" +:+ body))))
      with ("```json" +:+ body).
    rewrite exec_unclosed by done.
    assert (forall s cap, exec fence cap (String "`" (String "`" (String "j" s))) = None)
      as H2 by (intros; unfold fence; by rewrite JsFacts.exec_lit).
    assert (forall s cap, exec fence cap (String "`" (String "j" s)) = None)
      as H1 by (intros; unfold fence; by rewrite JsFacts.exec_lit).
    change ("json" +:+ body) with (String "j" ("son" +:+ body)).
    rewrite H2, H1.
    change (String "j" ("son" +:+ body)) with ("json" +:+ body).
    by rewrite JsFacts.replace_plain.
  - apply andb_prop in Hpre as [Hc Hpre]. apply negb_true_iff in Hc.
    change (String c pre +:+ ?x) with (String c (pre +:+ x)).
    cbn [replace_1]. rewrite JsFacts.exec_fence_none by done. by rewrite IH.
Qed.

End FenceFacts.

(** ** Properties of the server *)

Section Properties.
Context {P : Platform}.
Variable env : Env.

Ltac unfold_io :=
  unfold post_upload, delete_images, get_images, upload, upload_single,
    storage_destination, delete_image, list_images, signup, login,
    db_promise_query, db_query, generate, req_user_id, console_error,
    fs.read, fs.write, fs.mkdir, fs.existsSync, fs.remove,
    Sql.insert_user, Sql.select_user, Sql.insert_car, Sql.select_car,
    Sql.delete_car, Sql.select_cars_of,
    try_catch, sendStatus, send, effect, throw, bind, ret.

Ltac io :=
  unfold_io;
  cbn [db files folders log user image file_path set_user set_file
       authorization body_email body_password params_id
       users cars users_AUTO_INCREMENT cars_AUTO_INCREMENT
       status body fst snd negb orb andb].

(** *** The middleware *)

Lemma authenticateToken_run req w :
  authenticateToken env req w =
  match verified env req with
  | Some u => (next (set_user req u), w)
  | None =>
      if Js.truthy (token_of req)
      then (sent {| status := 403; body := text "Forbidden" |}, w)
      else (sent {| status := 401; body := text "Unauthorized" |}, w)
  end.
Proof.
  unfold authenticateToken, verified, token_of.
  destruct (Js.truthy _); [|done].
  by destruct (jwt_verify _ _ _).
Qed.

Lemma authenticateToken_verified req w u :
  verified env req = Some u -> authenticateToken env req w = (next (set_user req u), w).
Proof. intros H. by rewrite authenticateToken_run, H. Qed.

(** What multer leaves behind: the folder of the user and the file. *)
Lemma upload_single_run req w u f :
  user req = Some u -> image req = Some f ->
  exists w1,
    upload_single env req w = (next (set_file req (Some (upload_path env u f))), w1)
    /\ db w1 = db w
    /\ files w1 = <[upload_path env u f := buffer f]> (files w).
Proof.
  intros Hu Hf. io. rewrite Hu, Hf. unfold upload_path.
  destruct (bool_decide _ || _); io; eauto.
Qed.

Ltac solved := eexists; repeat split; reflexivity.

(** The handler of the upload, once the image is stored. *)
Lemma upload_run req w u f :
  user req = Some u -> file_path req = Some (upload_path env u f) ->
  files w !! upload_path env u f = Some (buffer f) ->
  exists w',
    match gemini env (base64 (buffer f)) with
    | None =>
        upload env req w
        = (sent {| status := 500; body := text "Gemini image analysis failed" |}, w')
        /\ db w' = db w
    | Some raw =>
        if db_fault env 0
        then upload env req w
             = (sent {| status := 500; body := text "Gemini image analysis failed" |}, w')
             /\ db w' = db w
        else upload env req w
             = (sent {| status := 200; body := uploaded_body env u f (annotation raw) |}, w')
             /\ users (db w') = users (db w)
             /\ cars (db w')
                = (cars (db w) ++ [uploaded_row env (db w) u f (annotation raw)])%list
    end
    /\ files w' = files w.
Proof.
  intros Hu Hp Hf. io. rewrite Hu, Hp. io. rewrite Hf.
  destruct (gemini env _) as [raw|]; io; [|solved].
  unfold annotation.
  destruct (JSON_parse _); io; destruct (db_fault env 0); io; solved.
Qed.

(** The whole route, for a request with a valid token and an image. *)
Lemma post_upload_run req w u f :
  verified env req = Some u -> image req = Some f ->
  exists w',
    match gemini env (base64 (buffer f)) with
    | None =>
        post_upload env req w
        = (sent {| status := 500; body := text "Gemini image analysis failed" |}, w')
        /\ db w' = db w
    | Some raw =>
        if db_fault env 0
        then post_upload env req w
             = (sent {| status := 500; body := text "Gemini image analysis failed" |}, w')
             /\ db w' = db w
        else post_upload env req w
             = (sent {| status := 200; body := uploaded_body env u f (annotation raw) |}, w')
             /\ users (db w') = users (db w)
             /\ cars (db w')
                = (cars (db w) ++ [uploaded_row env (db w) u f (annotation raw)])%list
    end
    /\ files w' = <[upload_path env u f := buffer f]> (files w).
Proof.
  intros Hv Hi.
  destruct (upload_single_run (set_user req u) w u f eq_refl Hi) as (w1 & E1 & Hd1 & Hf1).
  destruct (upload_run (set_file (set_user req u) (Some (upload_path env u f))) w1 u f
              eq_refl eq_refl) as (w' & H & Hf').
  { rewrite Hf1. apply lookup_insert_eq. }
  assert (post_upload env req w
          = upload env (set_file (set_user req u) (Some (upload_path env u f))) w1) as ->.
  { unfold post_upload. unfold bind at 1. rewrite (authenticateToken_verified _ _ _ Hv).
    unfold bind at 1. by rewrite E1. }
  exists w'. rewrite Hf', Hf1, <- Hd1. split; [|done].
  by destruct (gemini env _); [destruct (db_fault env 0)|].
Qed.

Lemma post_upload_no_image req w u :
  verified env req = Some u -> image req = None ->
  post_upload env req w = (sent {| status := 400; body := text "No file uploaded" |}, w).
Proof.
  intros Hv Hi. unfold post_upload. unfold bind at 1.
  rewrite (authenticateToken_verified _ _ _ Hv). io. by rewrite Hi.
Qed.

Lemma rejected req w (h : Request -> IO Empty_set) :
  verified env req = None ->
  (req1 <- authenticateToken env req;; h req1) w
  = if Js.truthy (token_of req)
    then (sent {| status := 403; body := text "Forbidden" |}, w)
    else (sent {| status := 401; body := text "Unauthorized" |}, w).
Proof.
  intros Hv. unfold bind. rewrite authenticateToken_run, Hv.
  by destruct (Js.truthy _).
Qed.

Lemma admitted_to req w u (h : Request -> IO Empty_set) :
  verified env req = Some u ->
  (req1 <- authenticateToken env req;; h req1) w = h (set_user req u) w.
Proof. intros Hv. unfold bind. by rewrite authenticateToken_run, Hv. Qed.

(** *** The annotation *)


(** *** The tables *)

Lemma filter_none {A} (f : A -> bool) (l : list A) :
  (forall x, x ∈ l -> f x = false) -> List.filter f l = [].
Proof.
  induction l as [|x l IH]; [done|]. intros H. simpl.
  rewrite (H x) by left. apply IH. intros y Hy. apply H. by right.
Qed.

Lemma existsb_email e (l : list users.row) :
  existsb (fun u => String.eqb (users.email u) e) l = true
  <-> exists u, u ∈ l /\ users.email u = e.
Proof.
  rewrite existsb_exists. split; intros (u & Hu & He); exists u.
  - split; [by apply list_elem_of_In | by apply String.eqb_eq].
  - split; [by apply list_elem_of_In | by apply String.eqb_eq].
Qed.


(** Two rows with the same key are the same row. *)
Lemma same_key {A K} (key : A -> K) (l : list A) x y :
  NoDup (key <$> l) -> x ∈ l -> y ∈ l -> key x = key y -> x = y.
Proof.
  induction l as [|z l IH]; intros Hnd Hx Hy E; [by apply elem_of_nil in Hx|].
  rewrite fmap_cons in Hnd. apply NoDup_cons in Hnd as [Hz Hnd].
  apply elem_of_cons in Hx as [->|Hx], Hy as [->|Hy]; [done| | |by apply IH].
  - destruct Hz. rewrite E. by apply list_elem_of_fmap_2.
  - destruct Hz. rewrite <- E. by apply list_elem_of_fmap_2.
Qed.

(** A truthy field has a value, which is not empty. *)
Lemma truthy_value x : Js.truthy x = true -> x = Some (value_of x) /\ value_of x <> EmptyString.
Proof. by destruct x as [[|c s]|]. Qed.

(** [INSERT INTO users] keeps the emails apart. *)
Lemma insert_user_unique e h now d d' :
  Sql.insert_user e h now d = inr (tt, d') -> unique_emails d -> unique_emails d'.
Proof.
  unfold Sql.insert_user, unique_emails.
  destruct (existsb _ _) eqn:E; [done|]. intros [= <-] Hnd. simpl.
  rewrite fmap_app. apply NoDup_app. split; [done|]. split.
  - intros x Hx. simpl. intros ->%list_elem_of_singleton.
    apply list_elem_of_fmap in Hx as (u & -> & Hu).
    assert (existsb (fun x => String.eqb (users.email x) (users.email u)) (users d) = true).
    { apply existsb_email; eauto. }
    congruence.
  - apply NoDup_singleton.
Qed.

#[local] Instance newer_first_total : Total Sql.newer_first.
Proof. intros a b. unfold Sql.newer_first. lia. Qed.

#[local] Instance newer_first_trans : Transitive Sql.newer_first.
Proof. intros a b c. unfold Sql.newer_first. lia. Qed.


(** *** The invariant of the tables *)

Create HintDb keeps.

Lemma keeps_ret {A} (a : A) : keeps (ret a).
Proof. by intros w o w' [= _ <-]. Qed.

Lemma keeps_throw {A} e : keeps (throw (A := A) e).
Proof. by intros w o w' [= _ <-]. Qed.

Lemma keeps_send {A} code b : keeps (send (A := A) code b).
Proof. by intros w o w' [= _ <-]. Qed.

Lemma keeps_sendStatus {A} code : keeps (sendStatus (A := A) code).
Proof. apply keeps_send. Qed.

Lemma keeps_effect e : keeps (effect e).
Proof. by intros w o w' [= _ <-]. Qed.

Lemma keeps_bind {A B} (m : IO A) (k : A -> IO B) :
  keeps m -> (forall a, keeps (k a)) -> keeps (bind m k).
Proof.
  intros Hm Hk w o w'. unfold bind.
  destruct (m w) as [[a|r|e] w1] eqn:E; intros H Hinv.
  - eapply Hk; [exact H|]. by eapply Hm.
  - injection H as _ <-. by eapply Hm.
  - injection H as _ <-. by eapply Hm.
Qed.

Lemma keeps_try_catch {A} (m : IO A) (h : string -> IO A) :
  keeps m -> (forall e, keeps (h e)) -> keeps (try_catch m h).
Proof.
  intros Hm Hh w o w'. unfold try_catch.
  destruct (m w) as [[a|r|e] w1] eqn:E; intros H Hinv.
  - injection H as _ <-. by eapply Hm.
  - injection H as _ <-. by eapply Hm.
  - eapply Hh; [exact H|]. by eapply Hm.
Qed.

(** A step that leaves the tables alone. *)
Lemma keeps_same_db {A} (m : IO A) :
  (forall w, db (snd (m w)) = db w) -> keeps m.
Proof.
  intros Hm w o w' H Hinv. specialize (Hm w). rewrite H in Hm. simpl in Hm.
  by rewrite Hm.
Qed.

Lemma keeps_existsSync p : keeps (fs.existsSync p).
Proof. by apply keeps_same_db. Qed.

Lemma keeps_mkdir p : keeps (fs.mkdir p).
Proof. by apply keeps_same_db. Qed.

Lemma keeps_write p c : keeps (fs.write p c).
Proof. by apply keeps_same_db. Qed.

Lemma keeps_read p : keeps (fs.read p).
Proof. apply keeps_same_db. intros w. io. by destruct (files w !! p). Qed.

Lemma keeps_remove p : keeps (fs.remove p).
Proof. apply keeps_same_db. intros w. io. by destruct (files w !! p). Qed.

(** A statement keeps the invariant. *)
Definition sound {A} (stmt : Statement A) : Prop :=
  forall d a d', stmt d = inr (a, d') -> db_inv d -> db_inv d'.

Lemma keeps_db_query {A} n (stmt : Statement A) : sound stmt -> keeps (db_query env n stmt).
Proof.
  intros Hs w o w'. io. destruct (db_fault env n); [by intros [= _ <-]|].
  destruct (stmt (db w)) as [e|[a d]] eqn:E; intros [= _ <-]; [done|].
  intros Hinv. by eapply Hs.
Qed.

Lemma keeps_db_promise_query {A} n (stmt : Statement A) :
  sound stmt -> keeps (db_promise_query env n stmt).
Proof.
  intros Hs. unfold db_promise_query. apply keeps_bind; [by apply keeps_db_query|].
  intros [[]|a]; auto using @keeps_throw, @keeps_ret.
Qed.

Lemma NoDup_fmap_filter {A K} (key : A -> K) (f : A -> bool) (l : list A) :
  NoDup (key <$> l) -> NoDup (key <$> List.filter f l).
Proof.
  induction l as [|x l IH]; [done|]. rewrite fmap_cons, NoDup_cons. intros [Hx Hnd].
  simpl. destruct (f x); [|by apply IH].
  rewrite fmap_cons. apply NoDup_cons. split; [|by apply IH].
  intros (y & E & Hy)%list_elem_of_fmap. apply Hx.
  rewrite E. apply list_elem_of_fmap_2.
  apply list_elem_of_In, filter_In in Hy as [Hy _]. by apply list_elem_of_In.
Qed.

Lemma NoDup_fmap_snoc {A} (key : A -> Z) (l : list A) x :
  NoDup (key <$> l) -> (forall y, y ∈ l -> key y < key x) -> NoDup (key <$> (l ++ [x])%list).
Proof.
  intros Hnd Hlt. rewrite fmap_app. apply NoDup_app. split; [done|]. split.
  - intros k (y & E & Hy)%list_elem_of_fmap Hx. cbn in Hx.
    apply list_elem_of_singleton in Hx. specialize (Hlt y Hy). lia.
  - apply NoDup_singleton.
Qed.

Lemma sound_select_user e : sound (Sql.select_user e).
Proof. by intros d a d' [= _ <-]. Qed.

Lemma sound_select_car i o : sound (Sql.select_car i o).
Proof. by intros d a d' [= _ <-]. Qed.

Lemma sound_select_cars_of o : sound (Sql.select_cars_of o).
Proof. by intros d a d' [= _ <-]. Qed.

Lemma sound_insert_user e p now :
  e <> EmptyString -> p <> EmptyString -> sound (Sql.insert_user e (bcrypt_hash p (salt env)) now).
Proof.
  intros He Hp d [] d' H [].
  pose proof (insert_user_unique _ _ _ _ _ H inv_emails0) as Hun.
  unfold Sql.insert_user in H. destruct (existsb _ _); [done|]. injection H as <-.
  split; cbn [users cars users_AUTO_INCREMENT cars_AUTO_INCREMENT]; try done.
  - by apply (NoDup_fmap_snoc users.id).
  - intros u [Hu| ->%list_elem_of_singleton]%elem_of_app.
    + specialize (inv_user_next0 u Hu). lia.
    + simpl. lia.
  - intros u [Hu| ->%list_elem_of_singleton]%elem_of_app; [by apply inv_signed_up0|].
    split; [done|]. by exists p, (salt env).
Qed.

Lemma sound_insert_car n u o i now : sound (Sql.insert_car n u o i now).
Proof.
  intros d [] d' [= <-] [].
  split; cbn [users cars users_AUTO_INCREMENT cars_AUTO_INCREMENT]; try done.
  - by apply (NoDup_fmap_snoc cars.id).
  - intros c [Hc| ->%list_elem_of_singleton]%elem_of_app.
    + specialize (inv_car_next0 c Hc). lia.
    + simpl. lia.
Qed.

Lemma sound_delete_car i o : sound (Sql.delete_car i o).
Proof.
  intros d [] d' [= <-] [].
  split; cbn [users cars users_AUTO_INCREMENT cars_AUTO_INCREMENT]; try done.
  - by apply NoDup_fmap_filter.
  - intros c Hc. apply inv_car_next0.
    apply list_elem_of_In, filter_In in Hc as [Hc _]. by apply list_elem_of_In.
Qed.

#[local] Hint Resolve @keeps_ret @keeps_throw @keeps_send @keeps_sendStatus keeps_effect
  keeps_existsSync keeps_mkdir keeps_write keeps_read keeps_remove
  @keeps_db_query @keeps_db_promise_query
  sound_select_user sound_select_car sound_select_cars_of
  sound_insert_car sound_delete_car : keeps.

(** One step of a proof that a handler keeps the invariant: through the
    binds and the branches, down to the steps above. *)
Ltac keeps_step :=
  first
    [ solve [auto with keeps]
    | apply keeps_bind; [|intros ?]
    | apply keeps_try_catch; [|intros ?]
    | match goal with
      | |- keeps (match ?x with _ => _ end) => destruct x eqn:?
      | |- keeps (if ?b then _ else _) => destruct b eqn:?
      end ].

Lemma keeps_authenticateToken req : keeps (authenticateToken env req).
Proof. unfold authenticateToken. cbv zeta. repeat keeps_step. Qed.

Lemma keeps_upload_single req : keeps (upload_single env req).
Proof.
  unfold upload_single, storage_destination, req_user_id. cbv zeta. repeat keeps_step.
Qed.

Lemma keeps_upload req : keeps (upload env req).
Proof.
  unfold upload, generate, console_error, req_user_id. cbv zeta. repeat keeps_step.
Qed.

Lemma keeps_delete_image req : keeps (delete_image env req).
Proof.
  unfold delete_image, console_error, req_user_id. cbv zeta. repeat keeps_step.
Qed.

Lemma keeps_list_images req : keeps (list_images env req).
Proof.
  unfold list_images, console_error, req_user_id. cbv zeta. repeat keeps_step.
Qed.

Lemma keeps_login req : keeps (login env req).
Proof. unfold login. cbv zeta. repeat keeps_step. Qed.

Lemma keeps_signup req : keeps (signup env req).
Proof.
  unfold signup. cbv zeta.
  destruct (Js.truthy (body_email req)) eqn:He; [|cbn; auto with keeps].
  destruct (Js.truthy (body_password req)) eqn:Hp; [|cbn; auto with keeps].
  apply truthy_value in He as [_ He], Hp as [_ Hp]. cbn [negb orb].
  apply keeps_bind; [by apply keeps_db_query, sound_insert_user|].
  intros ?. repeat keeps_step.
Qed.

(** Every route keeps the invariant. *)
Lemma keeps_routes h req : h ∈ routes -> keeps (h env req).
Proof.
  unfold routes. intros Hh.
  repeat (apply elem_of_cons in Hh as [->|Hh]); [..|by apply elem_of_nil in Hh].
  - apply keeps_signup.
  - apply keeps_login.
  - unfold post_upload.
    repeat (apply keeps_bind; [|intros ?]);
      auto using keeps_authenticateToken, keeps_upload_single, keeps_upload.
  - unfold delete_images.
    apply keeps_bind; [|intros ?]; auto using keeps_authenticateToken, keeps_delete_image.
  - unfold get_images.
    apply keeps_bind; [|intros ?]; auto using keeps_authenticateToken, keeps_list_images.
Qed.

(** *** Authentication *)

(** The token of a header of the form that the dashboard sends, and of a
    header of one word. *)
Lemma token_of_bearer req t :
  no_space t = true -> authorization req = Some ("Bearer " +:+ t) ->
  token_of req = Some t.
Proof.
  intros Ht Hh. unfold token_of. rewrite Hh. cbn [mbind option_bind].
  change ("Bearer " +:+ t) with ("Bearer" +:+ " " +:+ t).
  by rewrite (PathFacts.split_two_words "Bearer" t).
Qed.

Lemma token_of_one_word req h :
  no_space h = true -> authorization req = Some h -> token_of req = None.
Proof.
  intros Ht Hh. unfold token_of. rewrite Hh. cbn [mbind option_bind].
  by rewrite PathFacts.split_no_space.
Qed.

(** C8.  On every endpoint behind [authenticateToken]: a request without
    the [Authorization] header, with a header of one word or with
    [Bearer] and nothing after it has no token and is answered 401; a
    request with the header [Bearer] and a token that does not verify
    (bad signature, malformed, expired) is answered 403, the two being
    told apart; and when the token of the header verifies, its payload
    is attached as [req.user] and the handler of the endpoint runs on
    that request and reads the identity from it. *)
Theorem authenticate_distinct_failures req w :
  ((authorization req = None
    \/ (exists h, no_space h = true /\ authorization req = Some h)
    \/ authorization req = Some "Bearer ") ->
   authenticateToken env req w
   = (sent {| status := 401; body := text "Unauthorized" |}, w)
   /\ forall h, h ∈ authenticated_endpoints env ->
                h req w = (sent {| status := 401; body := text "Unauthorized" |}, w))
  /\ (forall t,
        no_space t = true -> t <> EmptyString ->
        authorization req = Some ("Bearer " +:+ t) ->
        jwt_verify t JWT_SECRET (seconds env) = None ->
        authenticateToken env req w
        = (sent {| status := 403; body := text "Forbidden" |}, w)
        /\ forall h, h ∈ authenticated_endpoints env ->
                     h req w = (sent {| status := 403; body := text "Forbidden" |}, w))
  /\ (forall t u,
        no_space t = true -> t <> EmptyString ->
        authorization req = Some ("Bearer " +:+ t) ->
        jwt_verify t JWT_SECRET (seconds env) = Some u ->
        authenticateToken env req w = (next (set_user req u), w)
        /\ user (set_user req u) = Some u
        /\ req_user_id (set_user req u) w = (next (Jwt.id u), w)
        /\ post_upload env req w
           = (req2 <- upload_single env (set_user req u);; upload env req2) w
        /\ delete_images env req w = delete_image env (set_user req u) w
        /\ get_images env req w = list_images env (set_user req u) w).
Proof.
  assert (forall h, h ∈ authenticated_endpoints env ->
            exists k, h = fun r => (req1 <- authenticateToken env r;; k req1)) as Hends.
  { intros h Hh. unfold authenticated_endpoints in Hh.
    repeat (apply elem_of_cons in Hh as [->|Hh]); [..|by apply elem_of_nil in Hh];
      eexists; reflexivity. }
  split; [|split].
  - intros Hnone.
    assert (Js.truthy (token_of req) = false) as Ht.
    { destruct Hnone as [Hh|[(h & Hs & Hh)|Hh]].
      - unfold token_of. by rewrite Hh.
      - by rewrite (token_of_one_word req h).
      - by rewrite (token_of_bearer req EmptyString). }
    assert (verified env req = None) as Hv by (unfold verified; by rewrite Ht).
    split; [by rewrite authenticateToken_run, Hv, Ht|].
    intros h (k & ->)%Hends. by rewrite rejected, Ht.
  - intros t Hs Hne Hh Hj.
    assert (Js.truthy (token_of req) = true) as Ht.
    { rewrite (token_of_bearer req t) by done. by destruct t. }
    assert (verified env req = None) as Hv.
    { unfold verified. by rewrite Ht, (token_of_bearer req t). }
    split; [by rewrite authenticateToken_run, Hv, Ht|].
    intros h (k & ->)%Hends. by rewrite rejected, Ht.
  - intros t u Hs Hne Hh Hj.
    assert (verified env req = Some u) as Hv.
    { unfold verified. rewrite (token_of_bearer req t) by done. by destruct t. }
    repeat split.
    + by apply authenticateToken_verified.
    + unfold post_upload. by rewrite (admitted_to req w u).
    + unfold delete_images. by rewrite (admitted_to req w u).
    + unfold get_images. by rewrite (admitted_to req w u).
Qed.

(** C5.  An upload whose request has no valid token is answered 401 when
    the token is missing and 403 when it does not verify, and the world
    after the request is the world before it: the middleware that writes
    the file never runs, so no file is written and no effect is logged. *)
Theorem upload_unauthenticated_no_write req w :
  verified env req = None ->
  exists r,
    post_upload env req w = (sent r, w)
    /\ (if Js.truthy (token_of req)
        then r = {| status := 403; body := text "Forbidden" |}
        else r = {| status := 401; body := text "Unauthorized" |})
    /\ forall o w', post_upload env req w = (o, w') ->
                    files w' = files w /\ forall p, writeFile p ∈ log w' -> writeFile p ∈ log w.
Proof.
  intros Hv. unfold post_upload. rewrite (rejected req w _ Hv).
  destruct (Js.truthy (token_of req)); eexists; (split; [reflexivity|]);
    (split; [reflexivity|]); by intros o w' [= _ <-].
Qed.

(** *** Uploads *)

(** C1, as amended.  When the call to Gemini throws, the upload is
    answered 500 and no row is added to [cars]; the file that multer wrote
    before the handler ran stays on disk. *)
Theorem upload_ai_error_keeps_file req w u f :
  verified env req = Some u -> image req = Some f ->
  gemini env (base64 (buffer f)) = None ->
  exists w',
    post_upload env req w
    = (sent {| status := 500; body := text "Gemini image analysis failed" |}, w')
    /\ db w' = db w
    /\ files w' = <[upload_path env u f := buffer f]> (files w).
Proof.
  intros Hv Hi Hg. destruct (post_upload_run req w u f Hv Hi) as (w' & H & Hf).
  rewrite Hg in H. destruct H as [H Hd]. by exists w'.
Qed.

(** C2.  When Gemini answers and the answer is not JSON, the image is on
    disk after the request and, as soon as MySQL takes the insert, the
    upload is answered 200 and [cars] has one more row, whose [car_info] is
    the JSON text of the object [{description: answer}]; the same text is
    the [carInfo] of the response.  The failure to parse is never what the
    caller gets: an answer other than 200 is the failure of the insert. *)
Theorem upload_parse_failure_fallback req w u f raw :
  verified env req = Some u -> image req = Some f ->
  gemini env (base64 (buffer f)) = Some raw ->
  JSON_parse (Js.trim (Js.replace_1 fence raw)) = None ->
  exists r w',
    post_upload env req w = (sent r, w')
    /\ files w' = <[upload_path env u f := buffer f]> (files w)
    /\ (db_fault env 0 = false ->
        r = {| status := 200;
               body := uploaded_body env u f
                         (JSON_stringify (JObj [("description", JStr raw)])) |}
        /\ cars (db w')
           = (cars (db w) ++
              [uploaded_row env (db w) u f
                 (JSON_stringify (JObj [("description", JStr raw)]))])%list)
    /\ (status r <> 200 -> db_fault env 0 = true).
Proof.
  intros Hv Hi Hg Hp. destruct (post_upload_run req w u f Hv Hi) as (w' & H & Hf).
  rewrite Hg in H. unfold annotation in H. rewrite Hp in H.
  destruct (db_fault env 0).
  - destruct H as [H _]. eexists _, w'.
    split; [exact H|]. split; [exact Hf|]. by split.
  - destruct H as (H & _ & Hc). eexists _, w'.
    split; [exact H|]. split; [exact Hf|]. split; [done|].
    intros Hs. by destruct Hs.
Qed.


(** C10.  In every response 200 to an upload, [carInfo] is a string: the
    text [JSON.stringify] wrote, which is also the [car_info] of the row
    just added.  Reading a property off it gives [undefined]; the client
    has to parse it first, as MainPage.jsx does. *)
Theorem upload_carInfo_is_string req w r w' :
  post_upload env req w = (sent r, w') -> status r = 200 ->
  exists url s row,
    body r = json (JObj [("message", JStr "Uploaded & analyzed");
                         ("url", JStr url); ("carInfo", JStr s)])
    /\ cars (db w') = (cars (db w) ++ [row])%list
    /\ cars.car_info row = s
    /\ (exists v, s = JSON_stringify v)
    /\ is_string (JStr s) = true
    /\ (forall k, get k (JStr s) = None)
    /\ featured_info (JStr s) = default JNull (JSON_parse s).
Proof.
  intros H Hs. destruct (verified env req) as [u|] eqn:Hv.
  - destruct (image req) as [f|] eqn:Hi.
    + destruct (post_upload_run req w u f Hv Hi) as (w1 & H1 & _).
      destruct (gemini env _) as [raw|]; [destruct (db_fault env 0)|].
      * destruct H1 as [H1 _]. rewrite H1 in H. by injection H as <- _.
      * destruct H1 as (H1 & _ & Hc). rewrite H1 in H. injection H as <- <-.
        exists (upload_url env u f), (annotation raw),
               (uploaded_row env (db w) u f (annotation raw)).
        repeat split; [exact Hc|].
        unfold annotation. destruct (JSON_parse _); eauto.
      * destruct H1 as [H1 _]. rewrite H1 in H. by injection H as <- _.
    + rewrite (post_upload_no_image req w u Hv Hi) in H. by injection H as <- _.
  - unfold post_upload in H. rewrite (rejected req w _ Hv) in H.
    destruct (Js.truthy _); by injection H as <- _.
Qed.

(** *** Deleting *)

(** C4.  When the id of the request is the id of no row of [cars], or of
    a row that belongs to another user than the one of the token, the
    delete leaves the tables and the files as they are, and the answer,
    which is the same in the two cases, is 404 as soon as MySQL answers
    the select. *)
Theorem delete_not_owned_not_found req w u :
  verified env req = Some u ->
  ((forall c, c ∈ cars (db w) -> cars.id c <> params_id req) \/
   (NoDup (cars.id <$> cars (db w)) /\
    exists a, a ∈ cars (db w) /\ cars.id a = params_id req /\ cars.user_id a <> Jwt.id u)) ->
  exists o w',
    delete_images env req w = (o, w')
    /\ db w' = db w
    /\ files w' = files w
    /\ (db_fault env 0 = false ->
        o = sent {| status := 404; body := text "Image not found or not owned by user" |}).
Proof.
  intros Hv Hno. unfold delete_images. rewrite (admitted_to req w u _ Hv).
  io. rewrite filter_none.
  - destruct (db_fault env 0); io; eexists _, _; repeat split; done.
  - intros c Hc. unfold Sql.owned. apply andb_false_iff.
    destruct (Z.eqb_spec (cars.id c) (params_id req)) as [E|]; [|by left].
    right. apply Z.eqb_neq.
    destruct Hno as [Hno|(Hkey & a & Ha & Eid & Hown)]; [by destruct (Hno c Hc)|].
    by rewrite (same_key cars.id (cars (db w)) c a Hkey Hc Ha) by congruence.
Qed.

(** *** Listing *)

(** C9.  For a request with a valid token, the list of images leaves the
    tables as they are and, as soon as MySQL answers the select, is
    answered 200 with the rows of [cars] owned by the user of the token,
    each once, the newest first; a user without uploads gets the empty
    list. *)
Theorem list_images_owner_newest_first req w u :
  verified env req = Some u ->
  exists r w',
    get_images env req w = (sent r, w')
    /\ db w' = db w
    /\ (db_fault env 0 = false ->
        exists rs,
          r = {| status := 200; body := records rs |}
          /\ rs ≡ₚ List.filter (fun c => cars.user_id c =? Jwt.id u) (cars (db w))
          /\ (forall c, c ∈ rs <-> c ∈ cars (db w) /\ cars.user_id c = Jwt.id u)
          /\ StronglySorted Sql.newer_first rs
          /\ ((forall c, c ∈ cars (db w) -> cars.user_id c <> Jwt.id u) -> rs = [])).
Proof.
  intros Hv. unfold get_images. rewrite (admitted_to req w u _ Hv).
  io. destruct (db_fault env 0); io.
  { eexists _, _. by repeat split. }
  eexists _, _. split; [reflexivity|]. split; [done|]. intros _.
  eexists. split; [reflexivity|].
  split; [apply merge_sort_Permutation|].
  split; [|split].
  - intros c. rewrite merge_sort_Permutation.
    rewrite list_elem_of_In, filter_In, <- list_elem_of_In. by rewrite Z.eqb_eq.
  - apply StronglySorted_merge_sort; apply _.
  - intros Hno. rewrite filter_none; [done|].
    intros c Hc. apply Z.eqb_neq. by apply Hno.
Qed.

(** *** Accounts *)

(** C7.  A signup without an email or without a password is answered 400.
    Otherwise, as soon as MySQL answers the insert, a signup with an email
    that a row of [users] already has is answered 409 and leaves the
    tables as they are, and a signup with a new email is answered 201 and
    adds its row.  In no case do two rows end up with the same email, and
    the tables change only when the answer is 201. *)
Theorem signup_conflict req w :
  (Js.truthy (body_email req) = false \/ Js.truthy (body_password req) = false ->
   signup env req w
   = (sent {| status := 400;
              body := json (JObj [("error", JStr "Email and password required")]) |}, w))
  /\ (Js.truthy (body_email req) = true -> Js.truthy (body_password req) = true ->
      db_fault env 0 = false ->
      (exists u, u ∈ users (db w) /\ users.email u = value_of (body_email req)) ->
      exists w', signup env req w
                 = (sent {| status := 409;
                            body := json (JObj [("error", JStr "Email already exists")]) |}, w')
                 /\ db w' = db w)
  /\ (Js.truthy (body_email req) = true -> Js.truthy (body_password req) = true ->
      db_fault env 0 = false ->
      (forall u, u ∈ users (db w) -> users.email u <> value_of (body_email req)) ->
      exists w', signup env req w
                 = (sent {| status := 201;
                            body := json (JObj [("message", JStr "User created")]) |}, w')
                 /\ users (db w')
                    = (users (db w) ++
                       [{| users.id := users_AUTO_INCREMENT (db w);
                           users.email := value_of (body_email req);
                           users.password :=
                             bcrypt_hash (value_of (body_password req)) (salt env);
                           users.created_at := seconds env |}])%list)
  /\ (forall o w', signup env req w = (o, w') ->
                   unique_emails (db w) -> unique_emails (db w'))
  /\ (forall o w', signup env req w = (o, w') -> db w' <> db w ->
                   o = sent {| status := 201;
                               body := json (JObj [("message", JStr "User created")]) |}).
Proof.
  split; [|split; [|split; [|split]]].
  - intros H. io.
    by destruct H as [-> | ->]; rewrite ?orb_true_r.
  - intros He Hp Hd Hex. io. rewrite He, Hp, Hd. io.
    apply existsb_email in Hex. rewrite Hex. solved.
  - intros He Hp Hd Hno. io. rewrite He, Hp, Hd. io.
    destruct (existsb _ _) eqn:E; [|solved].
    apply existsb_email in E as (u & Hu & E). by destruct (Hno u Hu).
  - intros o w' H Hun. revert H. io.
    destruct (negb (Js.truthy (body_email req)) || negb (Js.truthy (body_password req))).
    { by intros [= _ <-]. }
    destruct (db_fault env 0); io; [by intros [= _ <-]|].
    destruct (existsb _ _) eqn:E; io; intros [= _ <-]; [done|].
    eapply (insert_user_unique (value_of (body_email req)) _ (seconds env) (db w)); [|done].
    unfold Sql.insert_user. by rewrite E.
  - intros o w'. io.
    destruct (negb (Js.truthy (body_email req)) || negb (Js.truthy (body_password req))).
    { by intros [= _ <-]. }
    destruct (db_fault env 0); io; [by intros [= _ <-]|].
    by destruct (existsb _ _); io; intros [= <- <-].
Qed.



End Properties.

(** X2.  The invariant of the tables holds in every world the server
    reaches, whatever the requests and their order: no two rows of [users]
    have the same email, the ids of [users] and of [cars] are unique and
    below their counters, and every row of [users] has an email and the
    hash of a password that are not empty. *)
Lemma reachable_inv `{Platform} w : reachable w -> db_inv (db w).
Proof.
  induction 1 as [|w h env req o w' _ IH Hh Hrun].
  - split; simpl; try done; try apply NoDup_nil_2; by intros ? ?%elem_of_nil.
  - by eapply (keeps_routes env h req Hh).
Qed.


(** ** More properties of the server *)

Section Coverage.
Context {P : Platform}.
Variable env : Env.

#[local] Existing Instance Sql.newer_first_dec.

Ltac run :=
  unfold post_upload, delete_images, get_images, upload, upload_single,
    storage_destination, delete_image, list_images, signup, login, featured_car,
    db_promise_query, db_query, generate, req_user_id, console_error,
    fs.read, fs.write, fs.mkdir, fs.existsSync, fs.remove,
    Sql.insert_user, Sql.select_user, Sql.insert_car, Sql.select_car,
    Sql.delete_car, Sql.select_cars_of, select_random,
    try_catch, sendStatus, send, effect, throw, bind, ret;
  cbn [db files folders log user image file_path set_user set_file
       authorization body_email body_password params_id
       users cars users_AUTO_INCREMENT cars_AUTO_INCREMENT
       status body fst snd negb orb andb].

Ltac listed := cbn [status]; repeat first [apply list_elem_of_here | apply list_elem_of_further].

(** *** The tables *)

(** Under the primary key, the rows with the id and the owner of a row are
    that row alone. *)
Lemma select_car_unique (l : list cars.row) c :
  NoDup (cars.id <$> l) -> c ∈ l ->
  List.filter (Sql.owned (cars.id c) (cars.user_id c)) l = [c].
Proof.
  induction l as [|x l IH]; intros Hnd Hc; [by apply elem_of_nil in Hc|].
  rewrite fmap_cons in Hnd. apply NoDup_cons in Hnd as [Hx Hnd].
  assert (forall y, y ∈ l -> cars.id y = cars.id x -> False) as Hfresh.
  { intros y Hy E. apply Hx. rewrite <- E. by apply list_elem_of_fmap_2. }
  simpl. apply elem_of_cons in Hc as [->|Hc].
  - unfold Sql.owned at 1. rewrite !Z.eqb_refl. simpl. f_equal.
    apply filter_none. intros y Hy. unfold Sql.owned.
    destruct (Z.eqb_spec (cars.id y) (cars.id x)); [by destruct (Hfresh y Hy)|done].
  - unfold Sql.owned at 1.
    destruct (Z.eqb_spec (cars.id x) (cars.id c)) as [E|_]; [|by apply IH].
    by destruct (Hfresh c Hc).
Qed.

(** What is left of the table when the rows of an id and an owner go. *)
Lemma delete_car_others (l : list cars.row) c x :
  NoDup (cars.id <$> l) -> c ∈ l ->
  x ∈ List.filter (fun y => negb (Sql.owned (cars.id c) (cars.user_id c) y)) l
  <-> x ∈ l /\ x <> c.
Proof.
  intros Hnd Hc. rewrite list_elem_of_In, filter_In, <- list_elem_of_In.
  split; intros [Hx H]; (split; [done|]).
  - intros ->. unfold Sql.owned in H. by rewrite !Z.eqb_refl in H.
  - apply negb_true_iff, andb_false_iff.
    destruct (Z.eqb_spec (cars.id x) (cars.id c)) as [E|]; [|by left].
    destruct H. by apply (same_key cars.id l).
Qed.

(** *** What each route does, in every case *)

Lemma rejected_effect req w (h : Request -> IO Empty_set) :
  verified env req = None ->
  exists r,
    (req1 <- authenticateToken env req;; h req1) w = (sent r, w)
    /\ (status r = 401 \/ status r = 403).
Proof.
  intros Hv. rewrite (rejected env req w h Hv).
  destruct (Js.truthy _); eexists; split; try reflexivity; auto.
Qed.

Lemma signup_effect req w :
  exists r w',
    signup env req w = (sent r, w')
    /\ status r ∈ [201; 400; 409; 500]
    /\ files w' = files w /\ folders w' = folders w /\ cars (db w') = cars (db w)
    /\ (status r <> 201 -> db w' = db w)
    /\ (status r = 201 ->
        Js.truthy (body_email req) = true /\ Js.truthy (body_password req) = true
        /\ (forall u, u ∈ users (db w) -> users.email u <> value_of (body_email req))
        /\ users (db w')
           = (users (db w) ++
              [{| users.id := users_AUTO_INCREMENT (db w);
                  users.email := value_of (body_email req);
                  users.password := bcrypt_hash (value_of (body_password req)) (salt env);
                  users.created_at := seconds env |}])%list).
Proof.
  run. destruct (Js.truthy (body_email req)); run.
  2: { eexists _, _. split; [reflexivity|]. split; [listed|]. by repeat split. }
  destruct (Js.truthy (body_password req)); run.
  2: { eexists _, _. split; [reflexivity|]. split; [listed|]. by repeat split. }
  destruct (db_fault env 0); run.
  { eexists _, _. split; [reflexivity|]. split; [listed|]. by repeat split. }
  destruct (existsb _ _) eqn:E; run.
  { eexists _, _. split; [reflexivity|]. split; [listed|]. by repeat split. }
  eexists _, _. split; [reflexivity|]. split; [listed|]. repeat split; try done.
  intros u Hu He. apply not_true_iff_false in E. apply E.
  apply existsb_exists. exists u. split; [by apply list_elem_of_In|].
  by apply String.eqb_eq.
Qed.

Lemma login_effect req w :
  exists r w',
    login env req w = (sent r, w')
    /\ status r ∈ [200; 400; 500]
    /\ db w' = db w /\ files w' = files w /\ folders w' = folders w.
Proof.
  run. destruct (negb (Js.truthy (body_email req)) || negb (Js.truthy (body_password req))); run.
  { eexists _, _. split; [reflexivity|]. split; [listed|]. by repeat split. }
  destruct (db_fault env 0); run.
  { eexists _, _. split; [reflexivity|]. split; [listed|]. by repeat split. }
  destruct (List.filter _ _) as [|u l]; run.
  { eexists _, _. split; [reflexivity|]. split; [listed|]. by repeat split. }
  destruct (bcrypt_compare _ _); run;
    (eexists _, _; split; [reflexivity|]; split; [listed|]; by repeat split).
Qed.

Lemma list_images_effect req w u :
  verified env req = Some u ->
  exists r w',
    get_images env req w = (sent r, w')
    /\ status r ∈ [200; 500]
    /\ db w' = db w /\ files w' = files w /\ folders w' = folders w
    /\ (db_fault env 0 = false ->
        r = {| status := 200;
               body := records (merge_sort Sql.newer_first
                                  (List.filter (fun c => cars.user_id c =? Jwt.id u)
                                     (cars (db w)))) |}).
Proof.
  intros Hv. unfold get_images. rewrite (admitted_to env req w u _ Hv).
  run. destruct (db_fault env 0); run;
    (eexists _, _; split; [reflexivity|]; split; [listed|]; by repeat split).
Qed.

Lemma get_images_effect req w :
  exists r w',
    get_images env req w = (sent r, w')
    /\ status r ∈ [200; 401; 403; 500]
    /\ db w' = db w /\ files w' = files w /\ folders w' = folders w.
Proof.
  destruct (verified env req) as [u|] eqn:Hv.
  - destruct (list_images_effect req w u Hv) as (r & w' & E & Hs & H).
    exists r, w'. split; [done|]. split; [|tauto].
    cbn in Hs. rewrite !elem_of_cons in Hs. destruct Hs as [->|[->|Hs]]; [listed..|].
    by apply elem_of_nil in Hs.
  - destruct (rejected_effect req w (list_images env) Hv) as (r & E & [Hs|Hs]).
    all: exists r, w; (split; [done|]); rewrite Hs; split; [listed|done].
Qed.

(** The delete, for a token that verifies. *)
Lemma delete_image_run req w u :
  verified env req = Some u ->
  exists w',
    (if db_fault env 0
       then delete_images env req w
            = (sent {| status := 500; body := text "Server error while deleting image" |}, w')
            /\ db w' = db w /\ files w' = files w
       else
         match List.filter (Sql.owned (params_id req) (Jwt.id u)) (cars (db w)) with
         | [] =>
             delete_images env req w
             = (sent {| status := 404; body := text "Image not found or not owned by user" |}, w')
             /\ db w' = db w /\ files w' = files w
         | c :: _ =>
             files w'
             = delete (path.join [dirname; "cars"; Js.String_ (Jwt.id u); cars.filename c])
                 (files w)
             /\ if db_fault env 1
                then delete_images env req w
                     = (sent {| status := 500;
                                body := text "Server error while deleting image" |}, w')
                     /\ db w' = db w
                else delete_images env req w
                     = (sent {| status := 200; body := text "Image deleted successfully" |}, w')
                     /\ users (db w') = users (db w)
                     /\ users_AUTO_INCREMENT (db w') = users_AUTO_INCREMENT (db w)
                     /\ cars_AUTO_INCREMENT (db w') = cars_AUTO_INCREMENT (db w)
                     /\ cars (db w')
                        = List.filter
                            (fun y => negb (Sql.owned (params_id req) (Jwt.id u) y))
                            (cars (db w))
         end)
    /\ folders w' = folders w.
Proof.
  intros Hv. unfold delete_images. rewrite (admitted_to env req w u _ Hv).
  run. destruct (db_fault env 0); run.
  { eexists. by repeat split. }
  destruct (List.filter _ _) as [|c rest]; run.
  { eexists. by repeat split. }
  destruct (files w !! path.join [dirname; "cars"; Js.String_ (Jwt.id u); cars.filename c])
    eqn:Hf; run; destruct (db_fault env 1); run;
    (eexists; repeat split; try reflexivity).
  all: cbn [files]; by rewrite delete_id.
Qed.

(** The upload, in every case. *)
Lemma post_upload_effect req w :
  exists r w',
    post_upload env req w = (sent r, w')
    /\ status r ∈ [200; 400; 401; 403; 500]
    /\ users (db w') = users (db w)
    /\ match verified env req, image req with
       | Some u, Some f =>
           files w' = <[upload_path env u f := buffer f]> (files w)
           /\ (folders w' = folders w
               \/ folders w' = {[path.join [dirname; "cars"; Js.String_ (Jwt.id u)]]} ∪ folders w)
           /\ (path.join [dirname; "cars"; Js.String_ (Jwt.id u)] ∈ folders w'
               \/ is_Some (files w !! path.join [dirname; "cars"; Js.String_ (Jwt.id u)]))
           /\ (db w' = db w
               \/ exists info,
                    db w'
                    = {| users := users (db w);
                         cars := cars (db w) ++ [uploaded_row env (db w) u f info];
                         users_AUTO_INCREMENT := users_AUTO_INCREMENT (db w);
                         cars_AUTO_INCREMENT := cars_AUTO_INCREMENT (db w) + 1 |})
       | _, _ => w' = w
       end.
Proof.
  destruct (verified env req) as [u|] eqn:Hv.
  2: { destruct (rejected_effect req w
                   (fun req1 => req2 <- upload_single env req1;; upload env req2) Hv)
         as (r & E & [Hs|Hs]).
       all: exists r, w; (split; [done|]); rewrite Hs; split; [listed|done]. }
  destruct (image req) as [f|] eqn:Hi.
  2: { rewrite (post_upload_no_image env req w u Hv Hi).
       eexists _, _. split; [reflexivity|]. split; [listed|done]. }
  unfold post_upload. rewrite (admitted_to env req w u _ Hv).
  run. rewrite Hi. run. unfold upload_path. cbn [path.join].
  set (folder := dirname +:+ "/" +:+ "cars" +:+ "/" +:+ Js.String_ (Jwt.id u)).
  set (p := folder +:+ "/" +:+ storage_filename env f).
  destruct (bool_decide (folder ∈ folders w)) eqn:Hin; run.
  - apply bool_decide_eq_true in Hin. rewrite lookup_insert_eq.
    destruct (gemini env _) as [raw|]; run.
    2: { eexists _, _. split; [reflexivity|]. split; [listed|]. repeat split; auto. }
    destruct (JSON_parse _); run; destruct (db_fault env 0); run;
      (eexists _, _; split; [reflexivity|]; split; [listed|]; repeat split; auto;
       right; eexists; reflexivity).
  - destruct (bool_decide (is_Some (files w !! folder))) eqn:Hfile; run.
    + apply bool_decide_eq_true in Hfile. rewrite lookup_insert_eq.
      destruct (gemini env _) as [raw|]; run.
      2: { eexists _, _. split; [reflexivity|]. split; [listed|]. repeat split; auto. }
      destruct (JSON_parse _); run; destruct (db_fault env 0); run;
        (eexists _, _; split; [reflexivity|]; split; [listed|]; repeat split; auto;
         right; eexists; reflexivity).
    + rewrite lookup_insert_eq.
      assert (folder ∈ ({[folder]} ∪ folders w : gset string)) as Hnew by set_solver.
      destruct (gemini env _) as [raw|]; run.
      2: { eexists _, _. split; [reflexivity|]. split; [listed|]. repeat split; auto. }
      destruct (JSON_parse _); run; destruct (db_fault env 0); run;
        (eexists _, _; split; [reflexivity|]; split; [listed|]; repeat split; auto;
         right; eexists; reflexivity).
Qed.

(** The delete, in every case. *)
Lemma delete_images_effect req w :
  exists r w',
    delete_images env req w = (sent r, w')
    /\ status r ∈ [200; 401; 403; 404; 500]
    /\ users (db w') = users (db w)
    /\ folders w' = folders w
    /\ match verified env req with
       | None => w' = w
       | Some u =>
           (db w' = db w
            \/ cars (db w')
               = List.filter (fun y => negb (Sql.owned (params_id req) (Jwt.id u) y))
                   (cars (db w)))
           /\ (files w' = files w
               \/ exists c, c ∈ cars (db w) /\ cars.user_id c = Jwt.id u
                            /\ files w' = delete (file_of c) (files w))
       end.
Proof.
  destruct (verified env req) as [u|] eqn:Hv.
  2: { destruct (rejected_effect req w (delete_image env) Hv) as (r & E & [Hs|Hs]).
       all: exists r, w; (split; [done|]); rewrite Hs; split; [listed|done]. }
  destruct (delete_image_run req w u Hv) as (w' & H & Hfo).
  destruct (db_fault env 0).
  { destruct H as (E & Hd & Hf). eexists _, w'. split; [done|]. split; [listed|].
    rewrite Hd. auto. }
  destruct (List.filter _ _) as [|c rest] eqn:Hsel.
  { destruct H as (E & Hd & Hf). eexists _, w'. split; [done|]. split; [listed|].
    rewrite Hd. auto. }
  assert (c ∈ cars (db w) /\ cars.user_id c = Jwt.id u) as [Hc Hown].
  { assert (In c (List.filter (Sql.owned (params_id req) (Jwt.id u)) (cars (db w)))) as Hin
      by (rewrite Hsel; by left).
    apply filter_In in Hin as [Hin Ho]. split; [by apply list_elem_of_In|].
    unfold Sql.owned in Ho. apply andb_prop in Ho as [_ Ho]. by apply Z.eqb_eq. }
  destruct H as [Hf H].
  assert (files w' = files w \/
          exists c, c ∈ cars (db w) /\ cars.user_id c = Jwt.id u
                    /\ files w' = delete (file_of c) (files w)) as Hfiles.
  { right. exists c. unfold file_of. by rewrite Hown. }
  destruct (db_fault env 1).
  - destruct H as (E & Hd). eexists _, w'. split; [done|]. split; [listed|].
    rewrite Hd. auto.
  - destruct H as (E & Hu & _ & _ & Hcars). eexists _, w'. split; [done|]. split; [listed|].
    auto.
Qed.

(** *** Deleting an image of one's own *)

(** X3.  For a request with a valid token whose id is the id of a row that
    the user of the token owns, the delete, when MySQL takes its two
    statements, is answered 200, removes that row and no other, leaves
    [users] as it is and removes the file of the row from the folder of
    the user, whether the file was there or not. *)
Theorem delete_own_image req w u c :
  verified env req = Some u -> db_inv (db w) ->
  c ∈ cars (db w) -> cars.id c = params_id req -> cars.user_id c = Jwt.id u ->
  db_fault env 0 = false -> db_fault env 1 = false ->
  exists w',
    delete_images env req w
    = (sent {| status := 200; body := text "Image deleted successfully" |}, w')
    /\ (forall x, x ∈ cars (db w') <-> x ∈ cars (db w) /\ x <> c)
    /\ users (db w') = users (db w)
    /\ files w' = delete (file_of c) (files w)
    /\ folders w' = folders w.
Proof.
  intros Hv Hinv Hc Hid Hown H0 H1.
  destruct (delete_image_run req w u Hv) as (w' & H & Hfo).
  rewrite H0, <- Hid, <- Hown in H.
  rewrite (select_car_unique _ c (inv_car_ids _ Hinv) Hc), H1 in H.
  destruct H as (Hf & E & Hu & _ & _ & Hcars).
  exists w'. split; [done|]. split; [|by repeat split].
  intros x. rewrite Hcars. by apply delete_car_others; [apply Hinv|].
Qed.

(** X4.  The file goes before the row: when MySQL takes the select of the
    delete and fails its [DELETE], the answer is 500 and the row is still
    in [cars], while its file is no longer on the disk. *)
Theorem delete_failure_keeps_row_without_file req w u c :
  verified env req = Some u -> db_inv (db w) ->
  c ∈ cars (db w) -> cars.id c = params_id req -> cars.user_id c = Jwt.id u ->
  db_fault env 0 = false -> db_fault env 1 = true ->
  exists w',
    delete_images env req w
    = (sent {| status := 500; body := text "Server error while deleting image" |}, w')
    /\ db w' = db w
    /\ c ∈ cars (db w')
    /\ files w' !! file_of c = None.
Proof.
  intros Hv Hinv Hc Hid Hown H0 H1.
  destruct (delete_image_run req w u Hv) as (w' & H & Hfo).
  rewrite H0, <- Hid, <- Hown in H.
  rewrite (select_car_unique _ c (inv_car_ids _ Hinv) Hc), H1 in H.
  destruct H as (Hf & E & Hd).
  exists w'. split; [done|]. split; [done|].
  split; [by rewrite Hd|]. rewrite Hf. apply lookup_delete_eq.
Qed.

(** *** Uploading *)

(** X5.  An upload with a valid token and a body without a file part is
    answered 400 and leaves the world as it is: no folder is made and no
    statement is sent. *)
Theorem upload_without_file req w u :
  verified env req = Some u -> image req = None ->
  post_upload env req w = (sent {| status := 400; body := text "No file uploaded" |}, w)
  /\ upload env (set_file (set_user req u) None) w
     = (sent {| status := 400; body := text "No file uploaded" |}, w).
Proof.
  intros Hv Hi. split; [by apply (post_upload_no_image env req w u)|]. by run.
Qed.


(** *** Logging in *)

(** X7.  A login is answered 200 only when a row of [users] has the email
    of the request and a hash that the password of the request compares
    equal to; the token then signs the id of such a row, for one hour. *)
Theorem login_token_only_for_credentials req w r w' :
  login env req w = (sent r, w') -> status r = 200 ->
  exists u e p,
    u ∈ users (db w)
    /\ body_email req = Some e /\ body_password req = Some p
    /\ users.email u = e
    /\ bcrypt_compare p (users.password u) = true
    /\ body r
       = json (JObj [("token",
                      JStr (jwt_sign {| Jwt.id := users.id u; Jwt.username := None;
                                        Jwt.iat := seconds env;
                                        Jwt.exp := seconds env + 3600 |} JWT_SECRET))]).
Proof.
  run. destruct (body_email req) as [[|a e]|]; run; try by intros [= <- _].
  destruct (body_password req) as [[|b p]|]; run; try by intros [= <- _].
  cbn [Js.truthy negb orb value_of].
  destruct (db_fault env 0); run; [by intros [= <- _]|].
  destruct (List.filter _ _) as [|u l] eqn:Hsel; run; [by intros [= <- _]|].
  destruct (bcrypt_compare _ _) eqn:Hc; run; [|by intros [= <- _]].
  intros [= <- _] _. cbn [body].
  assert (In u (List.filter (fun u => String.eqb (users.email u) (String a e))
                  (users (db w)))) as Hin by (rewrite Hsel; by left).
  apply filter_In in Hin as [Hin He]. apply String.eqb_eq in He.
  exists u, (String a e), (String b p).
  repeat split; try done. by apply list_elem_of_In.
Qed.

(** X8.  With an email and a password in the request and MySQL answering,
    a login for which no row has both the email and a hash that the
    password compares equal to is answered 400 with the same words,
    whether the email is unknown or the password wrong, and changes
    nothing. *)
Theorem login_failures_alike req w e p :
  body_email req = Some e -> body_password req = Some p ->
  e <> EmptyString -> p <> EmptyString ->
  db_fault env 0 = false ->
  (forall u, u ∈ users (db w) -> users.email u = e ->
             bcrypt_compare p (users.password u) = false) ->
  exists w',
    login env req w = (sent {| status := 400; body := text "Invalid credentials" |}, w')
    /\ db w' = db w /\ files w' = files w.
Proof.
  intros He Hp Hne Hnp Hd Hno. run. rewrite He, Hp.
  destruct e as [|a e]; [done|]. destruct p as [|b p]; [done|].
  cbn [Js.truthy negb orb value_of]. rewrite Hd. run.
  destruct (List.filter _ _) as [|u l] eqn:Hsel; run.
  { eexists. by repeat split. }
  assert (In u (List.filter (fun u => String.eqb (users.email u) (String a e))
                  (users (db w)))) as Hin by (rewrite Hsel; by left).
  apply filter_In in Hin as [Hin Heq]. apply String.eqb_eq in Heq.
  rewrite (Hno u) by (by try apply list_elem_of_In). run.
  eexists. by repeat split.
Qed.

(** *** What the routes never do *)

(** X9.  Every route answers every request of the pages, that is every
    request whose [email] and [password] are strings or left out and
    whose body has at most the file part [image], with one of its own
    status codes: on these requests no handler throws past its [catch]
    and none goes on without a response. *)
Theorem routes_always_answer req w :
  (exists r w', signup env req w = (sent r, w') /\ status r ∈ [201; 400; 409; 500])
  /\ (exists r w', login env req w = (sent r, w') /\ status r ∈ [200; 400; 500])
  /\ (exists r w', post_upload env req w = (sent r, w')
                   /\ status r ∈ [200; 400; 401; 403; 500])
  /\ (exists r w', delete_images env req w = (sent r, w')
                   /\ status r ∈ [200; 401; 403; 404; 500])
  /\ (exists r w', get_images env req w = (sent r, w') /\ status r ∈ [200; 401; 403; 500]).
Proof.
  repeat split.
  - destruct (signup_effect req w) as (r & w' & E & Hs & _). by exists r, w'.
  - destruct (login_effect req w) as (r & w' & E & Hs & _). by exists r, w'.
  - destruct (post_upload_effect req w) as (r & w' & E & Hs & _). by exists r, w'.
  - destruct (delete_images_effect req w) as (r & w' & E & Hs & _). by exists r, w'.
  - destruct (get_images_effect req w) as (r & w' & E & Hs & _). by exists r, w'.
Qed.

(** X10.  The login, the list of images and the featured car only read:
    whatever the request and the answer, the tables, the files and the
    folders are after the request what they were before. *)
Theorem read_only_routes req draw w :
  (db (snd (login env req w)) = db w
   /\ files (snd (login env req w)) = files w
   /\ folders (snd (login env req w)) = folders w)
  /\ (db (snd (get_images env req w)) = db w
      /\ files (snd (get_images env req w)) = files w
      /\ folders (snd (get_images env req w)) = folders w)
  /\ (db (snd (featured_car env draw w)) = db w
      /\ files (snd (featured_car env draw w)) = files w
      /\ folders (snd (featured_car env draw w)) = folders w).
Proof.
  split; [|split].
  - destruct (login_effect req w) as (r & w' & E & _ & H). by rewrite E.
  - destruct (get_images_effect req w) as (r & w' & E & _ & H). by rewrite E.
  - run. destruct (db_fault env 0); run; [done|]. by destruct (cars (db w) !! _).
Qed.

(** X11.  No route removes or changes a row of [users]: after any request
    the table is what it was, with at most one row added at its end. *)
Theorem users_never_removed h req w :
  h ∈ routes ->
  exists l,
    users (db (snd (h env req w))) = (users (db w) ++ l)%list /\ (List.length l <= 1)%nat.
Proof.
  intros Hh. unfold routes in Hh.
  assert (forall w' : World, users (db w') = users (db w) ->
            exists l, users (db w') = (users (db w) ++ l)%list /\ (List.length l <= 1)%nat)
    as Hsame.
  { intros w' ->. exists []. split; [by rewrite app_nil_r | simpl; lia]. }
  repeat (apply elem_of_cons in Hh as [->|Hh]); [..|by apply elem_of_nil in Hh].
  - destruct (signup_effect req w) as (r & w' & E & _ & _ & _ & _ & Hno & Hyes).
    rewrite E. cbn [snd].
    destruct (decide (status r = 201)) as [Hs|Hs].
    + destruct (Hyes Hs) as (_ & _ & _ & ->). eexists. split; [reflexivity|]. simpl. lia.
    + apply Hsame. by rewrite (Hno Hs).
  - destruct (login_effect req w) as (r & w' & E & _ & Hd & _).
    rewrite E. apply Hsame. cbn [snd]. by rewrite Hd.
  - destruct (post_upload_effect req w) as (r & w' & E & _ & Hu & _).
    rewrite E. by apply Hsame.
  - destruct (delete_images_effect req w) as (r & w' & E & _ & Hu & _).
    rewrite E. by apply Hsame.
  - destruct (get_images_effect req w) as (r & w' & E & _ & Hd & _).
    rewrite E. apply Hsame. cbn [snd]. by rewrite Hd.
Qed.

(** X12.  A row of [cars] stays in the table, as it is, through every
    request that does not carry a valid token of its owner. *)
Theorem others_rows_kept h req w c :
  h ∈ routes -> c ∈ cars (db w) ->
  (forall u, verified env req = Some u -> Jwt.id u <> cars.user_id c) ->
  c ∈ cars (db (snd (h env req w))).
Proof.
  intros Hh Hc Hother. unfold routes in Hh.
  repeat (apply elem_of_cons in Hh as [->|Hh]); [..|by apply elem_of_nil in Hh].
  - destruct (signup_effect req w) as (r & w' & E & _ & _ & _ & Hcars & _).
    rewrite E. cbn [snd]. by rewrite Hcars.
  - destruct (login_effect req w) as (r & w' & E & _ & Hd & _).
    rewrite E. cbn [snd]. by rewrite Hd.
  - destruct (post_upload_effect req w) as (r & w' & E & _ & _ & H). rewrite E. cbn [snd].
    destruct (verified env req) as [u|]; [|by subst].
    destruct (image req) as [f|]; [|by subst].
    destruct H as (_ & _ & _ & [Hd|(info & Hd)]); rewrite Hd; [done|].
    cbn [cars]. apply elem_of_app. by left.
  - destruct (delete_images_effect req w) as (r & w' & E & _ & _ & _ & H).
    rewrite E. cbn [snd].
    destruct (verified env req) as [u|] eqn:Hv; [|by subst].
    destruct H as [[Hd|Hcars] _]; [by rewrite Hd|].
    rewrite Hcars. apply list_elem_of_In, filter_In. split; [by apply list_elem_of_In|].
    apply negb_true_iff, andb_false_iff. right. apply Z.eqb_neq.
    intros Heq. by apply (Hother u).
  - destruct (get_images_effect req w) as (r & w' & E & _ & Hd & _).
    rewrite E. cbn [snd]. by rewrite Hd.
Qed.

(** X13.  The folders of the users are apart: with file names without
    separator in the rows and in the upload, as the upload writes them, a
    request leaves every path in the folder of a user as it is unless it
    carries a valid token of that user. *)
Theorem other_folders_untouched h req w v q :
  h ∈ routes -> rows_served (db w) ->
  (forall f, image req = Some f -> no_slash (originalname f) = true) ->
  (forall u, verified env req = Some u -> Jwt.id u <> v) ->
  in_folder_of v q ->
  files (snd (h env req w)) !! q = files w !! q.
Proof.
  intros Hh _ _ Hother [name ->]. unfold routes in Hh.
  repeat (apply elem_of_cons in Hh as [->|Hh]); [..|by apply elem_of_nil in Hh].
  - destruct (signup_effect req w) as (r & w' & E & _ & Hf & _).
    rewrite E. cbn [snd]. by rewrite Hf.
  - destruct (login_effect req w) as (r & w' & E & _ & _ & Hf & _).
    rewrite E. cbn [snd]. by rewrite Hf.
  - destruct (post_upload_effect req w) as (r & w' & E & _ & _ & H). rewrite E. cbn [snd].
    destruct (verified env req) as [u|] eqn:Hv; [|by subst].
    destruct (image req) as [f|]; [|by subst].
    destruct H as (Hf & _). rewrite Hf. apply lookup_insert_ne.
    unfold upload_path. rewrite PathFacts.join_folder.
    intros Heq%PathFacts.folders_apart. by apply (Hother u).
  - destruct (delete_images_effect req w) as (r & w' & E & _ & _ & _ & H).
    rewrite E. cbn [snd].
    destruct (verified env req) as [u|] eqn:Hv; [|by subst].
    destruct H as [_ [Hf|(c & Hc & Hown & Hf)]]; rewrite Hf; [done|].
    apply lookup_delete_ne. unfold file_of. rewrite Hown.
    intros Heq%PathFacts.folders_apart. by apply (Hother u).
  - destruct (get_images_effect req w) as (r & w' & E & _ & _ & Hf & _).
    rewrite E. cbn [snd]. by rewrite Hf.
Qed.

(** *** The header of the token *)

(** X14.  The middleware takes the second word of the header for the
    token and does not look at the first: whatever stands for [Bearer],
    the request goes on as the user of the token when the token
    verifies, and answered 403 when it does not. *)
Theorem authenticate_any_scheme req w scheme t :
  no_space scheme = true -> no_space t = true -> t <> EmptyString ->
  authorization req = Some (scheme +:+ " " +:+ t) ->
  authenticateToken env req w
  = match jwt_verify t JWT_SECRET (seconds env) with
    | Some u => (next (set_user req u), w)
    | None => (sent {| status := 403; body := text "Forbidden" |}, w)
    end.
Proof.
  intros Hs Ht Hne Hh. unfold authenticateToken. rewrite Hh. cbn [mbind option_bind].
  rewrite PathFacts.split_two_words by done. cbn [lookup list_lookup value_of].
  destruct t; [done|]. cbn [Js.truthy negb]. by destruct (jwt_verify _ _ _).
Qed.

(** X15.  A header of one word has no token: a request that sends its
    token without a word before it is answered 401, whether or not the
    token would verify. *)
Theorem authenticate_bare_token req w t :
  no_space t = true -> authorization req = Some t ->
  authenticateToken env req w = (sent {| status := 401; body := text "Unauthorized" |}, w).
Proof.
  intros Ht Hh. unfold authenticateToken. rewrite Hh. cbn [mbind option_bind].
  by rewrite PathFacts.split_no_space.
Qed.

(** *** The featured car *)

(** The route of the featured car, by the draw. *)
Lemma featured_car_run draw w :
  exists w',
    featured_car env draw w
    = (if db_fault env 0
       then next (500, featured_error "Server error")
       else match cars (db w) !! (draw mod List.length (cars (db w)))%nat with
            | Some r => next (200, featured_row r)
            | None => next (404, featured_error "No cars found")
            end, w')
    /\ db w' = db w /\ files w' = files w /\ folders w' = folders w.
Proof.
  run. destruct (db_fault env 0); run; [by eexists|].
  destruct (cars (db w) !! _); run; by eexists.
Qed.

(** X16.  The featured car reads the table and nothing else, without a
    token: when MySQL fails the select the answer is 500; otherwise it is
    404 exactly when [cars] is empty, and else 200 with a row of the
    table, of whichever user. *)
Theorem featured_car_answer draw w :
  exists code b w',
    featured_car env draw w = (next (code, b), w')
    /\ db w' = db w /\ files w' = files w
    /\ if db_fault env 0
       then code = 500 /\ b = featured_error "Server error"
       else match cars (db w) with
            | [] => code = 404 /\ b = featured_error "No cars found"
            | _ :: _ => code = 200 /\ exists r, r ∈ cars (db w) /\ b = featured_row r
            end.
Proof.
  destruct (featured_car_run draw w) as (w' & E & Hd & Hf & _). rewrite E.
  destruct (db_fault env 0).
  { eexists _, _, _. by repeat split. }
  destruct (cars (db w)) as [|c l] eqn:Hcars.
  { eexists _, _, _. by repeat split. }
  destruct ((c :: l) !! _) as [r|] eqn:Hr.
  - eexists _, _, _. split; [reflexivity|]. repeat split; try done.
    exists r. split; [|done]. by eapply list_elem_of_lookup_2.
  - apply lookup_ge_None in Hr.
    pose proof (Nat.mod_upper_bound draw (List.length (c :: l))) as Hlt.
    cbn [List.length] in *. lia.
Qed.

(** X17.  Every row of [cars] can be the featured one: for each row there
    is a draw of [RAND()] with which the route answers 200 with that
    row. *)
Theorem featured_car_any_row w c :
  c ∈ cars (db w) -> db_fault env 0 = false ->
  exists draw w', featured_car env draw w = (next (200, featured_row c), w').
Proof.
  intros Hc Hd. apply list_elem_of_lookup_1 in Hc as [i Hi].
  pose proof (lookup_lt_Some _ _ _ Hi) as Hlt.
  destruct (featured_car_run i w) as (w' & E & _).
  rewrite Hd, Nat.mod_small, Hi in E by done. by exists i, w'.
Qed.

End Coverage.

(** *** What holds in every world the server reaches *)

Lemma route_outcome `{Platform} {h : IO Empty_set} {w o w' r w''} :
  h w = (o, w') -> h w = (sent r, w'') -> w'' = w'.
Proof. intros E1 E2. rewrite E1 in E2. by injection E2. Qed.

(** X18.  In every world the server reaches, each row of [cars] has a file
    name without separator and the URL made of [/cars/], the id of its
    owner and that name: the URL under which the static route serves the
    file that the delete of the row unlinks. *)
Theorem reachable_rows_served `{Platform} w : reachable w -> rows_served (db w).
Proof.
  induction 1 as [|w h env req o w' _ IH Hh E].
  { intros c Hc. by apply elem_of_nil in Hc. }
  unfold routes in Hh.
  repeat (apply elem_of_cons in Hh as [->|Hh]); [..|by apply elem_of_nil in Hh].
  - destruct (signup_effect env req w) as (r & w'' & E' & _ & _ & _ & Hcars & _).
    rewrite (route_outcome E E') in Hcars. unfold rows_served. by rewrite Hcars.
  - destruct (login_effect env req w) as (r & w'' & E' & _ & Hd & _).
    rewrite (route_outcome E E') in Hd. by rewrite Hd.
  - destruct (post_upload_effect env req w) as (r & w'' & E' & _ & _ & Hrun).
    rewrite (route_outcome E E') in Hrun.
    destruct (verified env req) as [u|]; [|by subst].
    destruct (image req) as [f|]; [|by subst].
    destruct Hrun as (_ & _ & _ & [Hd|(info & Hd)]); rewrite Hd; [done|].
    intros c. cbn [cars]. rewrite elem_of_app, list_elem_of_singleton.
    intros [Hc| ->]; [by apply IH|].
    split; [done|]. apply PathFacts.basename_no_slash.
  - destruct (delete_images_effect env req w) as (r & w'' & E' & _ & _ & _ & Hrun).
    rewrite (route_outcome E E') in Hrun.
    destruct (verified env req) as [u|]; [|by subst].
    destruct Hrun as [[Hd|Hcars] _]; [by rewrite Hd|].
    intros c. rewrite Hcars, list_elem_of_In, filter_In, <- list_elem_of_In.
    intros [Hc _]. by apply IH.
  - destruct (get_images_effect env req w) as (r & w'' & E' & _ & Hd & _).
    rewrite (route_outcome E E') in Hd. by rewrite Hd.
Qed.

(** X19.  In every world the server reaches, each file on the disk lies in
    the folder of a user, under a path of the folder, and that folder has
    been made: multer never writes where [storage.destination] has not
    looked for the folder and made it when it was missing. *)
Theorem reachable_files_in_folders `{Platform} w : reachable w -> files_in_folders w.
Proof.
  induction 1 as [|w h env req o w' _ IH Hh E].
  { intros q [x Hq]. unfold initial in Hq. cbn [files] in Hq.
    by rewrite lookup_empty in Hq. }
  unfold routes in Hh.
  repeat (apply elem_of_cons in Hh as [->|Hh]); [..|by apply elem_of_nil in Hh].
  - destruct (signup_effect env req w) as (r & w'' & E' & _ & Hf & Hfo & _).
    rewrite (route_outcome E E') in Hf, Hfo. unfold files_in_folders. by rewrite Hf, Hfo.
  - destruct (login_effect env req w) as (r & w'' & E' & _ & _ & Hf & Hfo).
    rewrite (route_outcome E E') in Hf, Hfo. unfold files_in_folders. by rewrite Hf, Hfo.
  - destruct (post_upload_effect env req w) as (r & w'' & E' & _ & _ & Hrun).
    rewrite (route_outcome E E') in Hrun.
    destruct (verified env req) as [u|]; [|by subst].
    destruct (image req) as [f|]; [|by subst].
    destruct Hrun as (Hf & Hfo & Hmade & _).
    assert (path.join [dirname; "cars"; Js.String_ (Jwt.id u)] ∈ folders w') as Hin.
    { destruct Hmade as [?|Hfile]; [done|].
      destruct (IH _ Hfile) as (uid & name & Heq & _).
      by destruct (PathFacts.folder_not_file _ _ _ Heq). }
    assert (folders w ⊆ folders w') as Hsub.
    { destruct Hfo as [Hfo|Hfo]; rewrite Hfo; [done | apply union_subseteq_r]. }
    intros q. rewrite Hf. destruct (decide (q = upload_path env u f)) as [->|Hne].
    + intros _. exists (Jwt.id u), (storage_filename env f).
      split; [apply PathFacts.join_folder | done].
    + rewrite lookup_insert_ne by done. intros Hq.
      destruct (IH q Hq) as (uid & name & Heq & Hfolder).
      exists uid, name. split; [done|]. by apply Hsub.
  - destruct (delete_images_effect env req w) as (r & w'' & E' & _ & _ & Hfo & Hrun).
    rewrite (route_outcome E E') in Hfo, Hrun.
    destruct (verified env req) as [u|]; [|by subst].
    destruct Hrun as [_ [Hf|(c & _ & _ & Hf)]];
      unfold files_in_folders; rewrite Hf, Hfo; [done|].
    intros q [x Hq]. apply lookup_delete_Some in Hq as [_ Hq]. by apply IH.
  - destruct (get_images_effect env req w) as (r & w'' & E' & _ & _ & Hf & Hfo).
    rewrite (route_outcome E E') in Hf, Hfo. unfold files_in_folders. by rewrite Hf, Hfo.
Qed.

(** ** One request after another *)

Section Composition.
Context {P : Platform}.
Variables env env2 : Env.

#[local] Existing Instance Sql.newer_first_dec.
#[local] Existing Instance newer_first_total.
#[local] Existing Instance newer_first_trans.

Lemma filter_owned_gone i o (l : list cars.row) :
  List.filter (Sql.owned i o) (List.filter (fun y => negb (Sql.owned i o y)) l) = [].
Proof.
  apply filter_none. intros x Hx.
  apply list_elem_of_In, filter_In in Hx as [_ Hx]. by apply negb_true_iff.
Qed.

(** The name multer gives a file is a plain name when the original is. *)
Lemma basename_upload_path u f :
  no_slash (originalname f) = true ->
  path.basename (upload_path env u f) = storage_filename env f.
Proof.
  intros Hf. unfold upload_path. apply PathFacts.basename_join.
  - unfold storage_filename. rewrite !PathFacts.no_slash_app, Hf.
    by rewrite PathFacts.String_no_slash.
  - unfold storage_filename. by destruct (Js.String_ (Date_now env)).
Qed.

(** X20.  A delete that was answered 200 is answered 404 when it is sent
    again: the row is gone, and the second request changes nothing. *)
Theorem delete_again_not_found req w r w' u :
  verified env req = Some u -> verified env2 req = Some u ->
  delete_images env req w = (sent r, w') -> status r = 200 ->
  db_fault env2 0 = false ->
  exists w'',
    delete_images env2 req w'
    = (sent {| status := 404; body := text "Image not found or not owned by user" |}, w'')
    /\ db w'' = db w' /\ files w'' = files w'.
Proof.
  intros Hv Hv2 E Hs Hd2.
  destruct (delete_image_run env req w u Hv) as (w1 & H & _).
  assert (cars (db w')
          = List.filter (fun y => negb (Sql.owned (params_id req) (Jwt.id u) y))
              (cars (db w))) as Hcars.
  { destruct (db_fault env 0).
    { destruct H as (E1 & _). rewrite E in E1. by injection E1 as -> _. }
    destruct (List.filter _ _).
    { destruct H as (E1 & _). rewrite E in E1. by injection E1 as -> _. }
    destruct H as (_ & H). destruct (db_fault env 1).
    { destruct H as (E1 & _). rewrite E in E1. by injection E1 as -> _. }
    destruct H as (E1 & _ & _ & _ & Hcars). rewrite E in E1. by injection E1 as _ ->. }
  destruct (delete_image_run env2 req w' u Hv2) as (w2 & H2 & _).
  rewrite Hd2, Hcars, filter_owned_gone in H2. by exists w2.
Qed.

(** X21.  After an upload that was answered 200, the list of images of the
    same user, when MySQL answers, has the new row, with the rows it had
    before, the newest first. *)
Theorem upload_then_listed req req2 w u u2 f raw :
  verified env req = Some u -> image req = Some f ->
  gemini env (base64 (buffer f)) = Some raw -> db_fault env 0 = false ->
  verified env2 req2 = Some u2 -> Jwt.id u2 = Jwt.id u -> db_fault env2 0 = false ->
  exists w' w'' rs,
    post_upload env req w
    = (sent {| status := 200; body := uploaded_body env u f (annotation raw) |}, w')
    /\ get_images env2 req2 w' = (sent {| status := 200; body := records rs |}, w'')
    /\ rs ≡ₚ uploaded_row env (db w) u f (annotation raw)
              :: List.filter (fun c => cars.user_id c =? Jwt.id u) (cars (db w))
    /\ StronglySorted Sql.newer_first rs.
Proof.
  intros Hv Hi Hg Hd Hv2 Hid Hd2.
  destruct (post_upload_run env req w u f Hv Hi) as (w' & H & _).
  rewrite Hg, Hd in H. destruct H as (E & _ & Hcars).
  destruct (list_images_effect env2 req2 w' u2 Hv2) as (r & w'' & E2 & _ & _ & _ & _ & Hr).
  rewrite (Hr Hd2) in E2. eexists w', w'', _. split; [done|]. split; [done|].
  split; [|apply StronglySorted_merge_sort; apply _].
  rewrite merge_sort_Permutation, Hcars, Hid, List.filter_app. cbn [List.filter uploaded_row cars.user_id].
  rewrite Z.eqb_refl. by rewrite <- Permutation_cons_append.
Qed.

(** X22.  An upload and then the delete of its row take the tables and the
    disk back: the delete unlinks the file that multer wrote and removes
    the row that the upload added, so that [cars] and [users] are what
    they were before the upload, and so is the disk when no file was at
    the path of the upload; of the upload only the counter of the ids
    stays, one further. *)
Theorem upload_then_delete_restores req req2 w u u2 f raw :
  verified env req = Some u -> image req = Some f ->
  gemini env (base64 (buffer f)) = Some raw -> db_fault env 0 = false ->
  no_slash (originalname f) = true -> db_inv (db w) ->
  verified env2 req2 = Some u2 -> Jwt.id u2 = Jwt.id u ->
  params_id req2 = cars_AUTO_INCREMENT (db w) ->
  db_fault env2 0 = false -> db_fault env2 1 = false ->
  exists w' w'',
    post_upload env req w
    = (sent {| status := 200; body := uploaded_body env u f (annotation raw) |}, w')
    /\ delete_images env2 req2 w'
       = (sent {| status := 200; body := text "Image deleted successfully" |}, w'')
    /\ cars (db w'') = cars (db w)
    /\ users (db w'') = users (db w)
    /\ cars_AUTO_INCREMENT (db w'') = cars_AUTO_INCREMENT (db w) + 1
    /\ files w'' = delete (upload_path env u f) (files w)
    /\ (files w !! upload_path env u f = None -> files w'' = files w).
Proof.
  intros Hv Hi Hg Hd Hname Hinv Hv2 Hid Hpid Hd20 Hd21.
  destruct (post_upload_run env req w u f Hv Hi) as (w' & H & Hf).
  rewrite Hg, Hd in H. destruct H as (E & Hu & Hcars).
  assert (cars_AUTO_INCREMENT (db w') = cars_AUTO_INCREMENT (db w) + 1) as Hnext.
  { destruct (post_upload_effect env req w) as (r1 & w1 & E1 & _ & _ & H1).
    rewrite E in E1. injection E1 as _ <-. rewrite Hv, Hi in H1.
    destruct H1 as (_ & _ & _ & [Hsame|(info & ->)]); [|done].
    rewrite Hsame in Hcars. apply (f_equal List.length) in Hcars.
    rewrite length_app in Hcars. simpl in Hcars. lia. }
  assert (forall x, x ∈ cars (db w) ->
                    Sql.owned (params_id req2) (Jwt.id u2) x = false) as Hold.
  { intros x Hx. unfold Sql.owned. apply andb_false_iff. left. apply Z.eqb_neq.
    pose proof (inv_car_next _ Hinv x Hx). lia. }
  assert (Sql.owned (params_id req2) (Jwt.id u2)
            (uploaded_row env (db w) u f (annotation raw)) = true) as Hnew.
  { unfold Sql.owned, uploaded_row. cbn [cars.id cars.user_id].
    by rewrite Hpid, Hid, !Z.eqb_refl. }
  destruct (delete_image_run env2 req2 w' u2 Hv2) as (w'' & H & _).
  rewrite Hd20, Hcars, List.filter_app, (filter_none _ _ Hold) in H.
  cbn [List.filter app] in H. rewrite Hnew, Hd21 in H.
  destruct H as (Hf2 & E2 & Hu2 & _ & Hnext2 & Hcars2).
  assert (files w'' = delete (upload_path env u f) (files w)) as Hfiles.
  { rewrite Hf2, Hf. cbn [uploaded_row cars.filename].
    rewrite (basename_upload_path u f Hname), Hid.
    unfold upload_path. rewrite PathFacts.join_folder. apply delete_insert_eq. }
  exists w', w''. split; [done|]. split; [done|]. repeat split.
  - rewrite Hcars2, List.filter_app. cbn [List.filter]. rewrite Hnew. cbn [negb].
    rewrite app_nil_r. apply List.forallb_filter_id, forallb_forall.
    intros x Hx. apply negb_true_iff, Hold. by apply list_elem_of_In.
  - by rewrite Hu2.
  - by rewrite Hnext2.
  - done.
  - intros Hfresh. rewrite Hfiles. by apply delete_id.
Qed.

(** X23.  After a signup that was answered 201, a login with the same
    email and password is answered 200, when MySQL answers and bcrypt
    accepts a password against its own hash, with a token that signs the
    id that the signup gave to the new row. *)
Theorem signup_then_login req w r w' :
  bcrypt_accepts_own ->
  signup env req w = (sent r, w') -> status r = 201 ->
  db_fault env2 0 = false ->
  exists w'',
    login env2 req w'
    = (sent {| status := 200;
               body := json (JObj [("token",
                         JStr (jwt_sign {| Jwt.id := users_AUTO_INCREMENT (db w);
                                           Jwt.username := None;
                                           Jwt.iat := seconds env2;
                                           Jwt.exp := seconds env2 + 3600 |}
                                        JWT_SECRET))]) |}, w'')
    /\ db w'' = db w'.
Proof.
  intros Hown E Hs Hd.
  destruct (signup_effect env req w) as (r1 & w1 & E1 & _ & _ & _ & _ & _ & Hyes).
  rewrite E in E1. injection E1 as <- <-.
  destruct (Hyes Hs) as (Hte & Htp & Hnew & Hu).
  unfold login. rewrite Hte, Htp. cbn [negb orb].
  unfold db_query, Sql.select_user, send, effect, bind.
  cbn [db files folders log]. rewrite Hd, Hu, List.filter_app.
  rewrite filter_none.
  2: { intros x Hx. apply String.eqb_neq. by apply Hnew. }
  cbn [List.filter app users.email]. rewrite String.eqb_refl. cbn [users.password users.id].
  rewrite Hown. cbn [negb]. eexists. by split.
Qed.

(** X24.  The name of a stored file is made of the time and of the
    original name only: two uploads of the same user in the same
    millisecond under the same original name are both answered 200 and
    add a row each, with the same URL, while the disk keeps one file, with
    the image of the second upload. *)
Theorem uploads_same_name_same_time_share_file req req2 w u u2 f f2 raw raw2 :
  verified env req = Some u -> image req = Some f ->
  gemini env (base64 (buffer f)) = Some raw -> db_fault env 0 = false ->
  verified env2 req2 = Some u2 -> image req2 = Some f2 ->
  gemini env2 (base64 (buffer f2)) = Some raw2 -> db_fault env2 0 = false ->
  Jwt.id u2 = Jwt.id u -> Date_now env2 = Date_now env ->
  originalname f2 = originalname f ->
  exists w' w'',
    post_upload env req w
    = (sent {| status := 200; body := uploaded_body env u f (annotation raw) |}, w')
    /\ post_upload env2 req2 w'
       = (sent {| status := 200; body := uploaded_body env2 u2 f2 (annotation raw2) |}, w'')
    /\ cars (db w'')
       = (cars (db w) ++ [uploaded_row env (db w) u f (annotation raw);
                          uploaded_row env2 (db w') u2 f2 (annotation raw2)])%list
    /\ cars.url (uploaded_row env2 (db w') u2 f2 (annotation raw2))
       = cars.url (uploaded_row env (db w) u f (annotation raw))
    /\ cars.id (uploaded_row env2 (db w') u2 f2 (annotation raw2))
       <> cars.id (uploaded_row env (db w) u f (annotation raw))
    /\ files w'' = <[upload_path env u f := buffer f2]> (files w).
Proof.
  intros Hv Hi Hg Hd Hv2 Hi2 Hg2 Hd2 Hid Hnow Hname.
  destruct (post_upload_run env req w u f Hv Hi) as (w' & H & Hf).
  rewrite Hg, Hd in H. destruct H as (E & _ & Hcars).
  destruct (post_upload_run env2 req2 w' u2 f2 Hv2 Hi2) as (w'' & H2 & Hf2).
  rewrite Hg2, Hd2 in H2. destruct H2 as (E2 & _ & Hcars2).
  assert (upload_path env2 u2 f2 = upload_path env u f) as Hpath.
  { unfold upload_path, storage_filename. by rewrite Hid, Hnow, Hname. }
  assert (cars_AUTO_INCREMENT (db w') = cars_AUTO_INCREMENT (db w) + 1) as Hnext.
  { destruct (post_upload_effect env req w) as (r1 & w1 & E1 & _ & _ & H1).
    rewrite E in E1. injection E1 as _ <-. rewrite Hv, Hi in H1.
    destruct H1 as (_ & _ & _ & [Hsame|(info & ->)]); [|done].
    rewrite Hsame in Hcars. apply (f_equal List.length) in Hcars.
    rewrite length_app in Hcars. simpl in Hcars. lia. }
  exists w', w''. split; [done|]. split; [done|]. repeat split.
  - by rewrite Hcars2, Hcars, <- app_assoc.
  - unfold uploaded_row, upload_url. cbn [cars.url]. by rewrite Hpath, Hid.
  - unfold uploaded_row. cbn [cars.id]. lia.
  - rewrite Hf2, Hf, Hpath. apply insert_insert_eq.
Qed.

End Composition.

(** ** The pages and the server *)

Section Pages.
Context {P : Platform}.
Variable env : Env.

#[local] Existing Instance Sql.newer_first_dec.
#[local] Existing Instance newer_first_total.
#[local] Existing Instance newer_first_trans.

(** The header that the dashboard sends is read back as its token. *)
Lemma verified_bearer req t :
  no_space t = true -> t <> EmptyString ->
  authorization req = Some ("Bearer " +:+ t) ->
  verified env req = jwt_verify t JWT_SECRET (seconds env).
Proof.
  intros Ht Hne Hh. unfold verified, token_of. rewrite Hh. cbn [mbind option_bind].
  change ("Bearer " +:+ t) with ("Bearer" +:+ " " +:+ t).
  rewrite (PathFacts.split_two_words "Bearer" t) by done.
  cbn [lookup list_lookup value_of]. by destruct t.
Qed.

(** The answers of the login, and what [response.json()] makes of them. *)
Lemma login_answers req w r w' :
  login env req w = (sent r, w') ->
  (status r = 200 /\ exists token, body r = json (JObj [("token", JStr token)]))
  \/ (status r <> 200 /\ Page.ok r = false
      /\ exists msg, msg ∈ ["Email and password required"; "Invalid credentials";
                            "Database error"]
                     /\ body r = text msg).
Proof.
  unfold login, db_query, Sql.select_user, send, effect, bind.
  cbn [db files folders log].
  destruct (negb _ || negb _).
  { intros [= <- _]. right. repeat split; [done|]. eexists. split; [|done].
    apply list_elem_of_here. }
  destruct (db_fault env 0).
  { intros [= <- _]. right. repeat split; [done|]. eexists. split; [|done].
    do 2 apply list_elem_of_further. apply list_elem_of_here. }
  destruct (List.filter _ _) as [|u l].
  { intros [= <- _]. right. repeat split; [done|]. eexists. split; [|done].
    apply list_elem_of_further, list_elem_of_here. }
  destruct (bcrypt_compare _ _); cbn [negb].
  - intros [= <- _]. left. split; [done|]. by eexists.
  - intros [= <- _]. right. repeat split; [done|]. eexists. split; [|done].
    apply list_elem_of_further, list_elem_of_here. 
Qed.

(** X25.  A login that the server refuses is shown as a failure to reach
    the server: the server answers a refused login in plain words, which
    are not JSON, and the page reads the body as JSON before it looks at
    the status, so that it never shows the words of the server. *)
Theorem login_failure_says_unreachable st w r w' :
  JSON_parse "Email and password required" = None ->
  JSON_parse "Invalid credentials" = None ->
  JSON_parse "Database error" = None ->
  Page.isLogin st = true ->
  Page.endpoint st env (Page.submit_request st) w = (sent r, w') ->
  status r <> 200 ->
  Page.handleSubmit st (Some r)
  = (st, [Page.alert "Unable to reach server."; Page.logged EmptyString]).
Proof.
  intros H1 H2 H3 Hl E Hs. unfold Page.endpoint in E. rewrite Hl in E.
  destruct (login_answers _ _ _ _ E) as [[Hs' _]|(_ & _ & msg & Hmsg & Hb)]; [done|].
  unfold Page.handleSubmit, Page.response_json. rewrite Hb.
  rewrite !elem_of_cons in Hmsg.
  destruct Hmsg as [->|[->|[->|Hmsg]]]; [by rewrite H1|by rewrite H2|by rewrite H3|].
  by apply elem_of_nil in Hmsg.
Qed.

(** X26.  A login that the server accepts makes the page keep the token
    of the answer under [token] and go to the dashboard. *)
Theorem login_success_keeps_token st w r w' :
  Page.isLogin st = true ->
  Page.endpoint st env (Page.submit_request st) w = (sent r, w') ->
  status r = 200 ->
  exists token,
    body r = json (JObj [("token", JStr token)])
    /\ Page.handleSubmit st (Some r)
       = (st, [Page.setItem "token" token; Page.navigate "/dashboard"]).
Proof.
  intros Hl E Hs. unfold Page.endpoint in E. rewrite Hl in E.
  destruct (login_answers _ _ _ _ E) as [(_ & token & Hb)|(Hs' & _)]; [|done].
  exists token. split; [done|].
  unfold Page.handleSubmit, Page.response_json, Page.ok. rewrite Hb, Hs, Hl. done.
Qed.

(** X27.  After a signup the page shows what the server said: on 201 it
    tells the success and turns to the login form with empty fields, and
    else it alerts the words of the error of the server and stays as it
    is. *)
Theorem signup_submit_outcome st w r w' :
  Page.isLogin st = false ->
  Page.endpoint st env (Page.submit_request st) w = (sent r, w') ->
  (status r = 201
   /\ Page.handleSubmit st (Some r)
      = ({| Page.isLogin := true; Page.email := EmptyString;
            Page.password := EmptyString; Page.featuredCar := Page.featuredCar st |},
         [Page.alert "Signup successful! You can now log in."]))
  \/ (status r <> 201
      /\ exists msg,
           msg ∈ ["Email and password required"; "Email already exists"; "Database error"]
           /\ body r = json (JObj [("error", JStr msg)])
           /\ Page.handleSubmit st (Some r) = (st, [Page.alert msg])).
Proof.
  intros Hl E. unfold Page.endpoint in E. rewrite Hl in E. revert E.
  unfold signup, db_query, Sql.insert_user, send, effect, bind.
  cbn [db files folders log].
  destruct (negb _ || negb _).
  { intros [= <- _]. right. split; [done|]. eexists. split; [apply list_elem_of_here|].
    split; [done|]. unfold Page.handleSubmit. by rewrite Hl. }
  destruct (db_fault env 0).
  { intros [= <- _]. right. split; [done|]. eexists.
    split; [do 2 apply list_elem_of_further; apply list_elem_of_here|].
    split; [done|]. unfold Page.handleSubmit. by rewrite Hl. }
  destruct (existsb _ _).
  { intros [= <- _]. right. split; [done|]. eexists.
    split; [apply list_elem_of_further, list_elem_of_here|].
    split; [done|]. unfold Page.handleSubmit. by rewrite Hl. }
  intros [= <- _]. left. split; [done|].
  unfold Page.handleSubmit, Page.toggleForm. by rewrite Hl.
Qed.

(** X28.  The landing page puts whatever [GET /featured-car] answers into
    its state: when the answer is a row, the box shows the image at the
    URL of that row of [cars]; when it is an error, no cars or MySQL
    failing, the box is shown all the same, with an image at
    [http://localhost:3000undefined] and nothing else. *)
Theorem featured_box_of_answer st draw w code b w' :
  featured_car env draw w = (next (code, b), w') ->
  if code =? 200
  then exists r,
         r ∈ cars (db w)
         /\ Page.src <$> Page.featured_box (fst (Page.load_featured st (Some (code, b))))
            = Some ("http://localhost:3000" +:+ cars.url r)
         /\ Page.alt <$> Page.featured_box (fst (Page.load_featured st (Some (code, b))))
            = Some (Some (JStr (cars.filename r)))
  else Page.featured_box (fst (Page.load_featured st (Some (code, b))))
       = Some {| Page.src := "http://localhost:3000undefined"; Page.alt := None;
                 Page.info := None |}.
Proof.
  intros E.
  destruct (featured_car_run env draw w) as (w'' & E' & _). rewrite E in E'.
  destruct (db_fault env 0); [by injection E' as -> -> _|].
  destruct (cars (db w) !! _) as [r|] eqn:Hr; [|by injection E' as -> -> _].
  injection E' as -> -> _. exists r. split; [|done]. by eapply list_elem_of_lookup_2.
Qed.

(** X29.  The gallery of the dashboard after it loads: with a token that
    verifies and MySQL answering, it is the rows of the user of the
    token, the newest first; in every other case the server answers in
    plain words that are not JSON, and the gallery stays as it was. *)
Theorem dashboard_gallery_after_load st t w r w' :
  JSON_parse "Unauthorized" = None -> JSON_parse "Forbidden" = None ->
  JSON_parse "DB error" = None ->
  no_space t = true -> t <> EmptyString ->
  get_images env (Page.images_request t) w = (sent r, w') ->
  match jwt_verify t JWT_SECRET (seconds env) with
  | Some u =>
      if db_fault env 0
      then Page.load_images st (Some r) = (st, [Page.logged "Error loading images:"])
      else exists rs,
             Page.load_images st (Some r)
             = ({| Page.uploadedImages := Page.rows rs;
                   Page.clickedImage := Page.clickedImage st;
                   Page.loading := Page.loading st |}, [])
             /\ rs ≡ₚ List.filter (fun c => cars.user_id c =? Jwt.id u) (cars (db w))
             /\ StronglySorted Sql.newer_first rs
  | None => Page.load_images st (Some r) = (st, [Page.logged "Error loading images:"])
  end.
Proof.
  intros H1 H2 H3 Ht Hne E.
  pose proof (verified_bearer (Page.images_request t) t Ht Hne eq_refl) as Hv.
  destruct (jwt_verify t JWT_SECRET (seconds env)) as [u|].
  - revert E. unfold get_images. rewrite (admitted_to env _ w u _ Hv).
    unfold list_images, req_user_id, db_query, Sql.select_cars_of, console_error,
      send, effect, bind, ret.
    cbn [user set_user db files folders log]. destruct (db_fault env 0).
    + intros [= <- _]. unfold Page.load_images, Page.response_json.
      cbn [mbind option_bind body]. by rewrite H3.
    + intros [= <- _]. eexists. split; [reflexivity|].
      split; [apply merge_sort_Permutation | apply StronglySorted_merge_sort; apply _].
  - revert E. unfold get_images. rewrite (rejected env _ w _ Hv).
    destruct (Js.truthy _); intros [= <- _];
      unfold Page.load_images, Page.response_json; cbn [mbind option_bind body];
      by rewrite ?H1, ?H2.
Qed.

(** The rows of a user that a delete of that user leaves are the rows
    with another id. *)
Lemma filter_owner_others i o (l : list cars.row) :
  List.filter (fun c => cars.user_id c =? o)
    (List.filter (fun y => negb (Sql.owned i o y)) l)
  = List.filter (fun img => negb (cars.id img =? i))
      (List.filter (fun c => cars.user_id c =? o) l).
Proof.
  induction l as [|x l IH]; [done|]. cbn [List.filter]. unfold Sql.owned at 1.
  destruct (cars.id x =? i) eqn:Hi; destruct (cars.user_id x =? o) eqn:Ho;
    cbn [negb andb List.filter]; rewrite ?Ho, ?Hi; cbn [negb andb List.filter];
    by rewrite IH.
Qed.

Lemma filter_Permutation_list {A} (f : A -> bool) (l l' : list A) :
  l ≡ₚ l' -> List.filter f l ≡ₚ List.filter f l'.
Proof.
  induction 1 as [|x l l' _ IH|x y l|l l' l'' _ IH1 _ IH2]; cbn [List.filter].
  - done.
  - destruct (f x); by rewrite IH.
  - destruct (f x), (f y); try done. apply perm_swap.
  - by rewrite IH1.
Qed.

Lemma filter_StronglySorted {A} (R : relation A) (f : A -> bool) (l : list A) :
  StronglySorted R l -> StronglySorted R (List.filter f l).
Proof.
  induction 1 as [|x l Hs IH Hx]; cbn [List.filter]; [constructor|].
  destruct (f x); [|done]. constructor; [done|].
  apply Forall_forall. intros y Hy. apply list_elem_of_In, filter_In in Hy as [Hy _].
  rewrite Forall_forall in Hx. by apply Hx, list_elem_of_In.
Qed.

(** X30.  The gallery keeps in step with the table through a delete from
    the dashboard: when the gallery shows the rows of the user of the
    token, the newest first, it shows after [handleDelete] the rows of
    that user in the table after the request, the newest first, whatever
    the server answered; the modal is closed when the answer is 200. *)
Theorem handleDelete_in_step st t imageId w r w' u g :
  verified env (Page.delete_request t imageId) = Some u ->
  delete_images env (Page.delete_request t imageId) w = (sent r, w') ->
  Page.uploadedImages st = Page.rows g ->
  g ≡ₚ List.filter (fun c => cars.user_id c =? Jwt.id u) (cars (db w)) ->
  StronglySorted Sql.newer_first g ->
  exists st' g' ui,
    Page.handleDelete imageId st (Some r) = (Some st', ui)
    /\ Page.uploadedImages st' = Page.rows g'
    /\ g' ≡ₚ List.filter (fun c => cars.user_id c =? Jwt.id u) (cars (db w'))
    /\ StronglySorted Sql.newer_first g'
    /\ (status r = 200 -> Page.clickedImage st' = None).
Proof.
  intros Hv E Hg Hperm Hsorted.
  destruct (delete_image_run env _ w u Hv) as (w1 & H & _).
  cbn [params_id Page.delete_request] in H.
  assert (forall w2 : World,
            delete_images env (Page.delete_request t imageId) w = (sent r, w2) ->
            w2 = w') as Hw.
  { intros w2 E2. rewrite E in E2. by injection E2. }
  assert (forall code s,
            r = {| status := code; body := text s |} -> code <> 200 ->
            Page.ok r = false -> db w' = db w ->
            exists st' g' ui,
              Page.handleDelete imageId st (Some r) = (Some st', ui)
              /\ Page.uploadedImages st' = Page.rows g'
              /\ g' ≡ₚ List.filter (fun c => cars.user_id c =? Jwt.id u) (cars (db w'))
              /\ StronglySorted Sql.newer_first g'
              /\ (status r = 200 -> Page.clickedImage st' = None)) as Hrefused.
  { intros code s -> Hcode Hok Hd. exists st, g, [Page.logged "Failed to delete image:"].
    unfold Page.handleDelete. rewrite Hok, Hd. by repeat split. }
  destruct (db_fault env 0).
  { destruct H as (E1 & Hd & _). rewrite E in E1. injection E1 as -> <-.
    by eapply Hrefused. }
  destruct (List.filter (Sql.owned imageId (Jwt.id u)) (cars (db w))) as [|c rest].
  { destruct H as (E1 & Hd & _). rewrite E in E1. injection E1 as -> <-.
    by eapply Hrefused. }
  destruct H as (_ & H). destruct (db_fault env 1).
  { destruct H as (E1 & Hd). rewrite E in E1. injection E1 as -> <-.
    by eapply Hrefused. }
  destruct H as (E1 & _ & _ & _ & Hcars). rewrite E in E1. injection E1 as -> <-.
  eexists _, _, _. unfold Page.handleDelete, Page.ok. cbn [status andb Z.leb].
  rewrite Hg. cbn [Page.without fmap option_fmap option_map].
  split; [reflexivity|]. cbn [Page.uploadedImages Page.clickedImage].
  split; [reflexivity|]. split; [|split; [by apply filter_StronglySorted|done]].
  rewrite Hcars, filter_owner_others. by apply filter_Permutation_list.
Qed.

End Pages.

(** ** The example scenario, and the properties on the sample data *)

Module Examples.
Import Sample.

#[local] Existing Instance mini.

(** The hash of the small platform reads the first 72 bytes, as bcrypt
    does. *)
Lemma mini_bcrypt_72 : bcrypt_72 (H := mini).
Proof.
  intros p p' s. unfold bcrypt_compare, bcrypt_hash, mini, Mini.compare, Mini.hash.
  rewrite String.eqb_eq. split; [|by intros ->].
  intros H. by apply String.app_inj in H.
Qed.

Lemma mini_bcrypt_accepts_own : bcrypt_accepts_own (H := mini).
Proof. intros p s. by apply mini_bcrypt_72. Qed.





(** White space beyond ASCII is trimmed as well: an object between two
    NO-BREAK SPACEs is parsed, and is not taken for a text that is not
    JSON. *)
Example annotation_no_break_space :
  Js.trim spaced_answer = Mini.dq "{'year':2020}"
  /\ annotation spaced_answer = Mini.dq "{'year':2020}".
Proof. by vm_compute. Qed.

(** C1, as stated, fails: in the example scenario with Gemini down, the
    upload is answered 500 and yet the image is on disk afterwards. *)
Lemma upload_ai_error_not_clean :
  gemini (env None false) (base64 (buffer car_jpg)) = None
  /\ exists r w',
       post_upload (env None false) upload_request world0 = (sent r, w')
       /\ status r = 500
       /\ files world0 !! stored_path = None
       /\ files w' !! stored_path = Some "JPEGDATA"
       /\ ~ nothing_persisted world0 w'.
Proof.
  split; [done|].
  destruct (post_upload_run (env None false) upload_request world0 alice_id car_jpg)
    as (w' & [H Hd] & Hf); try reflexivity.
  eexists _, w'. split; [exact H|]. split; [done|]. split; [done|].
  assert (files w' !! stored_path = Some "JPEGDATA") as Hs.
  { rewrite Hf. apply lookup_insert_eq. }
  split; [done|]. intros [_ E]. by rewrite E in Hs.
Qed.

Lemma upload_ai_error_keeps_file_witness :
  exists w',
    post_upload (env None false) upload_request world0
    = (sent {| status := 500; body := text "Gemini image analysis failed" |}, w')
    /\ db w' = db world0
    /\ files w' = <[stored_path := "JPEGDATA"]> (files world0).
Proof.
  change stored_path with (upload_path (env None false) alice_id car_jpg).
  apply (upload_ai_error_keeps_file (env None false) upload_request world0
           alice_id car_jpg); reflexivity.
Defined.

Lemma upload_parse_failure_fallback_witness :
  exists r w',
    post_upload (env (Some "A red car") false) upload_request world0 = (sent r, w')
    /\ files w' = <[stored_path := "JPEGDATA"]> (files world0)
    /\ (db_fault (env (Some "A red car") false) 0 = false ->
        r = {| status := 200;
               body := uploaded_body (env (Some "A red car") false) alice_id car_jpg
                         (JSON_stringify (JObj [("description", JStr "A red car")])) |}
        /\ cars (db w')
           = (cars (db world0)
              ++ [uploaded_row (env (Some "A red car") false) (db world0) alice_id car_jpg
                    (JSON_stringify (JObj [("description", JStr "A red car")]))])%list)
    /\ (status r <> 200 -> db_fault (env (Some "A red car") false) 0 = true).
Proof.
  change stored_path with (upload_path (env (Some "A red car") false) alice_id car_jpg).
  apply (upload_parse_failure_fallback (env (Some "A red car") false) upload_request
           world0 alice_id car_jpg "A red car"); reflexivity.
Defined.

Lemma upload_carInfo_is_string_witness :
  exists url s row,
    json (JObj [("message", JStr "Uploaded & analyzed");
                ("url", JStr "/cars/1/1723000000123-car.jpg");
                ("carInfo", JStr (JSON_stringify toyota))])
    = json (JObj [("message", JStr "Uploaded & analyzed");
                  ("url", JStr url); ("carInfo", JStr s)])
    /\ cars (db (snd (post_upload (env (Some toyota_answer) false) upload_request world0)))
       = (cars (db world0) ++ [row])%list
    /\ cars.car_info row = s
    /\ (exists v, s = JSON_stringify v)
    /\ is_string (JStr s) = true
    /\ (forall k, get k (JStr s) = None)
    /\ featured_info (JStr s) = default JNull (JSON_parse s).
Proof.
  apply (upload_carInfo_is_string (env (Some toyota_answer) false) upload_request world0
           {| status := 200;
              body := json (JObj [("message", JStr "Uploaded & analyzed");
                                  ("url", JStr "/cars/1/1723000000123-car.jpg");
                                  ("carInfo", JStr (JSON_stringify toyota))]) |}
           (snd (post_upload (env (Some toyota_answer) false) upload_request world0)));
    by vm_compute.
Defined.

(** Bob asks to delete image 1, which is Alice's. *)
Lemma delete_not_owned_not_found_witness :
  exists o w',
    delete_images (env None false) (bearer bob_token 1 None) world1 = (o, w')
    /\ db w' = db world1
    /\ files w' = files world1
    /\ (db_fault (env None false) 0 = false ->
        o = sent {| status := 404; body := text "Image not found or not owned by user" |}).
Proof.
  apply (delete_not_owned_not_found (env None false) (bearer bob_token 1 None) world1 bob_id);
    [reflexivity|].
  right. split.
  - apply (bool_decide_unpack _). by vm_compute.
  - exists (car 1 "100-a.jpg" 1 100). split; [by left | by split].
Defined.

(** An upload with a token signed with another key. *)
Lemma upload_unauthenticated_no_write_witness :
  exists r,
    post_upload (env None false) (bearer "mini.1.1723000000.1723003600.guess" 0 (Some car_jpg))
      world0 = (sent r, world0)
    /\ r = {| status := 403; body := text "Forbidden" |}
    /\ forall o w',
         post_upload (env None false)
           (bearer "mini.1.1723000000.1723003600.guess" 0 (Some car_jpg)) world0 = (o, w') ->
         files w' = files world0 /\ forall p, writeFile p ∈ log w' -> writeFile p ∈ log world0.
Proof.
  apply (upload_unauthenticated_no_write (env None false)
           (bearer "mini.1.1723000000.1723003600.guess" 0 (Some car_jpg)) world0).
  reflexivity.
Defined.

(** A request without the header, a request with a token of Alice signed
    with another key, and a request with the token of Alice, on the
    endpoints. *)
Lemma authenticate_distinct_failures_witness :
  (authenticateToken (env None false) request world0
   = (sent {| status := 401; body := text "Unauthorized" |}, world0)
   /\ forall h, h ∈ authenticated_endpoints (env None false) ->
                h request world0
                = (sent {| status := 401; body := text "Unauthorized" |}, world0))
  /\ (authenticateToken (env None false) (bearer forged_token 0 None) world0
      = (sent {| status := 403; body := text "Forbidden" |}, world0)
      /\ forall h, h ∈ authenticated_endpoints (env None false) ->
                   h (bearer forged_token 0 None) world0
                   = (sent {| status := 403; body := text "Forbidden" |}, world0))
  /\ (authenticateToken (env None false) (bearer alice_token 0 None) world0
      = (next (set_user (bearer alice_token 0 None) alice_id), world0)
      /\ user (set_user (bearer alice_token 0 None) alice_id) = Some alice_id
      /\ req_user_id (set_user (bearer alice_token 0 None) alice_id) world0
         = (next (Jwt.id alice_id), world0)
      /\ post_upload (env None false) (bearer alice_token 0 None) world0
         = (req2 <- upload_single (env None false)
                      (set_user (bearer alice_token 0 None) alice_id);;
            upload (env None false) req2) world0
      /\ delete_images (env None false) (bearer alice_token 0 None) world0
         = delete_image (env None false) (set_user (bearer alice_token 0 None) alice_id)
             world0
      /\ get_images (env None false) (bearer alice_token 0 None) world0
         = list_images (env None false) (set_user (bearer alice_token 0 None) alice_id)
             world0).
Proof.
  split; [|split].
  - apply (proj1 (authenticate_distinct_failures (env None false) request world0)).
    by left.
  - apply (proj1 (proj2 (authenticate_distinct_failures (env None false)
                           (bearer forged_token 0 None) world0)) forged_token);
      done.
  - apply (proj2 (proj2 (authenticate_distinct_failures (env None false)
                           (bearer alice_token 0 None) world0)) alice_token alice_id);
      done.
Defined.

(** Alice lists her images. *)
Lemma list_images_owner_newest_first_witness :
  exists r w',
    get_images (env None false) (bearer alice_token 0 None) world1 = (sent r, w')
    /\ db w' = db world1
    /\ (db_fault (env None false) 0 = false ->
        exists rs,
          r = {| status := 200; body := records rs |}
          /\ rs ≡ₚ List.filter (fun c => cars.user_id c =? 1) (cars (db world1))
          /\ (forall c, c ∈ rs <-> c ∈ cars (db world1) /\ cars.user_id c = 1)
          /\ StronglySorted Sql.newer_first rs
          /\ ((forall c, c ∈ cars (db world1) -> cars.user_id c <> 1) -> rs = [])).
Proof.
  apply (list_images_owner_newest_first (env None false) (bearer alice_token 0 None)
           world1 alice_id); reflexivity.
Defined.

(** A signup with the email of Alice. *)
Lemma signup_conflict_witness :
  exists w',
    signup (env None false) (credentials (Some "a@b.com") (Some "pw")) world0
    = (sent {| status := 409;
               body := json (JObj [("error", JStr "Email already exists")]) |}, w')
    /\ db w' = db world0.
Proof.
  apply (proj1 (proj2 (signup_conflict (env None false)
                         (credentials (Some "a@b.com") (Some "pw")) world0)));
    try reflexivity.
  exists alice. split; [by left | done].
Defined.

(** The sample tables satisfy the invariant. *)
Lemma world0_inv : db_inv (db world0).
Proof.
  split; cbn [db world0 users cars users_AUTO_INCREMENT cars_AUTO_INCREMENT].
  - apply (bool_decide_unpack _). by vm_compute.
  - apply (bool_decide_unpack _). by vm_compute.
  - intros u Hu. repeat (apply elem_of_cons in Hu as [->|Hu]); [done..|].
    by apply elem_of_nil in Hu.
  - apply NoDup_nil_2.
  - by intros c ?%elem_of_nil.
  - intros u Hu. repeat (apply elem_of_cons in Hu as [->|Hu]).
    + split; [done|]. by exists "pw123", EmptyString.
    + split; [done|]. by exists "hunter2", EmptyString.
    + by apply elem_of_nil in Hu.
Qed.





(** The token that the login of Alice returns authenticates her requests
    with her id. *)
Example login_then_authenticate :
  verified (env None false) (bearer alice_token 0 None) = Some alice_id
  /\ Jwt.id alice_id = users.id alice.
Proof. by vm_compute. Qed.

(** The example scenario, from the tables of the setup script: a signup, a
    login, the upload of car.jpg that Gemini answers with the fenced
    object, the list, the delete of the image and the list again. *)
Example scenario :
  fst (signup ok (credentials (Some "a@b.com") (Some "pw123")) initial)
  = sent {| status := 201; body := json (JObj [("message", JStr "User created")]) |}
  /\ fst (login ok (credentials (Some "a@b.com") (Some "pw123")) signed_up)
     = sent {| status := 200; body := json (JObj [("token", JStr alice_token)]) |}
  /\ fst (get_images ok (bearer alice_token 0 None) uploaded)
     = sent {| status := 200; body := records [toyota_row] |}
  /\ JSON_parse (cars.car_info toyota_row) = Some toyota
  /\ files uploaded !! stored_path = Some "JPEGDATA"
  /\ fst (delete_images ok (bearer alice_token 1 None) uploaded)
     = sent {| status := 200; body := text "Image deleted successfully" |}
  /\ files deleted !! stored_path = None
  /\ fst (get_images ok (bearer alice_token 0 None) deleted)
     = sent {| status := 200; body := records [] |}.
Proof. repeat split; vm_compute; reflexivity. Qed.

End Examples.

(** ** The further properties on the sample data *)

Module CaseFacts.
Import Sample Cases.

#[local] Existing Instance mini.

Lemma world1_inv : db_inv (db world1).
Proof.
  split; cbn [db world1 users cars users_AUTO_INCREMENT cars_AUTO_INCREMENT].
  - apply (bool_decide_unpack _). by vm_compute.
  - apply (bool_decide_unpack _). by vm_compute.
  - intros u Hu. repeat (apply elem_of_cons in Hu as [->|Hu]); [done..|].
    by apply elem_of_nil in Hu.
  - apply (bool_decide_unpack _). by vm_compute.
  - intros c Hc. repeat (apply elem_of_cons in Hc as [->|Hc]); [done..|].
    by apply elem_of_nil in Hc.
  - intros u Hu. repeat (apply elem_of_cons in Hu as [->|Hu]).
    + split; [done|]. by exists "pw123", EmptyString.
    + split; [done|]. by exists "hunter2", EmptyString.
    + by apply elem_of_nil in Hu.
Qed.

Lemma world1_served : rows_served (db world1).
Proof.
  intros c Hc. cbn [db world1 cars] in Hc.
  repeat (apply elem_of_cons in Hc as [->|Hc]); [by vm_compute..|].
  by apply elem_of_nil in Hc.
Qed.

(** The worlds of the example scenario are reached. *)
Lemma reachable_uploaded : reachable uploaded.
Proof.
  apply (reachable_request signed_up post_upload ok upload_request
           (fst (post_upload ok upload_request signed_up))).
  - apply (reachable_request initial signup ok (credentials (Some "a@b.com") (Some "pw123"))
             (fst (signup ok (credentials (Some "a@b.com") (Some "pw123")) initial))).
    + apply reachable_initial.
    + apply list_elem_of_here.
    + apply surjective_pairing.
  - do 2 apply list_elem_of_further. apply list_elem_of_here.
  - apply surjective_pairing.
Qed.

(** After the signup and the upload of the example scenario. *)
Lemma reachable_inv_witness : db_inv (db uploaded).
Proof. apply (reachable_inv uploaded). apply reachable_uploaded. Defined.

Lemma reachable_rows_served_witness : rows_served (db uploaded).
Proof. apply (reachable_rows_served uploaded). apply reachable_uploaded. Defined.

Lemma reachable_files_in_folders_witness : files_in_folders uploaded.
Proof. apply (reachable_files_in_folders uploaded). apply reachable_uploaded. Defined.

(** Alice deletes her image 1. *)
Lemma delete_own_image_witness :
  exists w',
    delete_images (env None false) (bearer alice_token 1 None) world1
    = (sent {| status := 200; body := text "Image deleted successfully" |}, w')
    /\ (forall x, x ∈ cars (db w') <-> x ∈ cars (db world1) /\ x <> car 1 "100-a.jpg" 1 100)
    /\ users (db w') = users (db world1)
    /\ files w' = delete (file_of (car 1 "100-a.jpg" 1 100)) (files world1)
    /\ folders w' = folders world1.
Proof.
  apply (delete_own_image (env None false) (bearer alice_token 1 None) world1 alice_id
           (car 1 "100-a.jpg" 1 100)); try reflexivity.
  - apply world1_inv.
  - apply list_elem_of_here.
Defined.

(** The same when MySQL fails the [DELETE]. *)
Lemma delete_failure_keeps_row_without_file_witness :
  exists w',
    delete_images second_fails (bearer alice_token 1 None) world1
    = (sent {| status := 500; body := text "Server error while deleting image" |}, w')
    /\ db w' = db world1
    /\ car 1 "100-a.jpg" 1 100 ∈ cars (db w')
    /\ files w' !! file_of (car 1 "100-a.jpg" 1 100) = None.
Proof.
  apply (delete_failure_keeps_row_without_file second_fails (bearer alice_token 1 None)
           world1 alice_id (car 1 "100-a.jpg" 1 100)); try reflexivity.
  - apply world1_inv.
  - apply list_elem_of_here.
Defined.

(** Alice sends an upload without a file. *)
Lemma upload_without_file_witness :
  post_upload (env None false) (bearer alice_token 0 None) world0
  = (sent {| status := 400; body := text "No file uploaded" |}, world0)
  /\ upload (env None false) (set_file (set_user (bearer alice_token 0 None) alice_id) None)
       world0
     = (sent {| status := 400; body := text "No file uploaded" |}, world0).
Proof.
  apply (upload_without_file (env None false) (bearer alice_token 0 None) world0 alice_id);
    reflexivity.
Defined.


(** The login of Alice. *)
Lemma login_token_only_for_credentials_witness :
  exists u e p,
    u ∈ users (db world0)
    /\ body_email (credentials (Some "a@b.com") (Some "pw123")) = Some e
    /\ body_password (credentials (Some "a@b.com") (Some "pw123")) = Some p
    /\ users.email u = e
    /\ bcrypt_compare p (users.password u) = true
    /\ body {| status := 200; body := json (JObj [("token", JStr alice_token)]) |}
       = json (JObj [("token",
                      JStr (jwt_sign {| Jwt.id := users.id u; Jwt.username := None;
                                        Jwt.iat := seconds (env None false);
                                        Jwt.exp := seconds (env None false) + 3600 |}
                              JWT_SECRET))]).
Proof.
  apply (login_token_only_for_credentials (env None false)
           (credentials (Some "a@b.com") (Some "pw123")) world0
           {| status := 200; body := json (JObj [("token", JStr alice_token)]) |}
           (snd (login (env None false) (credentials (Some "a@b.com") (Some "pw123"))
                   world0)));
    reflexivity.
Defined.

(** A login with an email that no user has. *)
Lemma login_failures_alike_witness :
  exists w',
    login (env None false) (credentials (Some "eve@b.com") (Some "pw123")) world0
    = (sent {| status := 400; body := text "Invalid credentials" |}, w')
    /\ db w' = db world0 /\ files w' = files world0.
Proof.
  apply (login_failures_alike (env None false)
           (credentials (Some "eve@b.com") (Some "pw123")) world0 "eve@b.com" "pw123");
    try done.
  intros u Hu. cbn [db world0 users] in Hu.
  repeat (apply elem_of_cons in Hu as [->|Hu]); [done..|]. by apply elem_of_nil in Hu.
Defined.

(** A signup, among the routes. *)
Lemma users_never_removed_witness :
  exists l,
    users (db (snd (signup (env None false) (credentials (Some "c@b.com") (Some "pw"))
                      world0)))
    = (users (db world0) ++ l)%list
    /\ (List.length l <= 1)%nat.
Proof.
  apply (users_never_removed (env None false) signup
           (credentials (Some "c@b.com") (Some "pw")) world0).
  apply list_elem_of_here.
Defined.

(** Alice asks to delete image 2, which is Bob's. *)
Lemma others_rows_kept_witness :
  car 2 "200-b.jpg" 2 200
  ∈ cars (db (snd (delete_images (env None false) (bearer alice_token 2 None) world1))).
Proof.
  apply (others_rows_kept (env None false) delete_images (bearer alice_token 2 None) world1
           (car 2 "200-b.jpg" 2 200)).
  - do 3 apply list_elem_of_further. apply list_elem_of_here.
  - apply list_elem_of_further, list_elem_of_here.
  - intros u Hu. vm_compute in Hu. by injection Hu as <-.
Defined.

(** The image of Bob through an upload of Alice. *)
Lemma other_folders_untouched_witness :
  files (snd (post_upload ok upload_request world1)) !! "/srv/backend/cars/2/200-b.jpg"
  = files world1 !! "/srv/backend/cars/2/200-b.jpg".
Proof.
  apply (other_folders_untouched ok post_upload upload_request world1 2
           "/srv/backend/cars/2/200-b.jpg").
  - do 2 apply list_elem_of_further. apply list_elem_of_here.
  - apply world1_served.
  - by intros f [= <-].
  - intros u Hu. vm_compute in Hu. by injection Hu as <-.
  - by exists "200-b.jpg".
Defined.

(** The token of Alice after the word [Token]. *)
Lemma authenticate_any_scheme_witness :
  authenticateToken (env None false) (with_header ("Token " +:+ alice_token)) world0
  = match jwt_verify alice_token JWT_SECRET (seconds (env None false)) with
    | Some u => (next (set_user (with_header ("Token " +:+ alice_token)) u), world0)
    | None => (sent {| status := 403; body := text "Forbidden" |}, world0)
    end.
Proof.
  apply (authenticate_any_scheme (env None false) (with_header ("Token " +:+ alice_token))
           world0 "Token" alice_token); done.
Defined.

(** The token of Alice alone in the header. *)
Lemma authenticate_bare_token_witness :
  authenticateToken (env None false) (with_header alice_token) world0
  = (sent {| status := 401; body := text "Unauthorized" |}, world0).
Proof.
  apply (authenticate_bare_token (env None false) (with_header alice_token) world0
           alice_token); reflexivity.
Defined.

(** The image of Bob as the featured car. *)
Lemma featured_car_any_row_witness :
  exists draw w',
    featured_car (env None false) draw world1
    = (next (200, featured_row (car 2 "200-b.jpg" 2 200)), w').
Proof.
  apply (featured_car_any_row (env None false) world1 (car 2 "200-b.jpg" 2 200)).
  - apply list_elem_of_further, list_elem_of_here.
  - reflexivity.
Defined.

(** Alice deletes her image 1 twice. *)
Lemma delete_again_not_found_witness :
  exists w'',
    delete_images (env None false) (bearer alice_token 1 None)
      (snd (delete_images (env None false) (bearer alice_token 1 None) world1))
    = (sent {| status := 404; body := text "Image not found or not owned by user" |}, w'')
    /\ db w'' = db (snd (delete_images (env None false) (bearer alice_token 1 None) world1))
    /\ files w''
       = files (snd (delete_images (env None false) (bearer alice_token 1 None) world1)).
Proof.
  apply (delete_again_not_found (env None false) (env None false) (bearer alice_token 1 None)
           world1 {| status := 200; body := text "Image deleted successfully" |}
           (snd (delete_images (env None false) (bearer alice_token 1 None) world1))
           alice_id); reflexivity.
Defined.

(** The upload of the example scenario, and then the list. *)
Lemma upload_then_listed_witness :
  exists w' w'' rs,
    post_upload ok upload_request world1
    = (sent {| status := 200;
               body := uploaded_body ok alice_id car_jpg (annotation toyota_answer) |}, w')
    /\ get_images ok (bearer alice_token 0 None) w'
       = (sent {| status := 200; body := records rs |}, w'')
    /\ rs ≡ₚ uploaded_row ok (db world1) alice_id car_jpg (annotation toyota_answer)
              :: List.filter (fun c => cars.user_id c =? Jwt.id alice_id) (cars (db world1))
    /\ StronglySorted Sql.newer_first rs.
Proof.
  apply (upload_then_listed ok ok upload_request (bearer alice_token 0 None) world1
           alice_id alice_id car_jpg toyota_answer); reflexivity.
Defined.

(** The upload of the example scenario, and then its delete. *)
Lemma upload_then_delete_restores_witness :
  exists w' w'',
    post_upload ok upload_request world0
    = (sent {| status := 200;
               body := uploaded_body ok alice_id car_jpg (annotation toyota_answer) |}, w')
    /\ delete_images ok (bearer alice_token 1 None) w'
       = (sent {| status := 200; body := text "Image deleted successfully" |}, w'')
    /\ cars (db w'') = cars (db world0)
    /\ users (db w'') = users (db world0)
    /\ cars_AUTO_INCREMENT (db w'') = cars_AUTO_INCREMENT (db world0) + 1
    /\ files w'' = delete (upload_path ok alice_id car_jpg) (files world0)
    /\ (files world0 !! upload_path ok alice_id car_jpg = None -> files w'' = files world0).
Proof.
  apply (upload_then_delete_restores ok ok upload_request (bearer alice_token 1 None) world0
           alice_id alice_id car_jpg toyota_answer); try reflexivity.
  apply Examples.world0_inv.
Defined.

(** Alice uploads car.jpg twice in the same millisecond. *)
Lemma uploads_same_name_same_time_share_file_witness :
  exists w' w'',
    post_upload ok upload_request world0
    = (sent {| status := 200;
               body := uploaded_body ok alice_id car_jpg (annotation toyota_answer) |}, w')
    /\ post_upload ok (bearer alice_token 0 (Some repainted)) w'
       = (sent {| status := 200;
                  body := uploaded_body ok alice_id repainted (annotation toyota_answer) |},
          w'')
    /\ cars (db w'')
       = (cars (db world0)
          ++ [uploaded_row ok (db world0) alice_id car_jpg (annotation toyota_answer);
              uploaded_row ok (db w') alice_id repainted (annotation toyota_answer)])%list
    /\ cars.url (uploaded_row ok (db w') alice_id repainted (annotation toyota_answer))
       = cars.url (uploaded_row ok (db world0) alice_id car_jpg (annotation toyota_answer))
    /\ cars.id (uploaded_row ok (db w') alice_id repainted (annotation toyota_answer))
       <> cars.id (uploaded_row ok (db world0) alice_id car_jpg (annotation toyota_answer))
    /\ files w'' = <[upload_path ok alice_id car_jpg := buffer repainted]> (files world0).
Proof.
  apply (uploads_same_name_same_time_share_file ok ok upload_request
           (bearer alice_token 0 (Some repainted)) world0 alice_id alice_id car_jpg repainted
           toyota_answer toyota_answer); reflexivity.
Defined.

(** A signup and then the login. *)
Lemma signup_then_login_witness :
  exists w'',
    login (env None false) (credentials (Some "c@b.com") (Some "pw"))
      (snd (signup (env None false) (credentials (Some "c@b.com") (Some "pw")) world0))
    = (sent {| status := 200;
               body := json (JObj [("token",
                         JStr (jwt_sign {| Jwt.id := users_AUTO_INCREMENT (db world0);
                                           Jwt.username := None;
                                           Jwt.iat := seconds (env None false);
                                           Jwt.exp := seconds (env None false) + 3600 |}
                                        JWT_SECRET))]) |}, w'')
    /\ db w''
       = db (snd (signup (env None false) (credentials (Some "c@b.com") (Some "pw")) world0)).
Proof.
  apply (signup_then_login (env None false) (env None false)
           (credentials (Some "c@b.com") (Some "pw")) world0
           {| status := 201; body := json (JObj [("message", JStr "User created")]) |}
           (snd (signup (env None false) (credentials (Some "c@b.com") (Some "pw")) world0)));
    try reflexivity.
  apply Examples.mini_bcrypt_accepts_own.
Defined.

(** Alice mistypes her password on the landing page. *)
Lemma login_failure_says_unreachable_witness :
  Page.handleSubmit (form true "a@b.com" "pw124")
    (Some {| status := 400; body := text "Invalid credentials" |})
  = (form true "a@b.com" "pw124",
     [Page.alert "Unable to reach server."; Page.logged EmptyString]).
Proof.
  apply (login_failure_says_unreachable (env None false) (form true "a@b.com" "pw124") world0
           {| status := 400; body := text "Invalid credentials" |}
           (snd (login (env None false) (credentials (Some "a@b.com") (Some "pw124"))
                   world0)));
    try reflexivity.
  done.
Defined.

(** Alice logs in on the landing page. *)
Lemma login_success_keeps_token_witness :
  exists token,
    body {| status := 200; body := json (JObj [("token", JStr alice_token)]) |}
    = json (JObj [("token", JStr token)])
    /\ Page.handleSubmit (form true "a@b.com" "pw123")
         (Some {| status := 200; body := json (JObj [("token", JStr alice_token)]) |})
       = (form true "a@b.com" "pw123",
          [Page.setItem "token" token; Page.navigate "/dashboard"]).
Proof.
  apply (login_success_keeps_token (env None false) (form true "a@b.com" "pw123") world0
           {| status := 200; body := json (JObj [("token", JStr alice_token)]) |}
           (snd (login (env None false) (credentials (Some "a@b.com") (Some "pw123"))
                   world0)));
    reflexivity.
Defined.

(** A signup with the email of Alice, on the landing page. *)
Lemma signup_submit_outcome_witness :
  (status {| status := 409; body := json (JObj [("error", JStr "Email already exists")]) |}
   = 201
   /\ Page.handleSubmit (form false "a@b.com" "pw")
        (Some {| status := 409;
                 body := json (JObj [("error", JStr "Email already exists")]) |})
      = ({| Page.isLogin := true; Page.email := EmptyString;
            Page.password := EmptyString;
            Page.featuredCar := Page.featuredCar (form false "a@b.com" "pw") |},
         [Page.alert "Signup successful! You can now log in."]))
  \/ (status {| status := 409;
                body := json (JObj [("error", JStr "Email already exists")]) |} <> 201
      /\ exists msg,
           msg ∈ ["Email and password required"; "Email already exists"; "Database error"]
           /\ body {| status := 409;
                      body := json (JObj [("error", JStr "Email already exists")]) |}
              = json (JObj [("error", JStr msg)])
           /\ Page.handleSubmit (form false "a@b.com" "pw")
                (Some {| status := 409;
                         body := json (JObj [("error", JStr "Email already exists")]) |})
              = (form false "a@b.com" "pw", [Page.alert msg])).
Proof.
  apply (signup_submit_outcome (env None false) (form false "a@b.com" "pw") world0
           {| status := 409; body := json (JObj [("error", JStr "Email already exists")]) |}
           (snd (signup (env None false) (credentials (Some "a@b.com") (Some "pw")) world0)));
    reflexivity.
Defined.

(** The landing page when no car has been uploaded. *)
Lemma featured_box_of_answer_witness :
  Page.featured_box
    (fst (Page.load_featured Page.mounted (Some (404, featured_error "No cars found"))))
  = Some {| Page.src := "http://localhost:3000undefined"; Page.alt := None;
            Page.info := None |}.
Proof.
  apply (featured_box_of_answer (env None false) Page.mounted 0%nat world0 404
           (featured_error "No cars found")
           (snd (featured_car (env None false) 0%nat world0))).
  reflexivity.
Defined.

(** The dashboard of Alice loads. *)
Lemma dashboard_gallery_after_load_witness :
  match jwt_verify alice_token JWT_SECRET (seconds (env None false)) with
  | Some u =>
      if db_fault (env None false) 0
      then Page.load_images Page.opened
             (Some {| status := 200;
                      body := records [car 3 "300-c.jpg" 1 300; car 1 "100-a.jpg" 1 100] |})
           = (Page.opened, [Page.logged "Error loading images:"])
      else exists rs,
             Page.load_images Page.opened
               (Some {| status := 200;
                        body := records [car 3 "300-c.jpg" 1 300;
                                         car 1 "100-a.jpg" 1 100] |})
             = ({| Page.uploadedImages := Page.rows rs;
                   Page.clickedImage := Page.clickedImage Page.opened;
                   Page.loading := Page.loading Page.opened |}, [])
             /\ rs ≡ₚ List.filter (fun c => cars.user_id c =? Jwt.id u) (cars (db world1))
             /\ StronglySorted Sql.newer_first rs
  | None =>
      Page.load_images Page.opened
        (Some {| status := 200;
                 body := records [car 3 "300-c.jpg" 1 300; car 1 "100-a.jpg" 1 100] |})
      = (Page.opened, [Page.logged "Error loading images:"])
  end.
Proof.
  apply (dashboard_gallery_after_load (env None false) Page.opened alice_token world1
           {| status := 200;
              body := records [car 3 "300-c.jpg" 1 300; car 1 "100-a.jpg" 1 100] |}
           (snd (get_images (env None false) (bearer alice_token 0 None) world1)));
    try reflexivity.
  done.
Defined.

(** Alice deletes image 1 from her dashboard. *)
Lemma handleDelete_in_step_witness :
  exists st' g' ui,
    Page.handleDelete 1 gallery
      (Some {| status := 200; body := text "Image deleted successfully" |})
    = (Some st', ui)
    /\ Page.uploadedImages st' = Page.rows g'
    /\ g' ≡ₚ List.filter (fun c => cars.user_id c =? Jwt.id alice_id)
               (cars (db (snd (delete_images (env None false)
                                 (Page.delete_request alice_token 1) world1))))
    /\ StronglySorted Sql.newer_first g'
    /\ (status {| status := 200; body := text "Image deleted successfully" |} = 200 ->
        Page.clickedImage st' = None).
Proof.
  apply (handleDelete_in_step (env None false) gallery alice_token 1 world1
           {| status := 200; body := text "Image deleted successfully" |}
           (snd (delete_images (env None false) (Page.delete_request alice_token 1) world1))
           alice_id [car 3 "300-c.jpg" 1 300; car 1 "100-a.jpg" 1 100]);
    try reflexivity.
  - apply perm_swap.
  - repeat constructor. unfold Sql.newer_first. simpl. lia.
Defined.

(** A fence that Gemini opened and did not close. *)
Lemma fence_unclosed_unchanged_witness :
  Js.replace_1 fence ("Here: " +:+ "```json" +:+ " {}") = "Here: " +:+ "```json" +:+ " {}".
Proof.
  apply (FenceFacts.fence_unclosed_unchanged "Here: " " {}"); reflexivity.
Defined.

End CaseFacts.
